(** * AgoraAI: ledger, message envelopes, broker and validators

    A shallow embedding of [src/blockchain/core.py],
    [src/blockchain/validation.py], [src/communication/protocol.py] and
    [src/communication/messaging.py], with the two library functions their
    behaviour rests on: [hashlib.sha256] and [json.dumps] / [json.loads]. *)

From Stdlib Require Import ZArith NArith List String Ascii Lia Bool.
From Stdlib Require DecimalN DecimalFacts.
From stdpp Require Import gmap strings list.
Import ListNotations.

#[global] Set Warnings "-register-all".

Local Open Scope Z_scope.
Local Open Scope list_scope.

(** ** Text

    A Python [str] is a sequence of code points; the embedding keeps the
    code points below 256 and holds a text as [list ascii] while it is
    scanned or built, and as [string] in records. *)

Abbreviation text := (list ascii).

Definition chars (s : string) : text := list_ascii_of_string s.
Definition str (t : text) : string := string_of_list_ascii t.

Lemma chars_str (t : text) : chars (str t) = t.
Proof. apply list_ascii_of_string_of_list_ascii. Qed.

Lemma str_chars (s : string) : str (chars s) = s.
Proof. apply string_of_list_ascii_of_string. Qed.

Definition code (c : ascii) : N := N_of_ascii c.

(** ** SHA-256 ([hashlib.sha256(...).hexdigest()]), FIPS 180-4 on 32-bit
    words held in [N] with the wrap-around written out. *)

Module Sha256.
Local Open Scope N_scope.

Definition mask32 : N := 0xFFFFFFFF.
Definition add32 (x y : N) : N := N.land (x + y) mask32.
Definition rotr (n x : N) : N :=
  N.lor (N.shiftr x n) (N.land (N.shiftl x (32 - n)) mask32).
Definition not32 (x : N) : N := N.lxor x mask32.

Definition ch (x y z : N) : N := N.lxor (N.land x y) (N.land (not32 x) z).
Definition maj (x y z : N) : N :=
  N.lxor (N.lxor (N.land x y) (N.land x z)) (N.land y z).
Definition bsig0 (x : N) : N := N.lxor (N.lxor (rotr 2 x) (rotr 13 x)) (rotr 22 x).
Definition bsig1 (x : N) : N := N.lxor (N.lxor (rotr 6 x) (rotr 11 x)) (rotr 25 x).
Definition ssig0 (x : N) : N := N.lxor (N.lxor (rotr 7 x) (rotr 18 x)) (N.shiftr x 3).
Definition ssig1 (x : N) : N := N.lxor (N.lxor (rotr 17 x) (rotr 19 x)) (N.shiftr x 10).

(** The constants are the leading 32 fractional bits of the square roots
    (initial state) and cube roots (round constants) of the first primes. *)

Definition is_prime (n : nat) : bool :=
  forallb (fun d => negb (Nat.eqb (Nat.modulo n d) 0)) (seq 2 (n - 2)).

Definition primes64 : list N :=
  Eval vm_compute in map N.of_nat (firstn 64 (filter is_prime (seq 2 320))).

Definition cube_root (n : N) : N :=
  fold_left (fun r b => let r' := r + N.shiftl 1 (N.of_nat b) in
                        if r' * r' * r' <=? n then r' else r)
            (rev (seq 0 40)) 0.

Definition init_state : list N :=
  Eval vm_compute in
    map (fun p => N.land (N.sqrt (N.shiftl p 64)) mask32) (firstn 8 primes64).

Definition round_consts : list N :=
  Eval vm_compute in
    map (fun p => N.land (cube_root (N.shiftl p 96)) mask32) primes64.

(** Padding: the byte 0x80, zero bytes up to 56 modulo 64, and the bit
    length as eight big-endian bytes. *)

Definition be_bytes (k : nat) (x : N) : list N :=
  map (fun i => N.land (N.shiftr x (8 * N.of_nat i)) 0xFF) (rev (seq 0 k)).

Definition pad (msg : list N) : list N :=
  let len := N.of_nat (length msg) in
  let zeros := N.to_nat ((119 - len mod 64) mod 64) in
  msg ++ [0x80] ++ repeat 0 zeros ++ be_bytes 8 (8 * len).

Fixpoint words (bs : list N) : list N :=
  match bs with
  | a :: b :: c :: d :: rest =>
      (N.shiftl a 24 + N.shiftl b 16 + N.shiftl c 8 + d) :: words rest
  | _ => []
  end.

(** The message schedule, newest word first while it is built. *)
Definition schedule_step (acc : list N) : list N :=
  add32 (add32 (ssig1 (nth 1 acc 0)) (nth 6 acc 0))
        (add32 (ssig0 (nth 14 acc 0)) (nth 15 acc 0)) :: acc.

Definition schedule (block : list N) : list N :=
  rev (Nat.iter 48 schedule_step (rev block)).

Definition round (st : list N) (kw : N * N) : list N :=
  match st with
  | [a; b; c; d; e; f; g; h] =>
      let t1 := add32 (add32 (add32 h (bsig1 e)) (add32 (ch e f g) (fst kw))) (snd kw) in
      let t2 := add32 (bsig0 a) (maj a b c) in
      [add32 t1 t2; a; b; c; add32 d t1; e; f; g]
  | _ => st
  end.

Definition compress (st : list N) (block : list N) : list N :=
  let st' := fold_left round (combine round_consts (schedule block)) st in
  map (fun p => add32 (fst p) (snd p)) (combine st st').

Fixpoint blocks (fuel : nat) (ws : list N) : list (list N) :=
  match fuel, ws with
  | S fuel', _ :: _ => firstn 16 ws :: blocks fuel' (skipn 16 ws)
  | _, _ => []
  end.

Definition digest (msg : list N) : list N :=
  let ws := words (pad msg) in
  fold_left compress (blocks (length ws) ws) init_state.

Definition hex_digit (n : N) : ascii :=
  ascii_of_N (if n <? 10 then 48 + n else 87 + n).

Definition hex8 (w : N) : text :=
  map (fun i => hex_digit (N.land (N.shiftr w (4 * N.of_nat i)) 0xF)) (rev (seq 0 8)).

Definition hexdigest_text (msg : text) : text :=
  match digest (map code msg) with
  | [a; b; c; d; e; f; g; h] =>
      hex8 a ++ hex8 b ++ hex8 c ++ hex8 d ++ hex8 e ++ hex8 f ++ hex8 g ++ hex8 h
  | _ => []
  end.

Definition hexdigest (s : string) : string := str (hexdigest_text (chars s)).

End Sha256.

(** ** Python values

    The values the modelled code stores in transaction records and
    message contents ([Dict[str, Any]]): what [json.dumps] accepts. A
    [dict] keeps its insertion order, so it is an association list; its
    keys are strings, each at most once ([keys_differ]).

    A [float] is not-a-number, an infinity, or a finite number held in
    microseconds, the resolution of [datetime.timestamp()]: the double
    nearest to that many millionths. A string holds code points below
    256. *)

Inductive pyfloat : Type :=
| FNan
| FInf (neg : bool)
| FFin (micros : Z).

Inductive pyval : Type :=
| PyNone
| PyBool (b : bool)
| PyInt (z : Z)
| PyFloat (f : pyfloat)
| PyStr (s : string)
| PyList (l : list pyval)
| PyTuple (l : list pyval)
| PyDict (d : list (string * pyval)).

Abbreviation pydict := (list (string * pyval)).

(** [d.get(k)] / [k in d]: the first binding of [k]. *)
Fixpoint dict_get (k : string) (d : pydict) : option pyval :=
  match d with
  | [] => None
  | (k', v) :: d' => if String.eqb k k' then Some v else dict_get k d'
  end.

Definition dict_mem (k : string) (d : pydict) : bool :=
  match dict_get k d with Some _ => true | None => false end.

(** [d[k] = v]: an existing key keeps its place, a new one goes last. *)
Fixpoint dict_set (k : string) (v : pyval) (d : pydict) : pydict :=
  match d with
  | [] => [(k, v)]
  | (k', v') :: d' =>
      if String.eqb k k' then (k, v) :: d' else (k', v') :: dict_set k v d'
  end.

(** Float comparisons: every comparison with not-a-number is false. *)
Definition float_ltb (x y : pyfloat) : bool :=
  match x, y with
  | FNan, _ | _, FNan => false
  | FInf true, FInf true => false
  | FInf true, _ => true
  | _, FInf true => false
  | FInf false, _ => false
  | _, FInf false => true
  | FFin a, FFin b => a <? b
  end.

Definition float_eqb (x y : pyfloat) : bool :=
  match x, y with
  | FInf a, FInf b => Bool.eqb a b
  | FFin a, FFin b => a =? b
  | _, _ => false
  end.

(** [bool(x)] of a float: only zero is false. *)
Definition float_truthy (x : pyfloat) : bool :=
  match x with FFin 0 => false | _ => true end.

Definition micro : Z := 1000000.

(** Python's [==] between two distinct objects: numbers compare by value
    across [bool], [int] and [float]; lists and tuples element by element
    and never with each other; dicts by key, whatever the order. *)
Definition num_of (v : pyval) : option pyfloat :=
  match v with
  | PyBool b => Some (FFin (if b then micro else 0))
  | PyInt z => Some (FFin (z * micro))
  | PyFloat f => Some f
  | _ => None
  end.

Definition list_eq_with (eq : pyval -> pyval -> bool) : list pyval -> list pyval -> bool :=
  fix go (l1 l2 : list pyval) {struct l1} : bool :=
    match l1, l2 with
    | [], [] => true
    | x :: l1', y :: l2' => eq x y && go l1' l2'
    | _, _ => false
    end.

Definition dict_sub_with (eq : pyval -> pyval -> bool) (d2 : pydict) : pydict -> bool :=
  fix go (d1 : pydict) {struct d1} : bool :=
    match d1 with
    | [] => true
    | kv :: d1' =>
        match dict_get (fst kv) d2 with
        | Some w => eq (snd kv) w && go d1'
        | None => false
        end
    end.

Fixpoint py_eq (a b : pyval) {struct a} : bool :=
  match a, b with
  | PyNone, PyNone => true
  | PyStr s, PyStr t => String.eqb s t
  | PyList l1, PyList l2 => list_eq_with py_eq l1 l2
  | PyTuple l1, PyTuple l2 => list_eq_with py_eq l1 l2
  | PyDict d1, PyDict d2 =>
      Nat.eqb (length d1) (length d2) && dict_sub_with py_eq d2 d1
  | _, _ =>
      match num_of a, num_of b with
      | Some x, Some y => float_eqb x y
      | _, _ => false
      end
  end.

(** A value that [json.dumps] and [json.loads] carry over as it is: no
    tuple (it comes back as a list), no not-a-number (it is not equal to
    itself), no key twice in a dict. *)
Fixpoint keys_differ (ks : list string) : bool :=
  match ks with
  | [] => true
  | k :: ks' => negb (existsb (String.eqb k) ks') && keys_differ ks'
  end.

Fixpoint json_native (v : pyval) : bool :=
  match v with
  | PyTuple _ => false
  | PyFloat FNan => false
  | PyList l => forallb json_native l
  | PyDict d => keys_differ (map fst d) && forallb (fun kv => json_native (snd kv)) d
  | _ => true
  end.

(** ** Decimal text of numbers *)

Definition dquote : ascii := "034"%char.

Fixpoint uint_text (u : Decimal.uint) : text :=
  match u with
  | Decimal.Nil => []
  | Decimal.D0 u => "0"%char :: uint_text u
  | Decimal.D1 u => "1"%char :: uint_text u
  | Decimal.D2 u => "2"%char :: uint_text u
  | Decimal.D3 u => "3"%char :: uint_text u
  | Decimal.D4 u => "4"%char :: uint_text u
  | Decimal.D5 u => "5"%char :: uint_text u
  | Decimal.D6 u => "6"%char :: uint_text u
  | Decimal.D7 u => "7"%char :: uint_text u
  | Decimal.D8 u => "8"%char :: uint_text u
  | Decimal.D9 u => "9"%char :: uint_text u
  end.

Definition N_text (n : N) : text := uint_text (N.to_uint n).

(** [str(z)] / [int.__repr__] *)
Definition int_text (z : Z) : text :=
  if z <? 0 then "-"%char :: N_text (Z.abs_N z) else N_text (Z.abs_N z).

Definition is_digit (c : ascii) : bool :=
  ((48 <=? code c) && (code c <=? 57))%N.

Definition digit_char (n : N) : ascii := ascii_of_N (48 + n mod 10).
Definition digit_val (c : ascii) : N := (code c - 48)%N.

(** [k] digits of [f], the most significant first. *)
Fixpoint fixed_digits (k : nat) (f : N) : text :=
  match k with
  | O => []
  | S k' => fixed_digits k' (f / 10) ++ [digit_char f]
  end.

Definition digits_value (t : text) : N :=
  fold_left (fun a c => (10 * a + digit_val c)%N) t 0%N.

(** Zeros at the end of a fraction are dropped, but for one digit. *)
Fixpoint strip_zeros_rev (r : text) : text :=
  match r with
  | c :: ((_ :: _) as r') => if Ascii.eqb c "0" then strip_zeros_rev r' else r
  | _ => r
  end.

Definition strip_zeros (t : text) : text := rev (strip_zeros_rev (rev t)).

(** The digits of [a] down to its last digit that is not zero. *)
Definition significant (a : N) : text := strip_zeros (N_text a).

(** The floats that [FFin] stands for exactly. Below 2^33 in magnitude
    two doubles are less than a microsecond apart, so the double nearest
    to a number of microseconds is nearest to no other, and its shortest
    [repr] is that decimal; a decimal of at most 15 significant digits is
    the shortest [repr] of its double at any magnitude a double has.
    Elsewhere a number of microseconds is not told apart from its
    neighbours by a double, and [FFin] stands for no one float. *)
Definition float_range : Z := 2 ^ 33 * micro.

Definition float_exact (f : pyfloat) : bool :=
  match f with
  | FFin z =>
      (Z.abs z <? float_range)
      || ((length (significant (Z.abs_N z)) <=? 15)%nat && (Z.abs z <? 10 ^ 314))
  | _ => true
  end.

Fixpoint floats_exact (v : pyval) : bool :=
  match v with
  | PyFloat f => float_exact f
  | PyList l | PyTuple l => forallb floats_exact l
  | PyDict d => forallb (fun kv => floats_exact (snd kv)) d
  | _ => true
  end.

(** [float.__repr__]: positional from 1e-4 up to 1e16, with an exponent
    of two digits at least below and above. *)
Definition exponent_text (e : Z) : text :=
  (if e <? 0 then chars "e-" else chars "e+") ++
  (if Z.abs e <? 10 then "0"%char :: N_text (Z.abs_N e) else N_text (Z.abs_N e)).

Definition mantissa_text (ds : text) : text :=
  match ds with
  | d :: ((_ :: _) as rest) => d :: "."%char :: rest
  | _ => ds
  end.

Definition float_repr (f : pyfloat) : text :=
  match f with
  | FNan => chars "nan"
  | FInf false => chars "inf"
  | FInf true => chars "-inf"
  | FFin z =>
      let a := Z.abs_N z in
      (if z <? 0 then ["-"%char] else []) ++
      if ((a =? 0) || ((100 <=? a) && (a <? 10 ^ 22)))%N then
        N_text (a / 1000000) ++ "."%char :: strip_zeros (fixed_digits 6 (a mod 1000000))
      else
        mantissa_text (significant a) ++ exponent_text (Z.of_nat (length (N_text a)) - 7)
  end.

(** ** [json.dumps]

    [ensure_ascii] is on: a character outside the printable ASCII range,
    a quote or a backslash is escaped. *)

Definition hex4 (n : N) : text :=
  map (fun i => Sha256.hex_digit (N.land (N.shiftr n (4 * N.of_nat i)) 0xF))
      (rev (seq 0 4)).

Definition escape_char (c : ascii) : text :=
  let n := code c in
  if (n =? 34)%N then ["\"%char; dquote]
  else if (n =? 92)%N then ["\"%char; "\"%char]
  else if (n =? 10)%N then ["\"%char; "n"%char]
  else if (n =? 13)%N then ["\"%char; "r"%char]
  else if (n =? 9)%N then ["\"%char; "t"%char]
  else if (n =? 8)%N then ["\"%char; "b"%char]
  else if (n =? 12)%N then ["\"%char; "f"%char]
  else if ((32 <=? n) && (n <=? 126))%N then [c]
  else "\"%char :: "u"%char :: hex4 n.

Definition json_string (s : text) : text :=
  dquote :: flat_map escape_char s ++ [dquote].

Definition json_float (f : pyfloat) : text :=
  match f with
  | FNan => chars "NaN"
  | FInf false => chars "Infinity"
  | FInf true => chars "-Infinity"
  | _ => float_repr f
  end.

Fixpoint join (sep : text) (parts : list text) : text :=
  match parts with
  | [] => []
  | [p] => p
  | p :: rest => p ++ sep ++ join sep rest
  end.

(** [sorted(dct.items())]: insertion by key, code point order. *)
Fixpoint insert_item (kv : string * text) (l : list (string * text)) :
  list (string * text) :=
  match l with
  | [] => [kv]
  | kv' :: l' =>
      if String.leb (fst kv) (fst kv') then kv :: l else kv' :: insert_item kv l'
  end.

Definition sort_items (l : list (string * text)) : list (string * text) :=
  fold_right insert_item [] l.

Definition item_sep : text := chars ", ".
Definition key_sep : text := chars ": ".

Fixpoint dumps_text (sort_keys : bool) (v : pyval) : text :=
  match v with
  | PyNone => chars "null"
  | PyBool true => chars "true"
  | PyBool false => chars "false"
  | PyInt z => int_text z
  | PyFloat f => json_float f
  | PyStr s => json_string (chars s)
  | PyList l | PyTuple l =>
      "["%char :: join item_sep (map (dumps_text sort_keys) l) ++ ["]"%char]
  | PyDict d =>
      let items := map (fun kv => (fst kv, dumps_text sort_keys (snd kv))) d in
      let items := if sort_keys then sort_items items else items in
      "{"%char ::
        join item_sep
          (map (fun kt => json_string (chars (fst kt)) ++ key_sep ++ snd kt) items)
        ++ ["}"%char]
  end.

Definition json_dumps (sort_keys : bool) (v : pyval) : string :=
  str (dumps_text sort_keys v).

(** ** [json.loads]

    The scanner of the [json] module on the texts [json.dumps] writes and
    on every other text: whitespace between tokens, the escapes of a
    string, the literals, numbers. A float that is not [float_exact] or
    an escape above code point 255 stands for a value the embedding does
    not hold, and has no reading here, like a text that is refused. Fuel
    bounds the nesting and the number of items; [json_loads] gives as
    much as the text is long. *)

Definition is_ws (c : ascii) : bool :=
  let n := code c in ((n =? 32) || (n =? 9) || (n =? 10) || (n =? 13))%N.

Fixpoint skip_ws (t : text) : text :=
  match t with
  | c :: r => if is_ws c then skip_ws r else t
  | [] => []
  end.

Definition expect (c : ascii) (t : text) : option text :=
  match t with
  | c' :: r => if Ascii.eqb c' c then Some r else None
  | [] => None
  end.

Fixpoint strip_prefix (p t : text) : option text :=
  match p, t with
  | [], _ => Some t
  | c :: p', c' :: t' => if Ascii.eqb c c' then strip_prefix p' t' else None
  | _ :: _, [] => None
  end.

Definition digit_ctor (c : ascii) : option (Decimal.uint -> Decimal.uint) :=
  match code c with
  | 48 => Some Decimal.D0 | 49 => Some Decimal.D1 | 50 => Some Decimal.D2
  | 51 => Some Decimal.D3 | 52 => Some Decimal.D4 | 53 => Some Decimal.D5
  | 54 => Some Decimal.D6 | 55 => Some Decimal.D7 | 56 => Some Decimal.D8
  | 57 => Some Decimal.D9 | _ => None
  end%N.

(** The longest run of digits at the front of a text. *)
Fixpoint scan_uint (t : text) : Decimal.uint * text :=
  match t with
  | c :: r =>
      match digit_ctor c with
      | Some d => let (u, r') := scan_uint r in (d u, r')
      | None => (Decimal.Nil, t)
      end
  | [] => (Decimal.Nil, [])
  end.

Fixpoint span_digits (t : text) : text * text :=
  match t with
  | c :: r =>
      if is_digit c then let (ds, r') := span_digits r in (c :: ds, r')
      else ([], t)
  | [] => ([], [])
  end.

Definition hex_val (c : ascii) : option N :=
  let n := code c in
  if ((48 <=? n) && (n <=? 57))%N then Some (n - 48)%N
  else if ((97 <=? n) && (n <=? 102))%N then Some (n - 87)%N
  else if ((65 <=? n) && (n <=? 70))%N then Some (n - 55)%N
  else None.

Definition unescape (e : ascii) : option ascii :=
  match code e with
  | 34 => Some dquote | 92 => Some "\"%char | 47 => Some "/"%char
  | 98 => Some (ascii_of_N 8) | 102 => Some (ascii_of_N 12)
  | 110 => Some (ascii_of_N 10) | 114 => Some (ascii_of_N 13)
  | 116 => Some (ascii_of_N 9) | _ => None
  end%N.

Definition cons_char (c : ascii) (r : option (text * text)) : option (text * text) :=
  match r with
  | Some (s, rest) => Some (c :: s, rest)
  | None => None
  end.

(** The body of a string, after its opening quote. *)
Fixpoint scan_string (t : text) : option (text * text) :=
  match t with
  | [] => None
  | c :: r =>
      if (code c =? 34)%N then Some ([], r)
      else if (code c =? 92)%N then
        match r with
        | [] => None
        | e :: r1 =>
            if (code e =? 117)%N then
              match r1 with
              | h1 :: h2 :: h3 :: h4 :: r2 =>
                  match hex_val h1, hex_val h2, hex_val h3, hex_val h4 with
                  | Some a, Some b, Some c', Some d =>
                      let n := (((a * 16 + b) * 16 + c') * 16 + d)%N in
                      if (n <? 256)%N then cons_char (ascii_of_N n) (scan_string r2)
                      else None
                  | _, _, _, _ => None
                  end
              | _ => None
              end
            else
              match unescape e with
              | Some c' => cons_char c' (scan_string r1)
              | None => None
              end
        end
      else if (code c <? 32)%N then None
      else cons_char c (scan_string r)
  end.

Definition starts_exponent (t : text) : bool :=
  match t with
  | c :: _ => (code c =? 101)%N || (code c =? 69)%N
  | [] => false
  end.

Definition leading_zero (u : Decimal.uint) : bool :=
  match u with
  | Decimal.D0 Decimal.Nil => false
  | Decimal.D0 _ => true
  | _ => false
  end.

(** [(\.\d+)?]: the digits of a fraction, if there is one. *)
Definition scan_fraction (t : text) : option (option text * text) :=
  match expect "." t with
  | Some t' =>
      let '(fs, rest) := span_digits t' in
      match fs with
      | [] => None
      | _ => Some (Some fs, rest)
      end
  | None => Some (None, t)
  end.

(** [([eE][-+]?\d+)?]: the exponent, if there is one. *)
Definition scan_sign (t : text) : bool * text :=
  match t with
  | c :: r =>
      if Ascii.eqb c "-" then (true, r)
      else if Ascii.eqb c "+" then (false, r)
      else (false, t)
  | [] => (false, t)
  end.

Definition scan_exponent (t : text) : option (option Z * text) :=
  if starts_exponent t then
    let '(neg, t1) := scan_sign (tl t) in
    let '(u, rest) := scan_uint t1 in
    match u with
    | Decimal.Nil => None
    | _ => Some (Some (if neg then - Z.of_N (N.of_uint u) else Z.of_N (N.of_uint u)), rest)
    end
  else Some (None, t).

(** [n.fs] times ten to the [e] in microseconds, when it is a whole
    number of them. *)
Definition decimal_micros (n : N) (fs : text) (e : Z) : option N :=
  let m := (n * 10 ^ N.of_nat (length fs) + digits_value fs)%N in
  let p := e - Z.of_nat (length fs) + 6 in
  if 0 <=? p then Some (m * 10 ^ Z.to_N p)%N
  else if (m mod 10 ^ Z.to_N (- p) =? 0)%N then Some (m / 10 ^ Z.to_N (- p))%N
  else None.

(** What the digits stand for: an [int] with neither fraction nor
    exponent, a [float] otherwise. A float the embedding does not hold
    (not a whole number of microseconds, not [float_exact], a negative
    zero) has no value here. *)
Definition number_value (neg : bool) (n : N) (fs : option text) (e : option Z) :
  option pyval :=
  match fs, e with
  | None, None => Some (PyInt (if neg then - Z.of_N n else Z.of_N n))
  | _, _ =>
      match decimal_micros n (default [] fs) (default 0 e) with
      | Some a =>
          let z := if neg then - Z.of_N a else Z.of_N a in
          if (neg && (a =? 0)%N) || negb (float_exact (FFin z)) then None
          else Some (PyFloat (FFin z))
      | None => None
      end
  end.

(** A number after its sign: digits with no zero in front of another
    digit, an optional fraction, an optional exponent. *)
Definition scan_unsigned (neg : bool) (t : text) : option (pyval * text) :=
  let '(u, t2) := scan_uint t in
  match u with
  | Decimal.Nil => None
  | _ =>
      if leading_zero u then None
      else
        match scan_fraction t2 with
        | Some (fs, t3) =>
            match scan_exponent t3 with
            | Some (e, t4) =>
                match number_value neg (N.of_uint u) fs e with
                | Some v => Some (v, t4)
                | None => None
                end
            | None => None
            end
        | None => None
        end
  end.

Definition scan_number (t : text) : option (pyval * text) :=
  match t with
  | c :: r => if Ascii.eqb c "-" then scan_unsigned true r else scan_unsigned false t
  | [] => None
  end.

Definition scan_literal (t : text) : option (pyval * text) :=
  match strip_prefix (chars "null") t with
  | Some r => Some (PyNone, r)
  | None =>
  match strip_prefix (chars "true") t with
  | Some r => Some (PyBool true, r)
  | None =>
  match strip_prefix (chars "false") t with
  | Some r => Some (PyBool false, r)
  | None =>
  match strip_prefix (chars "NaN") t with
  | Some r => Some (PyFloat FNan, r)
  | None =>
  match strip_prefix (chars "Infinity") t with
  | Some r => Some (PyFloat (FInf false), r)
  | None =>
  match strip_prefix (chars "-Infinity") t with
  | Some r => Some (PyFloat (FInf true), r)
  | None => scan_number t
  end end end end end end.

Fixpoint parse_val (fuel : nat) (t : text) {struct fuel} : option (pyval * text) :=
  match fuel with
  | O => None
  | S fuel' =>
      match skip_ws t with
      | [] => None
      | c :: r =>
          if Ascii.eqb c dquote then
            match scan_string r with
            | Some (s, r') => Some (PyStr (str s), r')
            | None => None
            end
          else if Ascii.eqb c "[" then
            match expect "]" (skip_ws r) with
            | Some r' => Some (PyList [], r')
            | None => parse_elems fuel' r []
            end
          else if Ascii.eqb c "{" then
            match expect "}" (skip_ws r) with
            | Some r' => Some (PyDict [], r')
            | None => parse_members fuel' r []
            end
          else scan_literal (c :: r)
      end
  end
with parse_elems (fuel : nat) (t : text) (acc : list pyval) {struct fuel} :
  option (pyval * text) :=
  match fuel with
  | O => None
  | S fuel' =>
      match parse_val fuel' t with
      | Some (v, r) =>
          match skip_ws r with
          | c :: r' =>
              if Ascii.eqb c "," then parse_elems fuel' r' (v :: acc)
              else if Ascii.eqb c "]" then Some (PyList (rev (v :: acc)), r')
              else None
          | [] => None
          end
      | None => None
      end
  end
with parse_members (fuel : nat) (t : text) (acc : pydict) {struct fuel} :
  option (pyval * text) :=
  match fuel with
  | O => None
  | S fuel' =>
      match expect dquote (skip_ws t) with
      | Some r =>
          match scan_string r with
          | Some (k, r1) =>
              match expect ":" (skip_ws r1) with
              | Some r2 =>
                  match parse_val fuel' r2 with
                  | Some (v, r3) =>
                      match skip_ws r3 with
                      | c :: r4 =>
                          if Ascii.eqb c "," then
                            parse_members fuel' r4 (dict_set (str k) v acc)
                          else if Ascii.eqb c "}" then
                            Some (PyDict (dict_set (str k) v acc), r4)
                          else None
                      | [] => None
                      end
                  | None => None
                  end
              | None => None
              end
          | None => None
          end
      | None => None
      end
  end.

Definition json_loads (s : string) : option pyval :=
  let t := chars s in
  match parse_val (S (length t)) t with
  | Some (v, r) => match skip_ws r with [] => Some v | _ => None end
  | None => None
  end.

(** ** What a call does besides returning *)

(** A call returns, raises, or is still running when the fuel given to
    its loop is spent. *)
Inductive outcome (A : Type) : Type :=
| Done (a : A)
| Raised (exn : string)
| Running.
Arguments Done {A} a.
Arguments Raised {A} exn.
Arguments Running {A}.

(** ** [blockchain/core.py] *)

Module Core.

Record Block : Type := mkBlock {
  index : Z;
  timestamp : pyfloat;
  transactions : list pydict;
  previous_hash : string;
  nonce : Z;
  hash : string
}.

Definition with_nonce (b : Block) (n : Z) : Block :=
  mkBlock (index b) (timestamp b) (transactions b) (previous_hash b) n (hash b).
Definition with_hash (b : Block) (h : string) : Block :=
  mkBlock (index b) (timestamp b) (transactions b) (previous_hash b) (nonce b) h.
Definition with_transactions (b : Block) (txs : list pydict) : Block :=
  mkBlock (index b) (timestamp b) txs (previous_hash b) (nonce b) (hash b).

(** [Block.calculate_hash]: the five fields, keys sorted, hashed. *)
Definition block_string (b : Block) : string :=
  json_dumps true
    (PyDict [("index", PyInt (index b));
             ("timestamp", PyFloat (timestamp b));
             ("transactions", PyList (map PyDict (transactions b)));
             ("previous_hash", PyStr (previous_hash b));
             ("nonce", PyInt (nonce b))]).

Definition calculate_hash (b : Block) : string :=
  Sha256.hexdigest (block_string b).

(** [Block(index, timestamp, transactions, previous_hash)]: the nonce
    defaults to 0 and [__post_init__] sets the hash. *)
Definition new_block (i : Z) (ts : pyfloat) (txs : list pydict) (prev : string) : Block :=
  let b := mkBlock i ts txs prev 0 EmptyString in
  with_hash b (calculate_hash b).

Record BlockchainManager : Type := mkManager {
  chain : list Block;
  pending_transactions : list pydict;
  difficulty : Z;
  mining_reward : pyfloat
}.

Definition with_chain (st : BlockchainManager) (c : list Block) : BlockchainManager :=
  mkManager c (pending_transactions st) (difficulty st) (mining_reward st).
Definition with_pending (st : BlockchainManager) (p : list pydict) : BlockchainManager :=
  mkManager (chain st) p (difficulty st) (mining_reward st).

Definition create_genesis_block (now : pyfloat) (st : BlockchainManager) : BlockchainManager :=
  with_chain st (chain st ++ [new_block 0 now [] "0"]).

(** [BlockchainManager(difficulty)]; the clock is read once, for the
    genesis block. The auto-mining task it starts is [auto_mine_tick]. *)
Definition init (d : Z) (now : pyfloat) : BlockchainManager :=
  create_genesis_block now (mkManager [] [] d (FFin 1000000)).

(** [record_transaction(transaction)]: [data] is the attribute dict of the
    argument, [new_id] the fresh [uuid4()], [now] the clock. *)
Definition record_of (data : pydict) (new_id : string) (now : pyfloat) : pydict :=
  [("id", PyStr new_id); ("timestamp", PyFloat now); ("data", PyDict data)].

Definition record_transaction (data : pydict) (new_id : string) (now : pyfloat)
    (st : BlockchainManager) : BlockchainManager * string :=
  (with_pending st (pending_transactions st ++ [record_of data new_id now]), new_id).

Definition update_of (data : pydict) (new_id : string) (now : pyfloat) : pydict :=
  [("id", PyStr new_id); ("timestamp", PyFloat now); ("type", PyStr "update");
   ("data", PyDict data)].

Definition update_transaction (data : pydict) (new_id : string) (now : pyfloat)
    (st : BlockchainManager) : BlockchainManager :=
  with_pending st (pending_transactions st ++ [update_of data new_id now]).

(** [self.chain[-1]] *)
Definition get_latest_block (st : BlockchainManager) : option Block := last (chain st).

(** ["0" * difficulty]: empty when the count is not positive. *)
Definition zeros (d : Z) : string := str (repeat "0"%char (Z.to_nat d)).

(** [block.hash.startswith("0" * difficulty)] *)
Definition meets_target (d : Z) (b : Block) : bool := String.prefix (zeros d) (hash b).

(** One pass of the body of the search loop. *)
Definition bump (b : Block) : Block :=
  let b' := with_nonce b (nonce b + 1) in
  with_hash b' (calculate_hash b').

(** [while not block.hash.startswith(...)]: the loop, [None] when the
    fuel is spent before the target is met. *)
Fixpoint search (fuel : nat) (d : Z) (b : Block) : option Block :=
  if meets_target d b then Some b
  else match fuel with
       | O => None
       | S fuel' => search fuel' d (bump b)
       end.

Definition reward_of (miner_address : string) (st : BlockchainManager) : pydict :=
  [("from", PyStr "network"); ("to", PyStr miner_address);
   ("amount", PyFloat (mining_reward st))].

Definition draft_block (now : pyfloat) (latest : Block) (st : BlockchainManager) : Block :=
  new_block (Z.of_nat (length (chain st))) now (pending_transactions st) (hash latest).

Definition seal (miner_address : string) (b : Block) (st : BlockchainManager) :
  BlockchainManager :=
  with_pending (with_chain st (chain st ++ [b])) [reward_of miner_address st].

Definition mine_block (fuel : nat) (miner_address : string) (now : pyfloat)
    (st : BlockchainManager) : outcome (option Block * BlockchainManager) :=
  match pending_transactions st with
  | [] => Done (None, st)
  | _ :: _ =>
      match get_latest_block st with
      | None => Raised "IndexError"
      | Some latest =>
          match search fuel (difficulty st) (draft_block now latest st) with
          | None => Running
          | Some b => Done (Some b, seal miner_address b st)
          end
      end
  end.

(** [is_chain_valid]: every block from index 1 on is checked against its
    recomputed hash and its predecessor's stored hash; the first failure
    returns false. *)
Definition block_ok (c : list Block) (i : nat) : bool :=
  match c !! i, c !! (i - 1)%nat with
  | Some current_block, Some previous_block =>
      if negb (String.eqb (hash current_block) (calculate_hash current_block)) then false
      else if negb (String.eqb (previous_hash current_block) (hash previous_block)) then false
      else true
  | _, _ => true
  end.

Definition is_chain_valid (st : BlockchainManager) : bool :=
  forallb (block_ok (chain st)) (seq 1 (length (chain st) - 1)).

(** [get_transaction_history]: [not transaction_id] also holds for the
    empty string. *)
Definition id_matches (transaction_id : option string) (tx : pydict) : bool :=
  match transaction_id with
  | None | Some EmptyString => true
  | Some i => match dict_get "id" tx with
              | Some v => py_eq v (PyStr i)
              | None => false
              end
  end.

Definition get_transaction_history (transaction_id : option string)
    (st : BlockchainManager) : list (Z * pyfloat * pydict) :=
  flat_map (fun b => map (fun tx => (index b, timestamp b, tx))
                         (filter (fun tx => id_matches transaction_id tx = true) (transactions b)))
           (chain st).

(** One wake-up of [_mine_pending_transactions]. *)
Definition auto_mine_tick (fuel : nat) (now : pyfloat) (st : BlockchainManager) :
  outcome BlockchainManager :=
  if (5 <=? length (pending_transactions st))%nat then
    match mine_block fuel "system" now st with
    | Done (_, st') => Done st'
    | Raised e => Raised e
    | Running => Running
    end
  else Done st.

(** *** Histories and tampering *)

(** A manager as the constructor, [record_transaction] and [mine_block]
    leave it. *)
Inductive reachable : BlockchainManager -> Prop :=
| reach_init d now : reachable (init d now)
| reach_record st data new_id now :
    reachable st -> reachable (fst (record_transaction data new_id now st))
| reach_mine st fuel miner now res st' :
    reachable st -> mine_block fuel miner now st = Done (res, st') -> reachable st'.

(** [chain[i].transactions = txs]: the stored hash is left as it was. *)
Definition tamper (i : nat) (txs : list pydict) (st : BlockchainManager) : BlockchainManager :=
  with_chain st (alter (fun b => with_transactions b txs) i (chain st)).

(** [chain[i].transactions[j][k] = v] *)
Definition set_field (i j : nat) (k : string) (v : pyval) (st : BlockchainManager) :
  BlockchainManager :=
  match chain st !! i with
  | Some b => tamper i (alter (dict_set k v) j (transactions b)) st
  | None => st
  end.

End Core.

(** ** [blockchain/contracts.py] (the states) and [blockchain/validation.py] *)

Module Validation.

Inductive ContractState : Type :=
| PENDING | ACTIVE | COMPLETED | CANCELLED | DISPUTED.

#[global] Instance ContractState_eq_dec : EqDecision ContractState.
Proof. solve_decision. Defined.

Definition state_code (s : ContractState) : nat :=
  match s with
  | PENDING => 1 | ACTIVE => 2 | COMPLETED => 3 | CANCELLED => 4 | DISPUTED => 5
  end.

Definition state_of_code (n : nat) : option ContractState :=
  match n with
  | 1 => Some PENDING | 2 => Some ACTIVE | 3 => Some COMPLETED
  | 4 => Some CANCELLED | 5 => Some DISPUTED | _ => None
  end%nat.

#[global] Instance ContractState_countable : Countable ContractState.
Proof.
  apply (inj_countable state_code state_of_code). intros []; reflexivity.
Defined.

(** [StateValidator.valid_state_transitions] *)
Definition valid_state_transitions (s : ContractState) : gset ContractState :=
  match s with
  | PENDING => {[ACTIVE; CANCELLED]}
  | ACTIVE => {[COMPLETED; DISPUTED]}
  | DISPUTED => {[COMPLETED; CANCELLED]}
  | COMPLETED => ∅
  | CANCELLED => ∅
  end.

Definition validate_state_transition (current_state new_state : ContractState) : bool :=
  bool_decide (new_state ∈ valid_state_transitions current_state).

(** [TransactionValidator.required_fields["transaction"]] *)
Definition transaction_fields : list string := ["id"; "timestamp"; "type"; "data"].

(** [_check_required_fields] *)
Definition check_required_fields (data : pydict) (required : list string) : bool :=
  forallb (fun field => dict_mem field data) required.

(** [validate_transaction]; [now] is the clock. [isinstance(x, (int,
    float))] also holds for a [bool]. A record that is not a dict has no
    verdict here ([field in data] means something else, or raises). *)
Definition validate_transaction (now : pyfloat) (transaction : pyval) : option bool :=
  match transaction with
  | PyDict d =>
      if negb (check_required_fields d transaction_fields) then Some false
      else
        match dict_get "timestamp" d with
        | Some ts =>
            match ts, num_of ts with
            | (PyInt _ | PyFloat _ | PyBool _), Some x =>
                if float_ltb now x then Some false else Some true
            | _, _ => Some false
            end
        | None => None
        end
  | _ => None
  end.

Definition block_fields : list string :=
  ["index"; "timestamp"; "transactions"; "previous_hash"; "nonce"; "hash"].

(** [_validate_block_structure] *)
Definition validate_block_structure (block : pydict) : bool :=
  forallb (fun field => dict_mem field block) block_fields.

Definition item (k : string) (d : pydict) : pyval :=
  match dict_get k d with Some v => v | None => PyNone end.

(** [_validate_block_hash] *)
Definition validate_block_hash (difficulty : Z) (block : pydict) : bool :=
  let block_data :=
    PyDict [("index", item "index" block);
            ("timestamp", item "timestamp" block);
            ("transactions", item "transactions" block);
            ("previous_hash", item "previous_hash" block);
            ("nonce", item "nonce" block)] in
  let calculated_hash := Sha256.hexdigest (json_dumps true block_data) in
  match item "hash" block with
  | PyStr h => String.eqb h calculated_hash && String.prefix (Core.zeros difficulty) h
  | _ => false
  end.

(** The loop over [block["transactions"]]: the first transaction that
    fails returns false. *)
Fixpoint validate_all (now : pyfloat) (txs : list pyval) : option bool :=
  match txs with
  | [] => Some true
  | tx :: rest =>
      match validate_transaction now tx with
      | Some true => validate_all now rest
      | r => r
      end
  end.

(** [ChainValidator.validate_block] *)
Definition validate_block (difficulty : Z) (now : pyfloat) (block : pydict)
    (previous_hash : string) : option bool :=
  if negb (validate_block_structure block) then Some false
  else if negb (py_eq (item "previous_hash" block) (PyStr previous_hash)) then Some false
  else if negb (validate_block_hash difficulty block) then Some false
  else
    match item "transactions" block with
    | PyList txs | PyTuple txs => validate_all now txs
    | _ => None
    end.

(** The other half of [validate_block], with the expected hash as
    [validate_chain] passes it: whatever [previous_block["hash"]] holds. *)
Definition validate_block_against (difficulty : Z) (now : pyfloat) (block : pydict)
    (previous_hash : pyval) : option bool :=
  if negb (validate_block_structure block) then Some false
  else if negb (py_eq (item "previous_hash" block) previous_hash) then Some false
  else if negb (validate_block_hash difficulty block) then Some false
  else
    match item "transactions" block with
    | PyList txs | PyTuple txs => validate_all now txs
    | _ => None
    end.

(** [d[k]] as a number; nothing when the key is missing ([KeyError]) or
    the value is no number. *)
Definition num_item (k : string) (d : pydict) : option pyfloat :=
  match dict_get k d with
  | Some v => num_of v
  | None => None
  end.

Definition float_leb (x y : pyfloat) : bool := float_ltb x y || float_eqb x y.

(** [previous["index"] + 1]. On an [int] the sum is exact. On a
    [float] it is rounded: it is the float of the whole number above
    when the index is a whole number and both lie below 2^33, where no
    rounding takes place; an infinity and not-a-number stay as they are;
    for another float the embedding does not say what the sum is. A
    value that is no number raises. *)
Definition index_succ (v : pyval) : option pyval :=
  match v with
  | PyInt z => Some (PyInt (z + 1))
  | PyBool b => Some (PyInt (if b then 2 else 1))
  | PyFloat (FFin m) =>
      if (m mod micro =? 0) && (Z.abs m <? float_range)
         && (Z.abs (m + micro) <? float_range)
      then Some (PyFloat (FFin (m + micro)))
      else None
  | PyFloat f => Some (PyFloat f)
  | _ => None
  end.

(** [_validate_block_sequence]. Timestamps that are no numbers compare
    otherwise, or raise, and have no verdict here. *)
Definition validate_block_sequence (current previous : pydict) : option bool :=
  match dict_get "index" current, dict_get "index" previous with
  | Some ci, Some pi =>
      match index_succ pi with
      | Some next =>
          if negb (py_eq ci next) then Some false
          else
            match num_item "timestamp" current, num_item "timestamp" previous with
            | Some ct, Some pt => if float_leb ct pt then Some false else Some true
            | _, _ => None
            end
      | None => None
      end
  | _, _ => None
  end.

(** [validate_chain]: the loop from index 1 on, pair by pair; the first
    pair that fails returns false. *)
Fixpoint validate_pairs (difficulty : Z) (now : pyfloat) (previous_block : pydict)
    (rest : list pydict) : option bool :=
  match rest with
  | [] => Some true
  | current_block :: rest' =>
      match dict_get "hash" previous_block with
      | None => None
      | Some previous_hash =>
          match validate_block_against difficulty now current_block previous_hash with
          | Some true =>
              match validate_block_sequence current_block previous_block with
              | Some true => validate_pairs difficulty now current_block rest'
              | r => r
              end
          | r => r
          end
      end
  end.

Definition validate_chain (difficulty : Z) (now : pyfloat) (chain : list pydict) :
  option bool :=
  match chain with
  | [] => Some true
  | first :: rest => validate_pairs difficulty now first rest
  end.

(** [TransactionValidator.required_fields["payment"]] *)
Definition payment_fields : list string := ["amount"; "sender"; "recipient"; "contract_id"].

(** [validate_payment]; [payment["amount"] <= 0] raises on an amount that
    is no number. *)
Definition validate_payment (payment : pydict) : option bool :=
  if negb (check_required_fields payment payment_fields) then Some false
  else
    match num_item "amount" payment with
    | Some amount =>
        if float_leb amount (FFin 0) then Some false
        else if py_eq (item "sender" payment) (item "recipient" payment) then Some false
        else Some true
    | None => None
    end.

End Validation.

(** ** [blockchain/contracts.py], and the validators of
    [blockchain/validation.py] that take a contract

    A [datetime] is held in microseconds since the epoch, its
    resolution: a naive local time is taken for the instant it names,
    which leaves out the hours that a change of clocks skips or repeats.
    [timestamp()] and [fromtimestamp()] go through a double. *)

Module Contracts.
Import Validation.

Record ServiceContract : Type := mkContract {
  contract_id : string;
  provider_id : string;
  consumer_id : string;
  service_type : string;
  terms : pydict;
  start_time : Z;
  end_time : option Z;
  state : ContractState;
  payment_amount : pyfloat;
  payment_status : string
}.

Definition with_state (c : ServiceContract) (s : ContractState) : ServiceContract :=
  mkContract (contract_id c) (provider_id c) (consumer_id c) (service_type c) (terms c)
             (start_time c) (end_time c) s (payment_amount c) (payment_status c).

Definition with_payment_status (c : ServiceContract) (p : string) : ServiceContract :=
  mkContract (contract_id c) (provider_id c) (consumer_id c) (service_type c) (terms c)
             (start_time c) (end_time c) (state c) (payment_amount c) p.

(** [state.name] and [ContractState[name]] *)
Definition state_name (s : ContractState) : string :=
  match s with
  | PENDING => "PENDING" | ACTIVE => "ACTIVE" | COMPLETED => "COMPLETED"
  | CANCELLED => "CANCELLED" | DISPUTED => "DISPUTED"
  end.


(** [datetime.timestamp()]: a double. Within [float_range] it is the
    float of the microseconds; beyond, a double is more than a
    microsecond from the next, and the embedding does not hold it. *)
Definition timestamp_of (t : Z) : option pyfloat :=
  if Z.abs t <? float_range then Some (FFin t) else None.

(** [ServiceContract.to_dict]; nothing when a time is one the embedding
    has no float for. *)
Definition to_dict (c : ServiceContract) : option pydict :=
  match timestamp_of (start_time c),
        match end_time c with
        | Some e => option_map PyFloat (timestamp_of e)
        | None => Some PyNone
        end with
  | Some start, Some finish =>
      Some [("contract_id", PyStr (contract_id c));
            ("provider_id", PyStr (provider_id c));
            ("consumer_id", PyStr (consumer_id c));
            ("service_type", PyStr (service_type c));
            ("terms", PyDict (terms c));
            ("start_time", PyFloat start);
            ("end_time", finish);
            ("state", PyStr (state_name (state c)));
            ("payment_amount", PyFloat (payment_amount c));
            ("payment_status", PyStr (payment_status c))]
  | _, _ => None
  end.






(** An entry of [SmartContract.events]: a state change or a payment. *)
Inductive Event : Type :=
| StateChange (timestamp : Z) (old_state new_state : string) (metadata : pydict)
| Payment (timestamp : Z) (amount : pyfloat) (metadata : pydict).

Record SmartContract : Type := mkSmart {
  contract : ServiceContract;
  events : list Event
}.

(** [SmartContract(contract)] *)
Definition new_smart (c : ServiceContract) : SmartContract := mkSmart c [].

(** The table inside [SmartContract.validate_transition]. *)
Definition valid_transitions (s : ContractState) : gset ContractState :=
  match s with
  | PENDING => {[ACTIVE; CANCELLED]}
  | ACTIVE => {[COMPLETED; DISPUTED]}
  | DISPUTED => {[COMPLETED; CANCELLED]}
  | COMPLETED => ∅
  | CANCELLED => ∅
  end.

Definition validate_transition (sc : SmartContract) (new_state : ContractState) : bool :=
  bool_decide (new_state ∈ valid_transitions (state (contract sc))).

(** [update_state]: the state is set before the event is built, so the
    event reads its old state off the contract that already has the new
    one. *)
Definition update_state (now : Z) (new_state : ContractState) (metadata : pydict)
    (sc : SmartContract) : bool * SmartContract :=
  if negb (validate_transition sc new_state) then (false, sc)
  else
    let c := with_state (contract sc) new_state in
    (true,
     mkSmart c (events sc ++
                [StateChange now (state_name (state c)) (state_name new_state) metadata])).

(** [process_payment] *)
Definition process_payment (now : Z) (amount : pyfloat) (metadata : pydict)
    (sc : SmartContract) : bool * SmartContract :=
  if negb (float_eqb amount (payment_amount (contract sc))) then (false, sc)
  else
    (true,
     mkSmart (with_payment_status (contract sc) "completed")
             (events sc ++ [Payment now amount metadata])).

Definition get_events (sc : SmartContract) : list Event := events sc.

(** [verify_completion] *)
Definition verify_completion (now : Z) (sc : SmartContract) : bool :=
  bool_decide (state (contract sc) = COMPLETED)
  && String.eqb (payment_status (contract sc)) "completed"
  && match end_time (contract sc) with
     | None => true
     | Some e => e <=? now
     end.

(** [TransactionValidator.required_fields["contract"]] *)
Definition contract_fields : list string :=
  ["contract_id"; "provider_id"; "consumer_id"; "service_type"; "terms"].

(** [TransactionValidator.validate_contract]; no verdict when
    [to_dict] has none. *)
Definition validate_contract (now : Z) (c : ServiceContract) : option bool :=
  match to_dict c with
  | None => None
  | Some contract_dict =>
      Some
        (if negb (check_required_fields contract_dict contract_fields) then false
         else if now <? start_time c then false
         else if match end_time c with Some e => e <=? start_time c | None => false end
              then false
         else if float_ltb (payment_amount c) (FFin 0) then false
         else true)
  end.

(** [StateValidator.validate_contract_state] *)
Definition validate_contract_state (now : Z) (c : ServiceContract) : bool :=
  if bool_decide (state c = COMPLETED)
     && match end_time c with Some e => now <? e | None => true end
  then false
  else if bool_decide (state c = ACTIVE)
          && match end_time c with Some e => e <? now | None => false end
  then false
  else true.

End Contracts.

(** ** [communication/protocol.py] *)

Module Protocol.

Inductive MessageType : Type :=
| REQUEST | RESPONSE | EVENT | ERROR | HEARTBEAT.

#[global] Instance MessageType_eq_dec : EqDecision MessageType.
Proof. solve_decision. Defined.

(** [type.name] and [MessageType[name]] *)
Definition type_name (t : MessageType) : string :=
  match t with
  | REQUEST => "REQUEST" | RESPONSE => "RESPONSE" | EVENT => "EVENT"
  | ERROR => "ERROR" | HEARTBEAT => "HEARTBEAT"
  end.

Definition type_of_name (s : string) : option MessageType :=
  if String.eqb s "REQUEST" then Some REQUEST
  else if String.eqb s "RESPONSE" then Some RESPONSE
  else if String.eqb s "EVENT" then Some EVENT
  else if String.eqb s "ERROR" then Some ERROR
  else if String.eqb s "HEARTBEAT" then Some HEARTBEAT
  else None.

Record Message : Type := mkMessage {
  id : string;
  type : MessageType;
  sender : string;
  recipient : string;
  content : pydict;
  timestamp : pyfloat;
  correlation_id : option string
}.

(** [Message.create]: [new_id] is the fresh [uuid4()], [now] the clock. *)
Definition create (new_id : string) (now : pyfloat) (msg_type : MessageType)
    (sender recipient : string) (content : pydict) (correlation_id : option string) :
  Message :=
  mkMessage new_id msg_type sender recipient content now correlation_id.

Definition opt_str (o : option string) : pyval :=
  match o with Some s => PyStr s | None => PyNone end.

Definition to_json (m : Message) : string :=
  json_dumps false
    (PyDict [("id", PyStr (id m));
             ("type", PyStr (type_name (type m)));
             ("sender", PyStr (sender m));
             ("recipient", PyStr (recipient m));
             ("content", PyDict (content m));
             ("timestamp", PyFloat (timestamp m));
             ("correlation_id", opt_str (correlation_id m))]).

(** [Message.from_json]: the decoded object with its type looked up by
    name, given to the constructor by keyword. The constructor takes the
    seven field names and no other, [correlation_id] may be left out. A
    field whose value is not of the annotated type gives no [Message]
    here (Python would build one that breaks its annotations). *)
Definition field_names : list string :=
  ["id"; "type"; "sender"; "recipient"; "content"; "timestamp"; "correlation_id"].

Definition from_json (json_str : string) : option Message :=
  match json_loads json_str with
  | Some (PyDict data) =>
      if negb (forallb (fun kv => existsb (String.eqb (fst kv)) field_names) data)
      then None
      else
        match dict_get "id" data, dict_get "type" data, dict_get "sender" data,
              dict_get "recipient" data, dict_get "content" data,
              dict_get "timestamp" data with
        | Some (PyStr i), Some (PyStr tn), Some (PyStr s), Some (PyStr r),
          Some (PyDict c), Some (PyFloat ts) =>
            match type_of_name tn, dict_get "correlation_id" data with
            | Some t, None | Some t, Some PyNone => Some (mkMessage i t s r c ts None)
            | Some t, Some (PyStr cid) => Some (mkMessage i t s r c ts (Some cid))
            | _, _ => None
            end
        | _, _, _, _, _, _ => None
        end
  | _ => None
  end.

(** The [==] of the dataclass: field by field. *)
Definition message_eq (a b : Message) : bool :=
  String.eqb (id a) (id b)
  && bool_decide (type a = type b)
  && String.eqb (sender a) (sender b)
  && String.eqb (recipient a) (recipient b)
  && py_eq (PyDict (content a)) (PyDict (content b))
  && float_eqb (timestamp a) (timestamp b)
  && py_eq (opt_str (correlation_id a)) (opt_str (correlation_id b)).

(** The five handlers of [ProtocolHandler]. *)
Definition handle_request (new_id : string) (now : pyfloat) (message : Message) : Message :=
  create new_id now RESPONSE (recipient message) (sender message)
         [("status", PyStr "received")] (Some (id message)).

Definition handle_error (new_id : string) (now : pyfloat) (message : Message) : Message :=
  create new_id now ERROR (recipient message) (sender message)
         [("error", PyStr "Error processed")] (Some (id message)).

Definition handle_heartbeat (new_id : string) (now : pyfloat) (message : Message) : Message :=
  create new_id now HEARTBEAT (recipient message) (sender message)
         [("status", PyStr "alive")] (Some (id message)).

(** [ProtocolHandler.message_handlers.get(message.type)] *)
Definition message_handlers (t : MessageType) :
  option (string -> pyfloat -> Message -> option Message) :=
  match t with
  | REQUEST => Some (fun i n m => Some (handle_request i n m))
  | RESPONSE => Some (fun _ _ _ => None)
  | EVENT => Some (fun _ _ _ => None)
  | ERROR => Some (fun i n m => Some (handle_error i n m))
  | HEARTBEAT => Some (fun i n m => Some (handle_heartbeat i n m))
  end.

Definition handle_message (new_id : string) (now : pyfloat) (message : Message) :
  option Message :=
  match message_handlers (type message) with
  | Some handler => handler new_id now message
  | None => None
  end.

End Protocol.

(** ** [communication/messaging.py] *)

Module Messaging.
Import Protocol.

(** The broker, without its callbacks: the queue and the histories. *)
Record MessageBroker : Type := mkBroker {
  message_queue : list Message;
  message_history : gmap string (list Message)
}.

Definition new_broker : MessageBroker := mkBroker [] ∅.

(** [publish]: enqueue, then append to the sender's history. *)
Definition publish (message : Message) (b : MessageBroker) : MessageBroker :=
  mkBroker (message_queue b ++ [message])
           (<[sender message := default [] (message_history b !! sender message) ++ [message]]>
              (message_history b)).

(** An optional bound counts when it is there and not zero. *)
Definition bound_set (o : option pyfloat) : bool :=
  match o with Some x => float_truthy x | None => false end.

Definition before (start_time : option pyfloat) (m : Message) : bool :=
  match start_time with
  | Some s => float_truthy s && float_ltb (timestamp m) s
  | None => false
  end.

Definition after (end_time : option pyfloat) (m : Message) : bool :=
  match end_time with
  | Some e => float_truthy e && float_ltb e (timestamp m)
  | None => false
  end.

Fixpoint keep_between (start_time end_time : option pyfloat) (messages : list Message) :
  list Message :=
  match messages with
  | [] => []
  | message :: rest =>
      if before start_time message then keep_between start_time end_time rest
      else if after end_time message then keep_between start_time end_time rest
      else message :: keep_between start_time end_time rest
  end.

Definition get_message_history (agent_id : string) (start_time end_time : option pyfloat)
    (b : MessageBroker) : list Message :=
  let messages := default [] (message_history b !! agent_id) in
  if negb (bound_set start_time || bound_set end_time) then messages
  else keep_between start_time end_time messages.

(** What the history query is to return: a bound that is given filters,
    whatever its value. *)
Definition in_bounds (start_time end_time : option pyfloat) (m : Message) : bool :=
  negb (match start_time with Some s => float_ltb (timestamp m) s | None => false end)
  && negb (match end_time with Some e => float_ltb e (timestamp m) | None => false end).

Definition history_between (agent_id : string) (start_time end_time : option pyfloat)
    (b : MessageBroker) : list Message :=
  List.filter (in_bounds start_time end_time)
              (default [] (message_history b !! agent_id)).

(** An [asyncio.Future]. *)
Inductive future : Type :=
| Waiting
| Resolved (result : Message)
| Cancelled.

Definition done (f : future) : bool :=
  match f with Waiting => false | _ => true end.

Record MessageHandler : Type := mkHandler {
  agent_id : string;
  pending_requests : gmap string future
}.

Definition new_handler (agent : string) : MessageHandler := mkHandler agent ∅.

(** [send_request] up to its wait: the request is created, its slot is
    registered and the request is published. *)
Definition send_request_begin (new_id : string) (now : pyfloat) (recipient : string)
    (content : pydict) (h : MessageHandler) (b : MessageBroker) :
  Message * MessageHandler * MessageBroker :=
  let message := create new_id now REQUEST (agent_id h) recipient content None in
  (message,
   mkHandler (agent_id h) (<[id message := Waiting]> (pending_requests h)),
   publish message b).

(** [send_request] from the end of its wait: [wait_for] gives the result
    of a future that was resolved in time and raises [TimeoutError]
    otherwise, which returns [None]; the [finally] clause pops the slot
    either way. *)
Definition send_request_end (message : Message) (h : MessageHandler) :
  option Message * MessageHandler :=
  let result :=
    match pending_requests h !! id message with
    | Some (Resolved r) => Some r
    | _ => None
    end in
  (result, mkHandler (agent_id h) (delete (id message) (pending_requests h))).

(** [MessageHandler._handle_request] *)
Definition handle_request (new_id : string) (now : pyfloat) (h : MessageHandler)
    (message : Message) : Message :=
  create new_id now RESPONSE (agent_id h) (sender message)
         [("status", PyStr "processed")] (Some (id message)).

(** [MessageHandler.handle_message] *)
Definition resolve (message : Message) (h : MessageHandler) : MessageHandler :=
  match correlation_id message with
  | Some cid =>
      match pending_requests h !! cid with
      | Some f =>
          if negb (done f)
          then mkHandler (agent_id h) (<[cid := Resolved message]> (pending_requests h))
          else h
      | None => h
      end
  | None => h
  end.

Definition handle_message (new_id : string) (now : pyfloat) (message : Message)
    (h : MessageHandler) (b : MessageBroker) : MessageHandler * MessageBroker :=
  let h' := resolve message h in
  if bool_decide (type message = REQUEST)
  then (h', publish (handle_request new_id now h' message) b)
  else (h', b).

(** The broker's [subscribers]: the topics in the order they came, each
    with its callbacks in the order they were registered. A callback
    stands for a function object, told apart as Python tells it. *)
Section Subscribers.
Context {callback : Type} `{EqDecision callback}.

Abbreviation subscribers := (list (string * list callback)).

(** [subscribe]: [self.subscribers[topic].append(callback)] on a
    [defaultdict(list)]. *)
Fixpoint subscribe (topic : string) (cb : callback) (subs : subscribers) : subscribers :=
  match subs with
  | [] => [(topic, [cb])]
  | (t, cbs) :: subs' =>
      if String.eqb t topic then (t, cbs ++ [cb]) :: subs'
      else (t, cbs) :: subscribe topic cb subs'
  end.

(** [list.remove]: the first occurrence goes; [None] is [ValueError]. *)
Fixpoint list_remove (cb : callback) (cbs : list callback) : option (list callback) :=
  match cbs with
  | [] => None
  | c :: cbs' =>
      if decide (c = cb) then Some cbs'
      else option_map (cons c) (list_remove cb cbs')
  end.

(** [unsubscribe] *)
Fixpoint unsubscribe (topic : string) (cb : callback) (subs : subscribers) :
  outcome subscribers :=
  match subs with
  | [] => Done []
  | (t, cbs) :: subs' =>
      if String.eqb t topic then
        match list_remove cb cbs with
        | None => Raised "ValueError"
        | Some [] => Done subs'
        | Some cbs' => Done ((t, cbs') :: subs')
        end
      else
        match unsubscribe topic cb subs' with
        | Done subs'' => Done ((t, cbs) :: subs'')
        | Raised e => Raised e
        | Running => Running
        end
  end.

(** [_notify_subscribers]: the callbacks a task is made for, in order. *)
Definition notified (subs : subscribers) (message : Message) : list callback :=
  flat_map (fun tc => if String.eqb (fst tc) (recipient message) || String.eqb (fst tc) "*"
                      then snd tc else [])
           subs.

End Subscribers.

(** One turn of [_process_queue]: the envelope at the head of the queue
    is taken, the protocol handler's reply to it, if any, is published,
    and the envelope is the one its subscribers are notified of. With an
    empty queue the loop waits. *)
Definition process_one (new_id : string) (now : pyfloat) (b : MessageBroker) :
  option (Message * MessageBroker) :=
  match message_queue b with
  | [] => None
  | message :: queue =>
      let b' := mkBroker queue (message_history b) in
      match Protocol.handle_message new_id now message with
      | Some response => Some (message, publish response b')
      | None => Some (message, b')
      end
  end.

End Messaging.

(** ** [communication/networking.py]: frames

    A stream is the bytes still to come until it ends. *)

Module Networking.
Import Protocol.

Abbreviation bytes := (list N).

(** [str.encode()]: UTF-8, one byte below code point 128 and two from
    there to 255. *)
Definition encode_char (c : ascii) : bytes :=
  let n := code c in
  if (n <? 128)%N then [n]
  else [N.lor 0xC0 (N.shiftr n 6); N.lor 0x80 (N.land n 0x3F)].

Definition encode (s : string) : bytes := flat_map encode_char (chars s).

(** [bytes.decode()]. A sequence that is not UTF-8 raises; one for a
    code point above 255 stands for a character the embedding does not
    hold, and is refused with it. *)
Fixpoint decode_bytes (data : bytes) : option text :=
  match data with
  | [] => Some []
  | b :: rest =>
      if (b <? 128)%N then option_map (cons (ascii_of_N b)) (decode_bytes rest)
      else if ((b =? 0xC2) || (b =? 0xC3))%N then
        match rest with
        | b2 :: rest' =>
            if ((128 <=? b2) && (b2 <? 192))%N
            then option_map (cons (ascii_of_N (64 * (b - 0xC0) + (b2 - 128))))
                            (decode_bytes rest')
            else None
        | [] => None
        end
      else None
  end.

Definition decode (data : bytes) : option string := option_map str (decode_bytes data).

(** [int.from_bytes(b, 'big')] *)
Definition from_bytes (b : bytes) : N := fold_left (fun n x => (256 * n + x)%N) b 0%N.

(** [_send_message]: what is written; [to_bytes(4, 'big')] raises when
    the length does not fit. *)
Definition send_message (message : Message) : outcome bytes :=
  let message_data := encode (to_json message) in
  let n := N.of_nat (length message_data) in
  if (n <? 2 ^ 32)%N then Done (Sha256.be_bytes 4 n ++ message_data)
  else Raised "OverflowError".

(** [readexactly(n)]: the bytes read and the stream left, or
    [IncompleteReadError] when the stream ends before. *)
Definition readexactly (n : N) (stream : bytes) : option (bytes * bytes) :=
  if (N.of_nat (length stream) <? n)%N then None
  else Some (firstn (N.to_nat n) stream, skipn (N.to_nat n) stream).

(** What [_receive_message] comes to: an envelope, with the stream left;
    [IncompleteReadError]; or a frame read in full whose payload gives no
    envelope ([decode] or [from_json] raises, or builds what the
    embedding does not hold). *)
Inductive received : Type :=
| Got (message : Message) (rest : bytes)
| Incomplete
| Undecoded (rest : bytes).

Definition receive_message (stream : bytes) : received :=
  match readexactly 4 stream with
  | Some (length_bytes, stream1) =>
      match readexactly (from_bytes length_bytes) stream1 with
      | Some (message_data, stream2) =>
          match decode message_data with
          | Some text =>
              match from_json text with
              | Some message => Got message stream2
              | None => Undecoded stream2
              end
          | None => Undecoded stream2
          end
      | None => Incomplete
      end
  | None => Incomplete
  end.

(** The loop of [_handle_peer_messages]: every envelope received is
    published, until the stream ends or a frame fails; the peer is
    disconnected either way. A frame takes four bytes at least, so the
    length of the stream bounds the turns. *)
Fixpoint publish_frames (turns : nat) (stream : bytes) (b : Messaging.MessageBroker) :
  Messaging.MessageBroker :=
  match turns with
  | O => b
  | S turns' =>
      match receive_message stream with
      | Got message rest => publish_frames turns' rest (Messaging.publish message b)
      | Incomplete | Undecoded _ => b
      end
  end.

Definition handle_peer_messages (stream : bytes) (b : Messaging.MessageBroker) :
  Messaging.MessageBroker :=
  publish_frames (length stream) stream b.

(** [_handle_connection]: the first envelope has to be a heartbeat; its
    sender is the peer the connection is kept under, and the rest of the
    stream goes to [_handle_peer_messages]. Nothing is kept otherwise. *)
Definition handle_connection (stream : bytes) : option (string * bytes) :=
  match receive_message stream with
  | Got hello rest =>
      if negb (bool_decide (type hello = HEARTBEAT)) then None
      else Some (sender hello, rest)
  | Incomplete | Undecoded _ => None
  end.

(** [_send_hello_message]: the envelope it sends. *)
Definition hello_message (new_id : string) (now : pyfloat) (node_id host : string)
    (port : Z) : Message :=
  create new_id now HEARTBEAT node_id "*" [("host", PyStr host); ("port", PyInt port)] None.

End Networking.

(** ** [mine_block] cut at its statements

    [mine_block] reads the pool into the draft block (lines 74-79),
    searches (lines 81-83) and then appends the block and resets the pool
    (lines 85-92). An event is one atomic piece of a call; a schedule is
    the order in which the pieces of the calls in progress run. One
    [mine_block] is in progress at a time. *)

Module Interleaving.
Import Core.

Record system : Type := mkSystem {
  manager : BlockchainManager;
  in_flight : option (string * Block)
}.

Inductive event : Type :=
| Record_tx (data : pydict) (new_id : string) (now : pyfloat)
| Mine_begin (miner_address : string) (now : pyfloat)
| Mine_step
| Mine_end.

Definition idle (st : BlockchainManager) : system := mkSystem st None.

Definition step (e : event) (s : system) : option system :=
  match e with
  | Record_tx data new_id now =>
      Some (mkSystem (fst (record_transaction data new_id now (manager s))) (in_flight s))
  | Mine_begin miner now =>
      match in_flight s, pending_transactions (manager s), get_latest_block (manager s) with
      | None, _ :: _, Some latest =>
          Some (mkSystem (manager s) (Some (miner, draft_block now latest (manager s))))
      | _, _, _ => None
      end
  | Mine_step =>
      match in_flight s with
      | Some (miner, b) =>
          if meets_target (difficulty (manager s)) b then None
          else Some (mkSystem (manager s) (Some (miner, bump b)))
      | None => None
      end
  | Mine_end =>
      match in_flight s with
      | Some (miner, b) =>
          if meets_target (difficulty (manager s)) b
          then Some (mkSystem (seal miner b (manager s)) None)
          else None
      | None => None
      end
  end.

Fixpoint run (es : list event) (s : system) : option system :=
  match es with
  | [] => Some s
  | e :: es' =>
      match step e s with
      | Some s' => run es' s'
      | None => None
      end
  end.

(** The records the schedule's [record_transaction] calls created. *)
Fixpoint recorded (es : list event) : list pydict :=
  match es with
  | [] => []
  | Record_tx data new_id now :: es' => record_of data new_id now :: recorded es'
  | _ :: es' => recorded es'
  end.

(** A record is held when it is in the pool or in a block of the chain. *)
Definition held (st : BlockchainManager) (r : pydict) : Prop :=
  In r (pending_transactions st) \/ exists b, In b (chain st) /\ In r (transactions b).

(** A schedule of one event loop: a coroutine runs up to its next
    [await], and [mine_block] has none, so nothing runs between its
    pieces. [mining] tells whether a [mine_block] is in progress. *)
Fixpoint cooperative (mining : bool) (es : list event) : bool :=
  match es with
  | [] => true
  | Record_tx _ _ _ :: es' => negb mining && cooperative mining es'
  | Mine_begin _ _ :: es' => negb mining && cooperative true es'
  | Mine_step :: es' => mining && cooperative mining es'
  | Mine_end :: es' => mining && cooperative false es'
  end.

End Interleaving.

(** * Properties *)

(** ** Contract states *)

Section StateTransitions.
Import Validation.

(** C9. [validate_state_transition] accepts exactly PENDING to ACTIVE or
    CANCELLED, ACTIVE to COMPLETED or DISPUTED, and DISPUTED to COMPLETED
    or CANCELLED; COMPLETED and CANCELLED have no way out, ACTIVE to
    PENDING is refused and ACTIVE to COMPLETED accepted. *)
Theorem validate_state_transition_table (current new : ContractState) :
  (validate_state_transition current new = true <->
   In (current, new)
      [(PENDING, ACTIVE); (PENDING, CANCELLED); (ACTIVE, COMPLETED);
       (ACTIVE, DISPUTED); (DISPUTED, COMPLETED); (DISPUTED, CANCELLED)])
  /\ validate_state_transition COMPLETED new = false
  /\ validate_state_transition CANCELLED new = false
  /\ validate_state_transition ACTIVE PENDING = false
  /\ validate_state_transition ACTIVE COMPLETED = true.
Proof.
  assert (T : forall c n, validate_state_transition c n =
            match c, n with
            | PENDING, ACTIVE | PENDING, CANCELLED | ACTIVE, COMPLETED
            | ACTIVE, DISPUTED | DISPUTED, COMPLETED | DISPUTED, CANCELLED => true
            | _, _ => false
            end) by (intros [] []; vm_compute; reflexivity).
  rewrite !T. split; [|destruct new; auto].
  destruct current, new; simpl; split; intros H; try reflexivity; try discriminate H;
    intuition congruence.
Qed.

End StateTransitions.

(** ** The protocol handler *)

Section ProtocolHandler.
Import Protocol.

(** C6. [handle_message] goes by the type of the envelope alone: a
    REQUEST gives a RESPONSE to its sender with status received, a
    RESPONSE or an EVENT gives nothing, an ERROR gives an ERROR, a
    HEARTBEAT a HEARTBEAT with status alive; whatever is given back carries
    the id of the envelope as its correlation id. *)
Theorem handle_message_dispatch (new_id : string) (now : pyfloat) (m : Message) :
  handle_message new_id now m =
    match type m with
    | REQUEST =>
        Some (mkMessage new_id RESPONSE (recipient m) (sender m)
                        [("status", PyStr "received")] now (Some (id m)))
    | RESPONSE | EVENT => None
    | ERROR =>
        Some (mkMessage new_id ERROR (recipient m) (sender m)
                        [("error", PyStr "Error processed")] now (Some (id m)))
    | HEARTBEAT =>
        Some (mkMessage new_id HEARTBEAT (recipient m) (sender m)
                        [("status", PyStr "alive")] now (Some (id m)))
    end
  /\ (forall reply, handle_message new_id now m = Some reply ->
        correlation_id reply = Some (id m) /\ recipient reply = sender m).
Proof.
  unfold handle_message. split.
  - destruct (type m); reflexivity.
  - intros reply. destruct (type m); simpl; intros H; inversion H; auto.
Qed.

End ProtocolHandler.

(** ** The broker's history and the request correlator *)

Section MessagingFacts.
Import Protocol Messaging.

Lemma keep_between_filter (start_time end_time : option pyfloat) (ms : list Message) :
  keep_between start_time end_time ms =
  List.filter (fun m => negb (before start_time m) && negb (after end_time m)) ms.
Proof.
  induction ms as [|m ms IH]; simpl; [reflexivity|].
  destruct (before start_time m); simpl; [exact IH|].
  destruct (after end_time m); simpl; [exact IH|]. now rewrite IH.
Qed.

Definition bound_nonzero (o : option pyfloat) : bool :=
  match o with Some x => float_truthy x | None => true end.

(** With no bound, or with bounds that are not zero, the query returns
    the sender's envelopes in publish order, but for those strictly
    before the start or strictly after the end. *)
Lemma get_message_history_nonzero (agent : string) (start_time end_time : option pyfloat)
    (b : MessageBroker) :
  bound_nonzero start_time = true -> bound_nonzero end_time = true ->
  get_message_history agent start_time end_time b =
  history_between agent start_time end_time b.
Proof.
  intros Hs He. unfold get_message_history, history_between.
  set (ms := default [] (message_history b !! agent)).
  assert (Hf : keep_between start_time end_time ms =
               List.filter (in_bounds start_time end_time) ms).
  { rewrite keep_between_filter. apply List.filter_ext. intros m.
    unfold before, after, in_bounds.
    destruct start_time as [s|], end_time as [e|]; simpl in *;
      rewrite ?Hs, ?He; reflexivity. }
  destruct (negb (bound_set start_time || bound_set end_time)) eqn:Hb; [|exact Hf].
  destruct start_time as [s|], end_time as [e|]; simpl in *;
    rewrite ?Hs, ?He in Hb; try discriminate Hb.
  clear. induction ms as [|m ms IH]; simpl; [reflexivity|]. now rewrite <- IH.
Qed.

(** C8, at an end bound of zero: the envelope of time 5 is strictly after
    the bound, and the query returns it all the same. *)
Example get_message_history_zero_bound :
  let m := mkMessage "m1" EVENT "agent1" "agent2" [] (FFin 5000000) None in
  let b := publish m new_broker in
  get_message_history "agent1" None (Some (FFin 0)) b = [m]
  /\ history_between "agent1" None (Some (FFin 0)) b = [].
Proof. split; vm_compute; reflexivity. Qed.

(** The envelopes that reach a handler, each with the id and the time its
    reply would take. *)
Definition deliver (incoming : list (string * pyfloat * Message))
    (hb : MessageHandler * MessageBroker) : MessageHandler * MessageBroker :=
  fold_left (fun hb e => handle_message (fst (fst e)) (snd (fst e)) (snd e) (fst hb) (snd hb))
            incoming hb.

Lemma resolve_other (m : Message) (h : MessageHandler) (k : string) :
  correlation_id m <> Some k ->
  pending_requests (resolve m h) !! k = pending_requests h !! k.
Proof.
  intros Hne. unfold resolve.
  destruct (correlation_id m) as [cid|]; [|reflexivity].
  destruct (pending_requests h !! cid) as [f|]; [|reflexivity].
  destruct (negb (done f)); [|reflexivity]. simpl.
  apply lookup_insert_ne. congruence.
Qed.

Lemma handle_message_pending (i : string) (n : pyfloat) (m : Message)
    (h : MessageHandler) (b : MessageBroker) :
  fst (handle_message i n m h b) = resolve m h.
Proof. unfold handle_message. destruct (bool_decide _); reflexivity. Qed.

Lemma deliver_other (incoming : list (string * pyfloat * Message))
    (h : MessageHandler) (b : MessageBroker) (k : string) :
  Forall (fun e => correlation_id (snd e) <> Some k) incoming ->
  pending_requests (fst (deliver incoming (h, b))) !! k = pending_requests h !! k.
Proof.
  revert h b. induction incoming as [|e es IH]; intros h b Hall; [reflexivity|].
  inversion Hall as [|? ? He Hes]; subst. unfold deliver; simpl.
  destruct (handle_message (fst (fst e)) (snd (fst e)) (snd e) h b) as [h' b'] eqn:Hh.
  change (pending_requests (fst (deliver es (h', b'))) !! k = pending_requests h !! k).
  rewrite IH by assumption.
  assert (h' = resolve (snd e) h) as ->.
  { rewrite <- (handle_message_pending (fst (fst e)) (snd (fst e)) (snd e) h b).
    now rewrite Hh. }
  now apply resolve_other.
Qed.

Lemma resolve_absent (m : Message) (h : MessageHandler) (k : string) :
  correlation_id m = Some k -> pending_requests h !! k = None -> resolve m h = h.
Proof. intros Hc Hk. unfold resolve. now rewrite Hc, Hk. Qed.

(** C7. A request that no envelope answers before the wait ends returns
    nothing and leaves no slot under its id; an envelope that carries the
    id afterwards finds no slot and resolves nothing. *)
Theorem send_request_timeout (new_id : string) (now : pyfloat) (to : string)
    (content : pydict) (h : MessageHandler) (b : MessageBroker)
    (incoming : list (string * pyfloat * Message)) :
  Forall (fun e => correlation_id (snd e) <> Some new_id) incoming ->
  let '(message, h1, b1) := send_request_begin new_id now to content h b in
  let '(h2, b2) := deliver incoming (h1, b1) in
  let '(result, h3) := send_request_end message h2 in
  pending_requests h1 !! id message = Some Waiting
  /\ result = None
  /\ pending_requests h3 !! id message = None
  /\ forall i n late b', correlation_id late = Some (id message) ->
       fst (handle_message i n late h3 b') = h3.
Proof.
  intros Hall. unfold send_request_begin. simpl.
  set (h1 := mkHandler (agent_id h) (<[new_id:=Waiting]> (pending_requests h))).
  set (m := create new_id now REQUEST (agent_id h) to content None).
  destruct (deliver incoming (h1, publish m b)) as [h2 b2] eqn:Hd.
  assert (Hw : pending_requests h2 !! new_id = Some Waiting).
  { replace h2 with (fst (deliver incoming (h1, publish m b))) by now rewrite Hd.
    rewrite deliver_other by assumption. apply lookup_insert_eq. }
  unfold send_request_end. simpl. rewrite Hw.
  split; [apply lookup_insert_eq|]. split; [reflexivity|].
  split; [apply lookup_delete_eq|].
  intros i n late b' Hc. rewrite handle_message_pending.
  apply (resolve_absent late _ new_id Hc). simpl. apply lookup_delete_eq.
Qed.

(** The scenario of the specification: a request to "ghost_agent", which
    nobody answers; only a stray event arrives meanwhile. *)
Lemma send_request_timeout_ghost :
  let incoming :=
    [("r-1", FFin 1700000000200000,
      mkMessage "e-1" EVENT "agent9" "agent1" [] (FFin 1700000000100000) None)] in
  Forall (fun e => correlation_id (snd e) <> Some "req-1") incoming
  /\ let '(message, h1, b1) :=
       send_request_begin "req-1" (FFin 1700000000000000) "ghost_agent"
         [("action", PyStr "test")] (new_handler "agent1") new_broker in
     let '(h2, b2) := deliver incoming (h1, b1) in
     let '(result, h3) := send_request_end message h2 in
     pending_requests h1 !! id message = Some Waiting
     /\ result = None
     /\ pending_requests h3 !! id message = None
     /\ forall i n late b', correlation_id late = Some (id message) ->
          fst (handle_message i n late h3 b') = h3.
Proof.
  assert (H : Forall (fun e : string * pyfloat * Message =>
                        correlation_id (snd e) <> Some "req-1")
                [("r-1", FFin 1700000000200000,
                  mkMessage "e-1" EVENT "agent9" "agent1" [] (FFin 1700000000100000) None)]).
  { constructor; [simpl; discriminate | constructor]. }
  split; [exact H|].
  exact (send_request_timeout "req-1" (FFin 1700000000000000) "ghost_agent"
           [("action", PyStr "test")] (new_handler "agent1") new_broker _ H).
Defined.

End MessagingFacts.

(** ** The validators on recorded transactions *)

Section ValidationFacts.
Import Validation.

Definition is_dict (v : pyval) : Prop :=
  match v with PyDict _ => True | _ => False end.

Lemma validate_transaction_recorded (now : pyfloat) (data : pydict) (new_id : string)
    (t : pyfloat) :
  validate_transaction now (PyDict (Core.record_of data new_id t)) = Some false.
Proof. reflexivity. Qed.

Lemma validate_transaction_dict (now : pyfloat) (d : pydict) :
  exists verdict, validate_transaction now (PyDict d) = Some verdict.
Proof.
  unfold validate_transaction.
  destruct (negb (check_required_fields d transaction_fields)) eqn:Hf; [eauto|].
  apply negb_false_iff in Hf. unfold check_required_fields, transaction_fields in Hf.
  simpl in Hf. apply andb_true_iff in Hf as [_ Hf]. apply andb_true_iff in Hf as [Hts _].
  unfold dict_mem in Hts. destruct (dict_get "timestamp" d) as [ts|]; [|discriminate].
  destruct ts; simpl; try destruct (float_ltb _ _); eauto.
Qed.

Lemma validate_all_rejects (now : pyfloat) (txs : list pyval) (r : pyval) :
  Forall is_dict txs -> In r txs -> validate_transaction now r = Some false ->
  validate_all now txs = Some false.
Proof.
  intros Hall Hin Hr. induction txs as [|tx txs IH]; [contradiction|].
  inversion Hall as [|? ? Htx Htxs]; subst. simpl.
  destruct Hin as [-> | Hin]; [now rewrite Hr|].
  destruct tx; try contradiction.
  destruct (validate_transaction_dict now d) as [[] ->]; auto.
Qed.

(** C10. A record made by [record_transaction] has the fields id,
    timestamp and data, and no type: [validate_transaction] refuses it,
    and [validate_block] returns false for a block whose transactions
    (dicts, as [List[Dict[str, Any]]] says) hold such a record. *)
Theorem recorded_transaction_rejected (difficulty : Z) (now : pyfloat) (block : pydict)
    (expected_previous_hash : string) (txs : list pyval)
    (data : pydict) (new_id : string) (t : pyfloat) :
  dict_get "transactions" block = Some (PyList txs) ->
  Forall is_dict txs ->
  In (PyDict (Core.record_of data new_id t)) txs ->
  validate_transaction now (PyDict (Core.record_of data new_id t)) = Some false
  /\ validate_block difficulty now block expected_previous_hash = Some false.
Proof.
  intros Hget Hall Hin. split; [reflexivity|].
  unfold validate_block.
  destruct (negb (validate_block_structure block)); [reflexivity|].
  destruct (negb (py_eq _ _)); [reflexivity|].
  destruct (negb (validate_block_hash difficulty block)); [reflexivity|].
  unfold item. rewrite Hget.
  eapply validate_all_rejects; eauto.
Qed.

(** A block in its serialized form, with one recorded transaction. *)
Lemma recorded_transaction_rejected_block :
  let r := PyDict (Core.record_of [("amount", PyInt 10)] "tx-1" (FFin 1700000001000000)) in
  let block :=
    [("index", PyInt 1); ("timestamp", PyFloat (FFin 1700000014750000));
     ("transactions", PyList [r]); ("previous_hash", PyStr "0"); ("nonce", PyInt 3);
     ("hash", PyStr "0")] in
  validate_transaction (FFin 1700000020000000) r = Some false
  /\ validate_block 1 (FFin 1700000020000000) block "0" = Some false.
Proof.
  apply (recorded_transaction_rejected 1 (FFin 1700000020000000) _ "0"
           [PyDict (Core.record_of [("amount", PyInt 10)] "tx-1" (FFin 1700000001000000))]
           [("amount", PyInt 10)] "tx-1" (FFin 1700000001000000)).
  - reflexivity.
  - constructor; [exact I | constructor].
  - left; reflexivity.
Defined.

End ValidationFacts.

(** ** The ledger *)

Section Digest.

Lemma str_length (t : text) : String.length (str t) = length t.
Proof. induction t as [|c t IH]; simpl; [reflexivity | now rewrite IH]. Qed.

Lemma prefix_length (p s : string) :
  String.prefix p s = true -> (String.length p <= String.length s)%nat.
Proof.
  revert p. induction s as [|c s IH]; intros [|c' p]; simpl; intros H;
    try lia; try discriminate.
  destruct (ascii_dec c' c); [|discriminate]. apply IH in H. lia.
Qed.

(** A digest is at most 64 hexadecimal characters long. *)
Lemma hexdigest_length (s : string) : (String.length (Sha256.hexdigest s) <= 64)%nat.
Proof.
  unfold Sha256.hexdigest, Sha256.hexdigest_text. rewrite str_length.
  destruct (Sha256.digest _) as [|a [|b [|c [|d [|e [|f [|g [|h [|i l]]]]]]]]];
    simpl; lia.
Qed.

End Digest.

Section LedgerFacts.
Import Core.

Lemma zeros_length (d : Z) : String.length (zeros d) = Z.to_nat d.
Proof. unfold zeros. rewrite str_length. apply repeat_length. Qed.

(** The hash field is no input of the hash. *)
Lemma calculate_hash_with_hash (b : Block) (h : string) :
  calculate_hash (with_hash b h) = calculate_hash b.
Proof. reflexivity. Qed.

Lemma calculate_hash_length (b : Block) : (String.length (calculate_hash b) <= 64)%nat.
Proof. apply hexdigest_length. Qed.

(** From here on a digest is a value to reason about, not to unfold. *)
#[local] Opaque Sha256.hexdigest calculate_hash.

(** A block whose stored hash is a digest of something. *)
Definition digest_sized (b : Block) : Prop := (String.length (hash b) <= 64)%nat.

Lemma new_block_sized i ts txs prev : digest_sized (new_block i ts txs prev).
Proof. apply calculate_hash_length. Qed.

Lemma bump_sized (b : Block) : digest_sized (bump b).
Proof. apply calculate_hash_length. Qed.

Lemma target_out_of_reach (d : Z) (b : Block) :
  64 < d -> digest_sized b -> meets_target d b = false.
Proof.
  intros Hd Hb. destruct (meets_target d b) eqn:H; [|reflexivity].
  apply prefix_length in H. rewrite zeros_length in H. unfold digest_sized in Hb. lia.
Qed.

Lemma search_out_of_reach (fuel : nat) (d : Z) (b : Block) :
  64 < d -> digest_sized b -> search fuel d b = None.
Proof.
  intros Hd. revert b. induction fuel as [|fuel IH]; intros b Hb; simpl;
    rewrite (target_out_of_reach d b Hd Hb); [reflexivity|].
  apply IH, bump_sized.
Qed.

(** What the search keeps and what it finds. *)
Lemma bump_fields (b : Block) :
  index (bump b) = index b /\ timestamp (bump b) = timestamp b
  /\ transactions (bump b) = transactions b /\ previous_hash (bump b) = previous_hash b
  /\ hash (bump b) = calculate_hash (bump b).
Proof. repeat split. Qed.

Lemma iter_bump_fields (n : nat) (b : Block) :
  index (Nat.iter n bump b) = index b
  /\ transactions (Nat.iter n bump b) = transactions b
  /\ previous_hash (Nat.iter n bump b) = previous_hash b
  /\ (hash b = calculate_hash b -> hash (Nat.iter n bump b) = calculate_hash (Nat.iter n bump b)).
Proof.
  induction n as [|n IH]; [repeat split; auto|].
  simpl. destruct IH as (Hi & Ht & Hp & _). repeat split; assumption.
Qed.

Lemma iter_bump_shift (n : nat) (b : Block) :
  Nat.iter n bump (bump b) = Nat.iter (S n) bump b.
Proof. symmetry. apply Nat.iter_succ_r. Qed.

(** The loop ends at the first nonce whose hash meets the target, if
    there is one, whatever fuel is left over. *)
Lemma search_finds (d : Z) (n : nat) (b : Block) :
  meets_target d (Nat.iter n bump b) = true ->
  exists k, (k <= n)%nat /\ meets_target d (Nat.iter k bump b) = true
            /\ forall fuel, (k <= fuel)%nat -> search fuel d b = Some (Nat.iter k bump b).
Proof.
  revert b. induction n as [|n IH]; intros b Hn.
  - exists 0%nat. split; [lia|]. split; [exact Hn|].
    intros fuel _. simpl in Hn. destruct fuel; simpl; now rewrite Hn.
  - destruct (meets_target d b) eqn:Hb.
    + exists 0%nat. split; [lia|]. split; [exact Hb|].
      intros fuel _. destruct fuel; simpl; now rewrite Hb.
    + rewrite <- iter_bump_shift in Hn. destruct (IH (bump b) Hn) as (k & Hk & Hm & Hs).
      exists (S k). rewrite <- iter_bump_shift. split; [lia|]. split; [exact Hm|].
      intros [|fuel] Hf; [lia|]. simpl. rewrite Hb. apply Hs. lia.
Qed.

Lemma search_sound (fuel : nat) (d : Z) (b b' : Block) :
  search fuel d b = Some b' ->
  exists k, b' = Nat.iter k bump b /\ meets_target d b' = true.
Proof.
  revert b. induction fuel as [|fuel IH]; intros b; simpl;
    destruct (meets_target d b) eqn:Hb; intros H; try discriminate.
  - inversion H; subst. now exists 0%nat.
  - inversion H; subst. now exists 0%nat.
  - destruct (IH _ H) as (k & -> & Hm). exists (S k).
    now rewrite <- iter_bump_shift.
Qed.

(** *** The shape of the chain *)

Definition link_ok (previous_block current_block : Block) : bool :=
  String.eqb (hash current_block) (calculate_hash current_block)
  && String.eqb (previous_hash current_block) (hash previous_block).

Fixpoint links_ok (previous_block : Block) (rest : list Block) : bool :=
  match rest with
  | [] => true
  | current_block :: rest' =>
      link_ok previous_block current_block && links_ok current_block rest'
  end.

Lemma block_ok_head (p cur : Block) (rest : list Block) :
  block_ok (p :: cur :: rest) 1 = link_ok p cur.
Proof.
  unfold block_ok, link_ok. simpl.
  destruct (String.eqb (hash cur) (calculate_hash cur)); simpl; [|reflexivity].
  destruct (String.eqb (previous_hash cur) (hash p)); reflexivity.
Qed.

Lemma block_ok_shift (p : Block) (c : list Block) (i : nat) :
  (1 <= i)%nat -> block_ok (p :: c) (S i) = block_ok c i.
Proof.
  intros Hi. unfold block_ok. destruct i as [|i]; [lia|].
  simpl. now rewrite Nat.sub_0_r.
Qed.

Lemma forallb_shift (p : Block) (c : list Block) (k n : nat) :
  (1 <= k)%nat ->
  forallb (block_ok (p :: c)) (seq (S k) n) = forallb (block_ok c) (seq k n).
Proof.
  revert k. induction n as [|n IH]; intros k Hk; [reflexivity|].
  cbn [seq forallb]. rewrite block_ok_shift by exact Hk. f_equal. apply IH. lia.
Qed.

Lemma forallb_block_ok (p : Block) (c : list Block) :
  forallb (block_ok (p :: c)) (seq 1 (length c)) = links_ok p c.
Proof.
  revert p. induction c as [|cur rest IH]; intros p; [reflexivity|].
  cbn [length seq forallb links_ok]. rewrite block_ok_head. f_equal.
  rewrite <- IH. apply forallb_shift. lia.
Qed.

Lemma is_chain_valid_links (st : BlockchainManager) :
  is_chain_valid st = match chain st with [] => true | g :: rest => links_ok g rest end.
Proof.
  unfold is_chain_valid. destruct (chain st) as [|g rest]; [reflexivity|].
  cbn [length]. rewrite Nat.sub_succ, Nat.sub_0_r. apply forallb_block_ok.
Qed.

Lemma last_cons (c : Block) (rest : list Block) (p : Block) :
  List.last (c :: rest) p = List.last rest c.
Proof.
  revert c p. induction rest as [|c' rest IH]; intros c p; [reflexivity|].
  change (List.last (c :: c' :: rest) p) with (List.last (c' :: rest) p).
  now rewrite (IH c' p), (IH c' c).
Qed.

Lemma links_ok_snoc (p : Block) (rest : list Block) (b : Block) :
  links_ok p (rest ++ [b]) =
  links_ok p rest && link_ok (List.last rest p) b.
Proof.
  revert p. induction rest as [|c rest IH]; intros p.
  - simpl. now rewrite andb_true_r.
  - cbn [app links_ok]. now rewrite IH, andb_assoc, last_cons.
Qed.

Lemma links_ok_hash (p p' : Block) (rest : list Block) :
  hash p = hash p' -> links_ok p rest = links_ok p' rest.
Proof. intros H. destruct rest; simpl; [reflexivity|]. unfold link_ok. now rewrite H. Qed.

Lemma last_stdpp (g : Block) (rest : list Block) :
  last (g :: rest) = Some (List.last rest g).
Proof.
  revert g. induction rest as [|c rest IH]; intros g; [reflexivity|].
  change (last (g :: c :: rest)) with (last (c :: rest)).
  now rewrite IH, <- (last_cons c rest g).
Qed.

(** What every manager satisfies: the chain starts with a block, every
    later block stores its own hash and its predecessor's. *)
Definition well_linked (st : BlockchainManager) : Prop :=
  exists g rest, chain st = g :: rest /\ links_ok g rest = true.

Lemma reachable_well_linked (st : BlockchainManager) : reachable st -> well_linked st.
Proof.
  induction 1 as [d now | st data new_id now _ IH | st fuel miner now res st' _ IH Hm].
  - now exists (new_block 0 now [] "0"), [].
  - exact IH.
  - destruct IH as (g & rest & Hc & Hl). unfold mine_block in Hm.
    destruct (pending_transactions st) as [|tx txs] eqn:Hp.
    + inversion Hm; subst. exists g, rest. auto.
    + unfold get_latest_block in Hm. rewrite Hc, last_stdpp in Hm.
      destruct (search fuel _ _) as [b|] eqn:Hs; [|discriminate].
      inversion Hm; subst. exists g, (rest ++ [b]). split; [simpl; now rewrite Hc|].
      rewrite links_ok_snoc, Hl. simpl.
      destruct (search_sound _ _ _ _ Hs) as (k & -> & _).
      destruct (iter_bump_fields k (draft_block now (List.last rest g) st))
        as (_ & _ & Hprev & Hhash).
      unfold link_ok. rewrite Hprev, Hhash by reflexivity.
      rewrite String.eqb_refl. simpl. apply String.eqb_refl.
Qed.

End LedgerFacts.

Section LedgerClaims.
Import Core.
#[local] Opaque Sha256.hexdigest calculate_hash.

(** C4, as the code has it. The constructor's genesis block has index 0,
    previous hash "0", no transaction, nonce 0 and the hash of these
    fields: no search runs on it, so nothing makes its hash meet the
    target. *)
Theorem genesis_block (d : Z) (now : pyfloat) :
  exists g, chain (init d now) = [g]
    /\ index g = 0 /\ previous_hash g = "0"%string /\ transactions g = []
    /\ nonce g = 0 /\ hash g = calculate_hash g
    /\ pending_transactions (init d now) = [] /\ difficulty (init d now) = d.
Proof. exists (new_block 0 now [] "0"). repeat split. Qed.

(** C4 fails at the default difficulty 4 (and at 1): the genesis block of
    time 1700000000.0 has the hash 50d82b0d..., with no zero in front. *)
Lemma genesis_block_misses_target :
  exists g, chain (init 4 (FFin 1700000000000000)) = [g]
    /\ hash g = "50d82b0d66572ea697cec74d73a843c77a715d6b2384ac18ed0e15346d603cb6"%string
    /\ meets_target (difficulty (init 4 (FFin 1700000000000000))) g = false
    /\ meets_target 1 g = false.
Proof.
  eexists. split; [reflexivity|].
  split; [|split]; vm_compute; reflexivity.
Qed.

(** C1, as the code has it. When the pool is not empty and some nonce
    gives the draft block a hash that meets the target, [mine_block]
    returns, with enough fuel and with any more: one block is appended,
    its hash meets the target, its previous hash is the hash of the block
    that was last, it holds the pool, and the pool is left with the one
    reward record. *)
Theorem mine_block_appends (st : BlockchainManager) (miner : string) (now : pyfloat)
    (latest : Block) (n : nat) :
  pending_transactions st <> [] ->
  get_latest_block st = Some latest ->
  meets_target (difficulty st) (Nat.iter n bump (draft_block now latest st)) = true ->
  exists fuel b st',
    (forall fuel', (fuel <= fuel')%nat ->
       mine_block fuel' miner now st = Done (Some b, st'))
    /\ chain st' = chain st ++ [b]
    /\ length (chain st') = S (length (chain st))
    /\ meets_target (difficulty st) b = true
    /\ previous_hash b = hash latest
    /\ transactions b = pending_transactions st
    /\ pending_transactions st' =
         [[("from", PyStr "network"); ("to", PyStr miner);
           ("amount", PyFloat (mining_reward st))]].
Proof.
  intros Hp Hl Hn. destruct (search_finds _ _ _ Hn) as (k & _ & Hm & Hs).
  exists k, (Nat.iter k bump (draft_block now latest st)),
         (seal miner (Nat.iter k bump (draft_block now latest st)) st).
  destruct (iter_bump_fields k (draft_block now latest st)) as (_ & Ht & Hprev & _).
  repeat split; auto.
  - intros fuel' Hf. unfold mine_block. rewrite Hl, (Hs fuel' Hf).
    destruct (pending_transactions st); [contradiction | reflexivity].
  - simpl. rewrite length_app. simpl. lia.
Qed.

(** The scenario of the specification: three transactions recorded, then
    mined by "m1" at difficulty 2; the sixth hash (nonce 5) starts "00". *)
Definition three_recorded : BlockchainManager :=
  let tx i := [("sender", PyStr ("agent" ++ i)); ("receiver", PyStr ("agent" ++ i));
               ("amount", PyInt 10)] in
  let st := init 2 (FFin 1700000000000000) in
  let st := fst (record_transaction
                   [("sender", PyStr "agent0"); ("receiver", PyStr "agent1");
                    ("amount", PyInt 10)] "tx-0" (FFin 1700000001000000) st) in
  let st := fst (record_transaction
                   [("sender", PyStr "agent1"); ("receiver", PyStr "agent2");
                    ("amount", PyInt 10)] "tx-1" (FFin 1700000002000000) st) in
  fst (record_transaction
         [("sender", PyStr "agent2"); ("receiver", PyStr "agent3");
          ("amount", PyInt 10)] "tx-2" (FFin 1700000003000000) st).

Definition scenario_genesis : Block := new_block 0 (FFin 1700000000000000) [] "0".

Lemma mine_block_appends_scenario :
  pending_transactions three_recorded <> []
  /\ get_latest_block three_recorded = Some scenario_genesis
  /\ meets_target (difficulty three_recorded)
       (Nat.iter 5 bump
          (draft_block (FFin 1700000015000000) scenario_genesis three_recorded)) = true
  /\ exists fuel b st',
       (forall fuel', (fuel <= fuel')%nat ->
          mine_block fuel' "m1" (FFin 1700000015000000) three_recorded = Done (Some b, st'))
       /\ chain st' = chain three_recorded ++ [b]
       /\ length (chain st') = S (length (chain three_recorded))
       /\ meets_target (difficulty three_recorded) b = true
       /\ previous_hash b = hash scenario_genesis
       /\ transactions b = pending_transactions three_recorded
       /\ pending_transactions st' =
            [[("from", PyStr "network"); ("to", PyStr "m1");
              ("amount", PyFloat (mining_reward three_recorded))]].
Proof.
  assert (H1 : pending_transactions three_recorded <> []) by (vm_compute; discriminate).
  assert (H2 : get_latest_block three_recorded = Some scenario_genesis) by reflexivity.
  assert (H3 : meets_target (difficulty three_recorded)
                 (Nat.iter 5 bump
                    (draft_block (FFin 1700000015000000) scenario_genesis three_recorded))
               = true) by (vm_compute; reflexivity).
  split; [exact H1|]. split; [exact H2|]. split; [exact H3|].
  exact (mine_block_appends three_recorded "m1" (FFin 1700000015000000)
           scenario_genesis 5 H1 H2 H3).
Defined.

(** No digest has 65 characters: at a difficulty above 64 the search has
    no end, and [mine_block] does not return. *)
Lemma mine_block_out_of_reach (fuel : nat) (st : BlockchainManager) (miner : string)
    (now : pyfloat) (latest : Block) :
  64 < difficulty st -> pending_transactions st <> [] ->
  get_latest_block st = Some latest ->
  mine_block fuel miner now st = Running.
Proof.
  intros Hd Hp Hl. unfold mine_block. rewrite Hl.
  destruct (pending_transactions st) eqn:E; [contradiction|].
  rewrite search_out_of_reach; [reflexivity | exact Hd | apply new_block_sized].
Qed.

(** C1 fails at difficulty 65: the pool holds a transaction, and whatever
    the fuel, [mine_block] is still searching. *)
Lemma mine_block_never_returns :
  exists st, reachable st
    /\ pending_transactions st =
         [record_of [("amount", PyInt 10)] "tx-1" (FFin 1700000001000000)]
    /\ forall fuel miner now, mine_block fuel miner now st = Running.
Proof.
  exists (fst (record_transaction [("amount", PyInt 10)] "tx-1" (FFin 1700000001000000)
                 (init 65 (FFin 1700000000000000)))).
  split; [apply reach_record, reach_init|]. split; [reflexivity|].
  intros fuel miner now.
  apply (mine_block_out_of_reach fuel _ miner now
           (new_block 0 (FFin 1700000000000000) [] "0")).
  - simpl. lia.
  - discriminate.
  - reflexivity.
Qed.

End LedgerClaims.

Section Tampering.
Import Core.
#[local] Opaque Sha256.hexdigest calculate_hash.


Lemma tamper_genesis (txs : list pydict) (st : BlockchainManager) :
  reachable st -> is_chain_valid (tamper 0 txs st) = true.
Proof.
  intros Hr. destruct (reachable_well_linked st Hr) as (g & rest & Hc & Hl).
  rewrite is_chain_valid_links. unfold tamper. simpl. rewrite Hc.
  cbn [alter list_alter]. now rewrite (links_ok_hash (with_transactions g txs) g rest eq_refl).
Qed.



(** A chain of two blocks: one transaction recorded and mined at
    difficulty 1 (nonce 3). *)
Definition one_recorded : BlockchainManager :=
  fst (record_transaction [("amount", PyInt 10)] "tx-1" (FFin 1700000001000000)
         (init 1 (FFin 1700000000000000))).

Definition state_after (o : outcome (option Block * BlockchainManager))
    (st : BlockchainManager) : BlockchainManager :=
  match o with
  | Done (_, st') => st'
  | _ => st
  end.

Definition one_mined : BlockchainManager :=
  state_after (mine_block 3 "m1" (FFin 1700000014750000) one_recorded) one_recorded.

Lemma one_mined_reachable : reachable one_mined.
Proof.
  apply (reach_mine one_recorded 3 "m1" (FFin 1700000014750000)
           (get_latest_block one_mined)).
  - apply reach_record, reach_init.
  - vm_compute. reflexivity.
Qed.



(** Raising the amount of the mined transaction from 10 to 11 is found. *)
Example tampered_amount_found :
  length (chain one_mined) = 2%nat
  /\ is_chain_valid one_mined = true
  /\ is_chain_valid (set_field 1 0 "data" (PyDict [("amount", PyInt 11)]) one_mined) = false.
Proof. split; [|split]; vm_compute; reflexivity. Qed.




End Tampering.

(** ** Recording while a block is mined *)

Section Schedules.
Import Core Interleaving.
#[local] Opaque Sha256.hexdigest calculate_hash.

(** A call of [mine_block] that returns a block is the run of its
    pieces, one after the other. *)
Lemma search_as_steps (fuel : nat) (st : BlockchainManager) (miner : string)
    (b b' : Block) :
  search fuel (difficulty st) b = Some b' ->
  exists n, run (repeat Mine_step n ++ [Mine_end]) (mkSystem st (Some (miner, b)))
            = Some (idle (seal miner b' st)).
Proof.
  revert b. induction fuel as [|fuel IH]; intros b; simpl;
    destruct (meets_target (difficulty st) b) eqn:Hb; intros H; try discriminate.
  - inversion H; subst. exists 0%nat. simpl. now rewrite Hb.
  - inversion H; subst. exists 0%nat. simpl. now rewrite Hb.
  - destruct (IH _ H) as (n & Hn). exists (S n). simpl. now rewrite Hb.
Qed.

Lemma mine_block_as_events (fuel : nat) (miner : string) (now : pyfloat)
    (st st' : BlockchainManager) (b : Block) :
  mine_block fuel miner now st = Done (Some b, st') ->
  exists n, run (Mine_begin miner now :: repeat Mine_step n ++ [Mine_end]) (idle st)
            = Some (idle st').
Proof.
  unfold mine_block. destruct (pending_transactions st) as [|tx txs] eqn:Hp;
    [discriminate|].
  destruct (get_latest_block st) as [latest|] eqn:Hl; [|discriminate].
  destruct (search fuel _ _) as [b'|] eqn:Hs; [|discriminate].
  intros H; inversion H; subst.
  destruct (search_as_steps _ _ miner _ _ Hs) as (n & Hn).
  exists n. cbn [run step idle in_flight manager]. rewrite Hp, Hl. exact Hn.
Qed.

(** What a cooperative schedule keeps true: every record so far is held,
    and a block being mined holds the pool as it is now. *)
Definition settled (mining : bool) (s : system) (rs : list pydict) : Prop :=
  (forall r, In r rs -> held (manager s) r)
  /\ match in_flight s with
     | Some (_, b) => mining = true /\ transactions b = pending_transactions (manager s)
     | None => mining = false
     end.

Lemma held_recorded (st : BlockchainManager) (data : pydict) (i : string) (now : pyfloat)
    (r : pydict) :
  held st r -> held (fst (record_transaction data i now st)) r.
Proof.
  intros [H | H]; [left | right; exact H]. simpl. apply in_or_app. now left.
Qed.

Lemma held_sealed (st : BlockchainManager) (miner : string) (b : Block) (r : pydict) :
  transactions b = pending_transactions st -> held st r -> held (seal miner b st) r.
Proof.
  intros Ht [H | (b' & Hb' & Hr)]; right.
  - exists b. split; [simpl; apply in_or_app; right; now left | now rewrite Ht].
  - exists b'. split; [simpl; apply in_or_app; now left | exact Hr].
Qed.

Lemma cooperative_settled (es : list event) (mining : bool) (s s' : system)
    (rs : list pydict) :
  cooperative mining es = true -> settled mining s rs -> run es s = Some s' ->
  forall r, In r (rs ++ recorded es) -> held (manager s') r.
Proof.
  revert mining s rs. induction es as [|e es IH]; intros mining s rs Hc [Hh Hf] Hrun.
  - inversion Hrun; subst. simpl. rewrite app_nil_r. exact Hh.
  - simpl in Hrun. destruct (step e s) as [s1|] eqn:Hs; [|discriminate].
    destruct e as [data i now | miner now | | ]; simpl in Hc, Hs;
      apply andb_true_iff in Hc as [Hm Hc].
    + apply negb_true_iff in Hm; subst mining. inversion Hs; subst s1.
      intros r Hr.
      eapply (IH false _ (rs ++ [record_of data i now])); [exact Hc | | exact Hrun |].
      * split.
        -- intros r' Hr'. apply in_app_or in Hr' as [Hr' | [<- | []]].
           ++ apply held_recorded, Hh, Hr'.
           ++ left. simpl. apply in_or_app. right. now left.
        -- simpl. destruct (in_flight s) as [[? ?]|]; [destruct Hf; discriminate | reflexivity].
      * simpl in Hr. now rewrite <- app_assoc.
    + apply negb_true_iff in Hm; subst mining.
      destruct (in_flight s) as [[? ?]|] eqn:Hi; [discriminate|].
      destruct (pending_transactions (manager s)) as [|tx txs] eqn:Hp; [discriminate|].
      destruct (get_latest_block (manager s)) as [latest|]; [|discriminate].
      inversion Hs; subst s1.
      eapply (IH true _ rs); [exact Hc | | exact Hrun].
      split; [exact Hh|]. simpl. split; [reflexivity|]. now rewrite Hp.
    + destruct (in_flight s) as [[miner b]|] eqn:Hi; [|discriminate].
      destruct (meets_target _ b); [discriminate|]. inversion Hs; subst s1.
      eapply (IH mining _ rs); [exact Hc | | exact Hrun].
      split; [exact Hh|]. simpl. destruct Hf as [Hm' Ht]. split; [exact Hm'|exact Ht].
    + destruct (in_flight s) as [[miner b]|] eqn:Hi; [|discriminate].
      destruct (meets_target _ b); [|discriminate]. inversion Hs; subst s1.
      eapply (IH false _ rs); [exact Hc | | exact Hrun].
      destruct Hf as [_ Ht]. split; [|reflexivity].
      intros r Hr. simpl. apply held_sealed; auto.
Qed.

(** C2, as the code has it. On one event loop nothing runs between the
    pieces of [mine_block], which has no [await]; then every transaction
    that was recorded is in a block of the chain or in the pool. *)
Theorem cooperative_keeps_recorded (d : Z) (t0 : pyfloat) (es : list event)
    (s : system) :
  cooperative false es = true ->
  run es (idle (init d t0)) = Some s ->
  forall r, In r (recorded es) -> held (manager s) r.
Proof.
  intros Hc Hrun r Hr.
  apply (cooperative_settled es false (idle (init d t0)) s [] Hc); auto.
  split; [intros ? [] | reflexivity].
Qed.

(** A transaction recorded, the pool mined (three steps of search), and
    another transaction recorded. *)
Definition in_turn : list event :=
  [Record_tx [("amount", PyInt 10)] "tx-1" (FFin 1700000001000000);
   Mine_begin "m1" (FFin 1700000014750000);
   Mine_step; Mine_step; Mine_step; Mine_end;
   Record_tx [("amount", PyInt 20)] "tx-2" (FFin 1700000016000000)].

Lemma cooperative_keeps_recorded_in_turn :
  cooperative false in_turn = true
  /\ exists s, run in_turn (idle (init 1 (FFin 1700000000000000))) = Some s
       /\ forall r, In r (recorded in_turn) -> held (manager s) r.
Proof.
  assert (Hc : cooperative false in_turn = true) by reflexivity.
  split; [exact Hc|].
  assert (Hsome : is_Some (run in_turn (idle (init 1 (FFin 1700000000000000)))))
    by (vm_compute; eexists; reflexivity).
  destruct (run in_turn (idle (init 1 (FFin 1700000000000000)))) as [s|] eqn:Hrun.
  - exists s. split; [reflexivity|].
    exact (cooperative_keeps_recorded 1 (FFin 1700000000000000) in_turn s Hc Hrun).
  - exfalso. destruct Hsome as [? Hsome]. discriminate Hsome.
Defined.

(** C2 fails once [record_transaction] runs between the pieces of
    [mine_block] (threads that share the manager): the second
    transaction is recorded while the search is under way, after the pool
    was read into the draft block, and the reset of the pool drops it. *)
Definition in_between : list event :=
  [Record_tx [("amount", PyInt 10)] "tx-1" (FFin 1700000001000000);
   Mine_begin "m1" (FFin 1700000014750000);
   Mine_step;
   Record_tx [("amount", PyInt 20)] "tx-2" (FFin 1700000002000000);
   Mine_step; Mine_step; Mine_end].

Lemma preemptive_loses_recorded :
  exists s, run in_between (idle (init 1 (FFin 1700000000000000))) = Some s
    /\ recorded in_between =
         [record_of [("amount", PyInt 10)] "tx-1" (FFin 1700000001000000);
          record_of [("amount", PyInt 20)] "tx-2" (FFin 1700000002000000)]
    /\ map transactions (chain (manager s)) =
         [[]; [record_of [("amount", PyInt 10)] "tx-1" (FFin 1700000001000000)]]
    /\ pending_transactions (manager s) =
         [[("from", PyStr "network"); ("to", PyStr "m1"); ("amount", PyFloat (FFin 1000000))]]
    /\ ~ held (manager s)
           (record_of [("amount", PyInt 20)] "tx-2" (FFin 1700000002000000)).
Proof.
  assert (Hobs : option_map
                (fun s => (map transactions (chain (manager s)),
                           pending_transactions (manager s)))
                (run in_between (idle (init 1 (FFin 1700000000000000)))) =
              Some ([[]; [record_of [("amount", PyInt 10)] "tx-1" (FFin 1700000001000000)]],
                    [[("from", PyStr "network"); ("to", PyStr "m1");
                      ("amount", PyFloat (FFin 1000000))]]))
    by (vm_compute; reflexivity).
  destruct (run in_between (idle (init 1 (FFin 1700000000000000)))) as [s|];
    [|discriminate Hobs].
  exists s. split; [reflexivity|]. split; [reflexivity|].
  assert (Hs : map transactions (chain (manager s)) =
                 [[]; [record_of [("amount", PyInt 10)] "tx-1" (FFin 1700000001000000)]]
               /\ pending_transactions (manager s) =
                 [[("from", PyStr "network"); ("to", PyStr "m1");
                   ("amount", PyFloat (FFin 1000000))]]).
  { simpl in Hobs. inversion Hobs as [[Hch Hpe]]. rewrite Hch, Hpe. split; reflexivity. }
  destruct Hs as [Hch Hpe]. split; [exact Hch|]. split; [exact Hpe|].
  intros [H | (b & Hb & Hr)].
  - rewrite Hpe in H. destruct H as [H | []]. discriminate H.
  - assert (Hin : In (transactions b) (map transactions (chain (manager s))))
      by (apply in_map; exact Hb).
    rewrite Hch in Hin. destruct Hin as [Hin | [Hin | []]]; rewrite <- Hin in Hr.
    + destruct Hr.
    + destruct Hr as [Hr | []]. discriminate Hr.
Qed.

End Schedules.

(** ** What [json.loads] reads back from [json.dumps] *)

Section JsonText.

(** An induction principle that reaches the values inside lists and dicts. *)
Lemma pyval_nested_ind (P : pyval -> Prop) :
  P PyNone -> (forall b, P (PyBool b)) -> (forall z, P (PyInt z)) ->
  (forall f, P (PyFloat f)) -> (forall s, P (PyStr s)) ->
  (forall l, Forall P l -> P (PyList l)) ->
  (forall l, Forall P l -> P (PyTuple l)) ->
  (forall d, Forall (fun kv => P (snd kv)) d -> P (PyDict d)) ->
  forall v, P v.
Proof.
  intros HN HB HI HF HS HL HT HD.
  fix IH 1. intros [ | b | z | f | s | l | l | d].
  - exact HN.
  - apply HB.
  - apply HI.
  - apply HF.
  - apply HS.
  - apply HL. induction l as [|v l IHl]; constructor; [apply IH | exact IHl].
  - apply HT. induction l as [|v l IHl]; constructor; [apply IH | exact IHl].
  - apply HD. induction d as [|[k v] d IHd]; constructor; [apply IH | exact IHd].
Qed.

(** *** Strings *)

Lemma scan_string_escape (c : ascii) (t : text) :
  scan_string (escape_char c ++ t) = cons_char c (scan_string t).
Proof.
  destruct c as [[] [] [] [] [] [] [] []]; reflexivity.
Qed.

Lemma scan_string_body (s rest : text) :
  scan_string (flat_map escape_char s ++ dquote :: rest) = Some (s, rest).
Proof.
  induction s as [|c s IH]; [reflexivity|].
  cbn [flat_map]. rewrite <- app_assoc, scan_string_escape, IH. reflexivity.
Qed.

(** *** Numbers *)

Definition at_digit (t : text) : bool :=
  match t with c :: _ => is_digit c | [] => false end.

(** What follows a value inside a text that [json.dumps] wrote: the end,
    a comma, or a closing bracket or brace. *)
Definition delimited (rest : text) : bool :=
  match rest with
  | [] => true
  | c :: _ => Ascii.eqb c "," || Ascii.eqb c "]" || Ascii.eqb c "}"
  end.

Lemma delimited_cases (rest : text) :
  delimited rest = true ->
  at_digit rest = false /\ expect "." rest = None /\ starts_exponent rest = false
  /\ skip_ws rest = rest.
Proof.
  destruct rest as [|c r]; [now repeat split|]. simpl. intros H.
  apply orb_true_iff in H as [H | H]; [apply orb_true_iff in H as [H | H]|];
    apply Ascii.eqb_eq in H; subst c; now repeat split.
Qed.

Lemma digit_ctor_none (c : ascii) : is_digit c = false -> digit_ctor c = None.
Proof. destruct c as [[] [] [] [] [] [] [] []]; simpl; intros H; try discriminate H; reflexivity. Qed.

Lemma scan_uint_text (u : Decimal.uint) (rest : text) :
  at_digit rest = false -> scan_uint (uint_text u ++ rest) = (u, rest).
Proof.
  intros H. induction u; cbn [uint_text app scan_uint];
    try (change (digit_ctor _) with (Some Decimal.D0) ||
         change (digit_ctor _) with (Some Decimal.D1) ||
         change (digit_ctor _) with (Some Decimal.D2) ||
         change (digit_ctor _) with (Some Decimal.D3) ||
         change (digit_ctor _) with (Some Decimal.D4) ||
         change (digit_ctor _) with (Some Decimal.D5) ||
         change (digit_ctor _) with (Some Decimal.D6) ||
         change (digit_ctor _) with (Some Decimal.D7) ||
         change (digit_ctor _) with (Some Decimal.D8) ||
         change (digit_ctor _) with (Some Decimal.D9));
    try (rewrite IHu; reflexivity).
  destruct rest as [|c r]; [reflexivity|]. simpl in *. now rewrite digit_ctor_none.
Qed.

Lemma to_uint_normal (n : N) :
  N.to_uint n <> Decimal.Nil /\ leading_zero (N.to_uint n) = false.
Proof.
  assert (E : N.to_uint n = Decimal.unorm (N.to_uint n)).
  { rewrite <- DecimalN.Unsigned.to_of. now rewrite DecimalN.Unsigned.of_to. }
  split.
  - rewrite E. apply DecimalFacts.unorm_nonnil.
  - destruct (N.to_uint n) as [|u| | | | | | | | |] eqn:Hu; try reflexivity.
    destruct u; try reflexivity; exfalso;
      unfold Decimal.unorm in E; rewrite DecimalFacts.nzhead_D0 in E;
      match type of E with
      | _ = match Decimal.nzhead ?x with _ => _ end =>
          pose proof (DecimalFacts.nzhead_nonzero x) as Hnz;
          destruct (Decimal.nzhead x) eqn:Hx; try discriminate E;
          try (eapply Hnz; reflexivity)
      end.
Qed.

Lemma uint_text_head (u : Decimal.uint) :
  u <> Decimal.Nil ->
  exists c r, uint_text u = c :: r /\ is_digit c = true /\ Ascii.eqb c "-" = false
              /\ is_ws c = false /\ Ascii.eqb c dquote = false
              /\ Ascii.eqb c "[" = false /\ Ascii.eqb c "{" = false.
Proof.
  destruct u; [congruence|..]; intros _; eexists _, _; (split; [reflexivity|]);
    now repeat split.
Qed.

Lemma scan_fraction_none (rest : text) :
  delimited rest = true -> scan_fraction rest = Some (None, rest).
Proof.
  intros Hd. destruct (delimited_cases rest Hd) as (_ & Hdot & _).
  unfold scan_fraction. now rewrite Hdot.
Qed.

Lemma scan_exponent_none (rest : text) :
  delimited rest = true -> scan_exponent rest = Some (None, rest).
Proof.
  intros Hd. destruct (delimited_cases rest Hd) as (_ & _ & Hexp & _).
  unfold scan_exponent. now rewrite Hexp.
Qed.

(** The scanner past the digits it starts with. *)
Lemma scan_unsigned_digits (neg : bool) (t : text) (u : Decimal.uint) (t2 : text) :
  scan_uint t = (u, t2) -> u <> Decimal.Nil -> leading_zero u = false ->
  scan_unsigned neg t =
  match scan_fraction t2 with
  | Some (fs, t3) =>
      match scan_exponent t3 with
      | Some (e, t4) =>
          match number_value neg (N.of_uint u) fs e with
          | Some v => Some (v, t4)
          | None => None
          end
      | None => None
      end
  | None => None
  end.
Proof.
  intros Hs Hn Hl. unfold scan_unsigned. rewrite Hs.
  destruct u; [congruence|..]; cbv beta iota zeta; rewrite Hl; reflexivity.
Qed.

Lemma scan_unsigned_int (neg : bool) (n : N) (rest : text) :
  delimited rest = true ->
  scan_unsigned neg (N_text n ++ rest) =
  Some (PyInt (if neg then - Z.of_N n else Z.of_N n), rest).
Proof.
  intros Hd. destruct (delimited_cases rest Hd) as (Hnd & _).
  destruct (to_uint_normal n) as [Hnil Hlz].
  rewrite (scan_unsigned_digits neg _ (N.to_uint n) rest);
    [| unfold N_text; now apply scan_uint_text | exact Hnil | exact Hlz].
  rewrite scan_fraction_none, scan_exponent_none by exact Hd.
  cbn [number_value]. now rewrite DecimalN.Unsigned.of_to.
Qed.

Lemma scan_number_int (z : Z) (rest : text) :
  delimited rest = true -> scan_number (int_text z ++ rest) = Some (PyInt z, rest).
Proof.
  intros Hd. unfold scan_number, int_text.
  destruct (z <? 0) eqn:Hz.
  - cbn [app]. change (Ascii.eqb "-" "-") with true. cbv iota.
    rewrite scan_unsigned_int by exact Hd. do 2 f_equal. f_equal.
    apply Z.ltb_lt in Hz. rewrite N2Z.inj_abs_N. lia.
  - destruct (to_uint_normal (Z.abs_N z)) as [Hnil _].
    destruct (uint_text_head _ Hnil) as (c & r & Hc & _ & Hminus & _).
    unfold N_text at 1. rewrite Hc. cbn [app]. rewrite Hminus.
    rewrite scan_unsigned_int by exact Hd.
    do 2 f_equal. f_equal. apply Z.ltb_ge in Hz. rewrite N2Z.inj_abs_N. lia.
Qed.


(** The digits of a fraction. *)

Lemma code_digit_char (n : N) : code (digit_char n) = (48 + n mod 10)%N.
Proof.
  unfold code, digit_char. apply N_ascii_embedding.
  assert (H : (n mod 10 < 10)%N) by (apply N.mod_lt; discriminate).
  revert H. generalize (n mod 10)%N. intros m H. lia.
Qed.

Lemma digit_char_digit (n : N) : is_digit (digit_char n) = true.
Proof.
  unfold is_digit. rewrite code_digit_char.
  assert (H : (n mod 10 < 10)%N) by (apply N.mod_lt; discriminate).
  revert H. generalize (n mod 10)%N. intros m H.
  apply andb_true_iff. split; apply N.leb_le; lia.
Qed.

Lemma digit_val_char (n : N) : digit_val (digit_char n) = (n mod 10)%N.
Proof.
  unfold digit_val. rewrite code_digit_char. generalize (n mod 10)%N. intros m. lia.
Qed.

Lemma digits_value_snoc (t : text) (c : ascii) :
  digits_value (t ++ [c]) = (10 * digits_value t + digit_val c)%N.
Proof. unfold digits_value. now rewrite fold_left_app. Qed.

Lemma fixed_digits_length (k : nat) (f : N) : length (fixed_digits k f) = k.
Proof.
  revert f. induction k as [|k IH]; intros f; [reflexivity|].
  cbn [fixed_digits]. rewrite length_app, IH. simpl. lia.
Qed.

Lemma fixed_digits_digits (k : nat) (f : N) :
  Forall (fun c => is_digit c = true) (fixed_digits k f).
Proof.
  revert f. induction k as [|k IH]; intros f; [constructor|].
  cbn [fixed_digits]. apply Forall_app. split; [apply IH|].
  constructor; [apply digit_char_digit | constructor].
Qed.

Lemma fixed_digits_value (k : nat) (f : N) :
  digits_value (fixed_digits k f) = (f mod 10 ^ N.of_nat k)%N.
Proof.
  revert f. induction k as [|k IH]; intros f.
  - simpl. now rewrite N.mod_1_r.
  - cbn [fixed_digits]. rewrite digits_value_snoc, IH, digit_val_char.
    rewrite Nat2N.inj_succ, N.pow_succ_r', N.Div0.mod_mul_r. lia.
Qed.

Lemma strip_zeros_rev_spec (r : text) :
  exists n, r = repeat "0"%char n ++ strip_zeros_rev r
            /\ (r <> [] -> strip_zeros_rev r <> []).
Proof.
  induction r as [|c r IH]; [exists 0%nat; now split|].
  destruct r as [|c' r'].
  - exists 0%nat. now split.
  - cbn [strip_zeros_rev]. destruct (Ascii.eqb c "0") eqn:Hc.
    + apply Ascii.eqb_eq in Hc. subst c. destruct IH as (n & Hn & Hne).
      exists (S n). split; [simpl; now f_equal|]. intros _. apply Hne. discriminate.
    + exists 0%nat. now split.
Qed.

Lemma strip_zeros_spec (t : text) :
  exists n, t = strip_zeros t ++ repeat "0"%char n /\ (t <> [] -> strip_zeros t <> []).
Proof.
  unfold strip_zeros. destruct (strip_zeros_rev_spec (rev t)) as (n & Hn & Hne).
  exists n. split.
  - rewrite <- (rev_involutive t) at 1. rewrite Hn at 1.
    now rewrite rev_app_distr, rev_repeat.
  - intros Ht Hs. apply Hne.
    + intros Hr. apply Ht. rewrite <- (rev_involutive t), Hr. reflexivity.
    + rewrite <- (rev_involutive (strip_zeros_rev (rev t))), Hs. reflexivity.
Qed.

Lemma span_digits_all (ds rest : text) :
  Forall (fun c => is_digit c = true) ds -> at_digit rest = false ->
  span_digits (ds ++ rest) = (ds, rest).
Proof.
  intros Hds Hr. induction Hds as [|c ds Hc _ IH].
  - destruct rest as [|c r]; [reflexivity|]. simpl in *. now rewrite Hr.
  - cbn [app span_digits]. now rewrite Hc, IH.
Qed.

Lemma scan_fraction_digits (fs rest : text) :
  fs <> [] -> Forall (fun c => is_digit c = true) fs -> at_digit rest = false ->
  scan_fraction ("."%char :: fs ++ rest) = Some (Some fs, rest).
Proof.
  intros Hne Hds Hr. unfold scan_fraction. cbn [expect].
  change (Ascii.eqb "." ".") with true. cbv iota.
  rewrite (span_digits_all _ _ Hds Hr). destruct fs; [congruence | reflexivity].
Qed.

Lemma digits_value_app (t u : text) :
  digits_value (t ++ u) =
  (digits_value t * 10 ^ N.of_nat (length u) + digits_value u)%N.
Proof.
  induction u as [|c u IH] using rev_ind.
  - rewrite app_nil_r. cbn. lia.
  - rewrite app_assoc, !digits_value_snoc, IH, length_app. cbn [length].
    replace (N.of_nat (length u + 1)) with (N.succ (N.of_nat (length u))) by lia.
    rewrite N.pow_succ_r'. lia.
Qed.

Lemma digits_value_zeros (n : nat) : digits_value (repeat "0"%char n) = 0%N.
Proof.
  induction n as [|n IH]; [reflexivity|].
  change (repeat "0"%char (S n)) with (["0"%char] ++ repeat "0"%char n).
  rewrite digits_value_app, IH. reflexivity.
Qed.

Lemma digits_value_uint_acc (u : Decimal.uint) (acc : positive) :
  fold_left (fun a c => (10 * a + digit_val c)%N) (uint_text u) (N.pos acc)
  = N.pos (Pos.of_uint_acc u acc).
Proof.
  revert acc. induction u; intros acc; cbn [uint_text fold_left Pos.of_uint_acc];
    [reflexivity | ..]; rewrite <- IHu; f_equal;
    match goal with
    | |- context [digit_val ?c] =>
        let v := eval vm_compute in (digit_val c) in change (digit_val c) with v
    end; lia.
Qed.

(** The digits of a number stand for the number. *)
Lemma digits_value_uint (u : Decimal.uint) : digits_value (uint_text u) = N.of_uint u.
Proof.
  unfold digits_value, N.of_uint.
  induction u; cbn [uint_text fold_left Pos.of_uint]; [reflexivity | exact IHu | ..];
    apply (digits_value_uint_acc u).
Qed.

Lemma digits_value_N_text (a : N) : digits_value (N_text a) = a.
Proof. unfold N_text. rewrite digits_value_uint. apply DecimalN.Unsigned.of_to. Qed.

Lemma uint_text_digits (u : Decimal.uint) : Forall (fun c => is_digit c = true) (uint_text u).
Proof. induction u; cbn [uint_text]; constructor; (reflexivity || assumption). Qed.

Lemma decimal_micros_positional (a : N) :
  decimal_micros (a / 1000000) (strip_zeros (fixed_digits 6 (a mod 1000000))) 0 = Some a.
Proof.
  set (full := fixed_digits 6 (a mod 1000000)).
  destruct (strip_zeros_spec full) as (n & Hfull & _).
  assert (Hlen : length full = 6%nat) by apply fixed_digits_length.
  assert (Hn : (length (strip_zeros full) + n = 6)%nat).
  { rewrite Hfull, length_app, repeat_length in Hlen. lia. }
  assert (Hval : (digits_value (strip_zeros full) * 10 ^ N.of_nat n = a mod 1000000)%N).
  { transitivity (digits_value full).
    - rewrite Hfull at 2. rewrite digits_value_app, digits_value_zeros, repeat_length. lia.
    - unfold full. rewrite fixed_digits_value.
      change (10 ^ N.of_nat 6)%N with 1000000%N. apply N.Div0.mod_mod. }
  unfold decimal_micros.
  replace (0 - Z.of_nat (length (strip_zeros full)) + 6) with (Z.of_nat n) by lia.
  destruct (Z.leb_spec 0 (Z.of_nat n)); [|lia].
  f_equal. replace (Z.to_N (Z.of_nat n)) with (N.of_nat n) by lia.
  rewrite N.mul_add_distr_r, Hval, <- N.mul_assoc, <- N.pow_add_r.
  replace (N.of_nat (length (strip_zeros full)) + N.of_nat n)%N with 6%N by lia.
  change (10 ^ 6)%N with 1000000%N.
  pose proof (N.Div0.div_mod a 1000000) as Hdm. revert Hdm.
  generalize (a / 1000000)%N (a mod 1000000)%N. intros q m Hdm. lia.
Qed.

Lemma number_value_float (neg : bool) (n : N) (fs : option text) (e : option Z) (a : N) :
  (fs <> None \/ e <> None) ->
  decimal_micros n (default [] fs) (default 0 e) = Some a ->
  (neg = true -> a <> 0%N) ->
  float_exact (FFin (if neg then - Z.of_N a else Z.of_N a)) = true ->
  number_value neg n fs e = Some (PyFloat (FFin (if neg then - Z.of_N a else Z.of_N a))).
Proof.
  intros Hfe Hm Hneg Hex. unfold number_value.
  assert (Hz : neg && (a =? 0)%N = false).
  { destruct neg; [|reflexivity]. cbn. apply N.eqb_neq. now apply Hneg. }
  destruct fs as [fs|], e as [e|]; cbn [default] in *;
    try (rewrite Hm, Hz, Hex; reflexivity).
  destruct Hfe; congruence.
Qed.

Lemma scan_unsigned_float (neg : bool) (a : N) (rest : text) :
  delimited rest = true ->
  (neg = true -> a <> 0%N) ->
  float_exact (FFin (if neg then - Z.of_N a else Z.of_N a)) = true ->
  scan_unsigned neg
    (N_text (a / 1000000) ++ "."%char :: strip_zeros (fixed_digits 6 (a mod 1000000)) ++ rest)
  = Some (PyFloat (FFin (if neg then - Z.of_N a else Z.of_N a)), rest).
Proof.
  intros Hd Hneg Hex. destruct (delimited_cases rest Hd) as (Hnd & _).
  destruct (to_uint_normal (a / 1000000)) as [Hnil Hlz].
  set (full := fixed_digits 6 (a mod 1000000)).
  destruct (strip_zeros_spec full) as (n & Hfull & Hne).
  assert (Hdig : Forall (fun c => is_digit c = true) (strip_zeros full)).
  { pose proof (fixed_digits_digits 6 (a mod 1000000)) as H. fold full in H.
    rewrite Hfull in H. now apply Forall_app in H. }
  rewrite (scan_unsigned_digits neg _ (N.to_uint (a / 1000000))
             ("."%char :: strip_zeros full ++ rest));
    [| unfold N_text; now apply scan_uint_text | exact Hnil | exact Hlz].
  rewrite scan_fraction_digits;
    [| apply Hne; unfold full; discriminate | exact Hdig | exact Hnd].
  rewrite scan_exponent_none by exact Hd.
  rewrite DecimalN.Unsigned.of_to.
  rewrite (number_value_float neg _ _ _ a); [reflexivity | left; discriminate | | exact Hneg | exact Hex].
  apply decimal_micros_positional.
Qed.

(** The exponent. *)
Lemma scan_uint_stop (r : text) : at_digit r = false -> scan_uint r = (Decimal.Nil, r).
Proof. intros H. exact (scan_uint_text Decimal.Nil r H). Qed.

Lemma scan_uint_single (d : ascii) (r : text) :
  is_digit d = true -> at_digit r = false ->
  exists u, scan_uint (d :: r) = (u, r) /\ u <> Decimal.Nil /\ leading_zero u = false
            /\ N.of_uint u = digit_val d.
Proof.
  intros Hd Hr.
  destruct d as [[] [] [] [] [] [] [] []]; try discriminate Hd;
    cbn [scan_uint];
    match goal with
    | |- context [digit_ctor ?c] =>
        let v := eval vm_compute in (digit_ctor c) in change (digit_ctor c) with v
    end;
    cbv beta iota; rewrite (scan_uint_stop r Hr);
    eexists; (split; [reflexivity|]); (split; [discriminate|]); split; reflexivity.
Qed.

Lemma exponent_text_shape (e : Z) :
  exists u, u <> Decimal.Nil /\ N.of_uint u = Z.abs_N e
            /\ exponent_text e =
               "e"%char :: (if e <? 0 then "-"%char else "+"%char) :: uint_text u.
Proof.
  unfold exponent_text. destruct (to_uint_normal (Z.abs_N e)) as [Hnil _].
  destruct (Z.abs e <? 10).
  - exists (Decimal.D0 (N.to_uint (Z.abs_N e))). split; [discriminate|].
    split; [exact (DecimalN.Unsigned.of_to (Z.abs_N e))|].
    destruct (e <? 0); reflexivity.
  - exists (N.to_uint (Z.abs_N e)). split; [exact Hnil|].
    split; [apply DecimalN.Unsigned.of_to|].
    destruct (e <? 0); reflexivity.
Qed.

Lemma scan_exponent_text (e : Z) (rest : text) :
  delimited rest = true ->
  scan_exponent (exponent_text e ++ rest) = Some (Some e, rest).
Proof.
  intros Hd. destruct (delimited_cases rest Hd) as (Hnd & _).
  destruct (exponent_text_shape e) as (u & Hnil & Hval & ->).
  unfold scan_exponent. cbn [app starts_exponent tl].
  change ((code "e" =? 101)%N || (code "e" =? 69)%N) with true. cbv iota.
  assert (Hsign : scan_sign ((if e <? 0 then "-"%char else "+"%char) :: uint_text u ++ rest)
                  = (e <? 0, uint_text u ++ rest)).
  { destruct (e <? 0); reflexivity. }
  rewrite Hsign, (scan_uint_text u rest Hnd). rewrite Hval.
  assert (He : (if e <? 0 then - Z.of_N (Z.abs_N e) else Z.of_N (Z.abs_N e)) = e).
  { rewrite N2Z.inj_abs_N. destruct (Z.ltb_spec e 0); lia. }
  destruct u; [congruence|..]; cbv beta iota zeta; now rewrite He.
Qed.

Lemma exponent_text_not_digit (e : Z) (rest : text) :
  at_digit (exponent_text e ++ rest) = false /\ expect "." (exponent_text e ++ rest) = None.
Proof. destruct (exponent_text_shape e) as (u & _ & _ & ->). split; reflexivity. Qed.

Lemma digits_value_cons (c : ascii) (t : text) :
  digits_value (c :: t) = (digit_val c * 10 ^ N.of_nat (length t) + digits_value t)%N.
Proof.
  change (c :: t) with ([c] ++ t). rewrite digits_value_app.
  unfold digits_value at 1. cbn [fold_left]. lia.
Qed.

(** The digits of a number, its zeros at the end apart. *)
Lemma significant_spec (a : N) :
  exists t, N_text a = significant a ++ repeat "0"%char t
            /\ significant a <> []
            /\ Forall (fun c => is_digit c = true) (significant a)
            /\ (digits_value (significant a) * 10 ^ N.of_nat t = a)%N.
Proof.
  unfold significant. destruct (strip_zeros_spec (N_text a)) as (t & Ht & Hne).
  exists t. split; [exact Ht|]. split.
  - apply Hne. destruct (to_uint_normal a) as [Hnil _].
    destruct (uint_text_head _ Hnil) as (c & r & Hc & _). unfold N_text. now rewrite Hc.
  - split.
    + pose proof (uint_text_digits (N.to_uint a)) as H. fold (N_text a) in H.
      rewrite Ht in H. now apply Forall_app in H.
    + rewrite <- (digits_value_N_text a) at 2. rewrite Ht at 2.
      rewrite digits_value_app, digits_value_zeros, repeat_length. lia.
Qed.

Lemma scan_unsigned_exponent (neg : bool) (a : N) (rest : text) :
  delimited rest = true ->
  a <> 0%N ->
  float_exact (FFin (if neg then - Z.of_N a else Z.of_N a)) = true ->
  scan_unsigned neg
    (mantissa_text (significant a) ++
     exponent_text (Z.of_nat (length (N_text a)) - 7) ++ rest)
  = Some (PyFloat (FFin (if neg then - Z.of_N a else Z.of_N a)), rest).
Proof.
  intros Hd Ha Hex.
  destruct (significant_spec a) as (t & Ht & Hne & Hdig & Hval).
  set (e := Z.of_nat (length (N_text a)) - 7).
  destruct (exponent_text_not_digit e rest) as [Hend Hedot].
  destruct (significant a) as [|d rs] eqn:Hs; [congruence|].
  pose proof (List.Forall_inv Hdig) as Hd1. pose proof (List.Forall_inv_tail Hdig) as Hrs.
  cbv beta in Hd1.
  assert (Hlen : Z.of_nat (length (N_text a)) = 1 + Z.of_nat (length rs) + Z.of_nat t).
  { rewrite Ht, length_app, repeat_length. cbn [length]. lia. }
  assert (Hm : decimal_micros (digit_val d) rs e = Some a).
  { unfold decimal_micros.
    replace (e - Z.of_nat (length rs) + 6) with (Z.of_nat t) by (unfold e; lia).
    destruct (Z.leb_spec 0 (Z.of_nat t)); [|lia]. f_equal.
    replace (Z.to_N (Z.of_nat t)) with (N.of_nat t) by lia.
    rewrite <- digits_value_cons. exact Hval. }
  destruct rs as [|r1 rs'].
  - cbn [mantissa_text app].
    destruct (scan_uint_single d (exponent_text e ++ rest) Hd1 Hend)
      as (u & Hu & Hnil & Hlz & Hdv).
    rewrite (scan_unsigned_digits neg _ u _ Hu Hnil Hlz).
    unfold scan_fraction. rewrite Hedot.
    rewrite scan_exponent_text by exact Hd. rewrite Hdv.
    rewrite (number_value_float neg _ _ _ a);
      [reflexivity | right; discriminate | exact Hm | intros _; exact Ha | exact Hex].
  - change (scan_unsigned neg (d :: "."%char :: (r1 :: rs') ++ exponent_text e ++ rest)
            = Some (PyFloat (FFin (if neg then - Z.of_N a else Z.of_N a)), rest)).
    destruct (scan_uint_single d ("."%char :: (r1 :: rs') ++ exponent_text e ++ rest)
                Hd1 eq_refl) as (u & Hu & Hnil & Hlz & Hdv).
    rewrite (scan_unsigned_digits neg _ u _ Hu Hnil Hlz).
    rewrite scan_fraction_digits; [| discriminate | exact Hrs | exact Hend].
    rewrite scan_exponent_text by exact Hd. rewrite Hdv.
    rewrite (number_value_float neg _ _ _ a);
      [reflexivity | left; discriminate | exact Hm | intros _; exact Ha | exact Hex].
Qed.

Lemma mantissa_text_at_digit (a : N) (rest : text) :
  at_digit (mantissa_text (significant a) ++ rest) = true.
Proof.
  destruct (significant_spec a) as (t & _ & Hne & Hdig & _).
  destruct (significant a) as [|d rs]; [congruence|].
  pose proof (List.Forall_inv Hdig) as Hd1. destruct rs; cbn; exact Hd1.
Qed.


(** What a digit is not. *)
Lemma digit_other (c : ascii) :
  is_digit c = true ->
  is_ws c = false /\ Ascii.eqb c dquote = false /\ Ascii.eqb c "[" = false
  /\ Ascii.eqb c "{" = false /\ Ascii.eqb c "-" = false
  /\ Ascii.eqb "n" c = false /\ Ascii.eqb "t" c = false /\ Ascii.eqb "f" c = false
  /\ Ascii.eqb "N" c = false /\ Ascii.eqb "I" c = false /\ Ascii.eqb "-" c = false.
Proof.
  destruct c as [[] [] [] [] [] [] [] []]; intros H; try discriminate H;
    repeat split; reflexivity.
Qed.

(** A text that starts a number: a digit, or a minus sign and a digit. *)
Definition number_start (t : text) : bool :=
  match t with
  | c :: r => is_digit c || (Ascii.eqb c "-" && at_digit r)
  | [] => false
  end.

Lemma scan_literal_number (t : text) :
  number_start t = true -> scan_literal t = scan_number t.
Proof.
  destruct t as [|c r]; [discriminate|]. simpl. intros H.
  apply orb_true_iff in H as [H | H].
  - destruct (digit_other c H) as (_ & _ & _ & _ & _ & Hn & Ht & Hf & HN & HI & Hm).
    unfold scan_literal. cbn [chars list_ascii_of_string strip_prefix].
    now rewrite Hn, Ht, Hf, HN, HI, Hm.
  - apply andb_true_iff in H as [Hc Hr]. apply Ascii.eqb_eq in Hc. subst c.
    destruct r as [|d r]; [discriminate|]. simpl in Hr.
    destruct (digit_other d Hr) as (_ & _ & _ & _ & _ & _ & _ & _ & _ & HI & _).
    unfold scan_literal. cbn [chars list_ascii_of_string strip_prefix].
    change (Ascii.eqb "n" "-") with false. change (Ascii.eqb "t" "-") with false.
    change (Ascii.eqb "f" "-") with false. change (Ascii.eqb "N" "-") with false.
    change (Ascii.eqb "I" "-") with false. change (Ascii.eqb "-" "-") with true.
    cbv iota. now rewrite HI.
Qed.

Lemma parse_val_number (fuel : nat) (t : text) :
  number_start t = true -> parse_val (S fuel) t = scan_number t.
Proof.
  intros H. rewrite <- (scan_literal_number t H).
  destruct t as [|c r]; [discriminate|]. simpl in H.
  assert (Hc : is_ws c = false /\ Ascii.eqb c dquote = false
               /\ Ascii.eqb c "[" = false /\ Ascii.eqb c "{" = false).
  { apply orb_true_iff in H as [H | H].
    - destruct (digit_other c H) as (? & ? & ? & ? & _). auto.
    - apply andb_true_iff in H as [Hc _]. apply Ascii.eqb_eq in Hc. now subst c. }
  destruct Hc as (Hw & Hq & Hl & Hb).
  cbn [parse_val skip_ws]. now rewrite Hw, Hq, Hl, Hb.
Qed.

Lemma N_text_at_digit (n : N) (rest : text) : at_digit (N_text n ++ rest) = true.
Proof.
  destruct (to_uint_normal n) as [Hnil _].
  destruct (uint_text_head _ Hnil) as (c & r & Hc & Hd & _).
  unfold N_text. now rewrite Hc.
Qed.

Lemma at_digit_start (t : text) : at_digit t = true -> number_start t = true.
Proof. destruct t as [|c r]; [discriminate|]. simpl. now intros ->. Qed.

Lemma minus_start (t : text) : at_digit t = true -> number_start ("-"%char :: t) = true.
Proof. intros H. cbn [number_start]. now rewrite H. Qed.

Lemma int_text_start (z : Z) (rest : text) : number_start (int_text z ++ rest) = true.
Proof.
  unfold int_text. destruct (z <? 0).
  - apply minus_start, N_text_at_digit.
  - apply at_digit_start, N_text_at_digit.
Qed.

Lemma at_digit_not_minus (t : text) :
  at_digit t = true -> exists c r, t = c :: r /\ Ascii.eqb c "-" = false.
Proof.
  destruct t as [|c r]; [discriminate|]. simpl. intros H. exists c, r.
  split; [reflexivity|]. now destruct (digit_other c H) as (_ & _ & _ & _ & Hm & _).
Qed.

Lemma float_repr_start (z : Z) (rest : text) :
  number_start (float_repr (FFin z) ++ rest) = true.
Proof.
  unfold float_repr.
  assert (H : at_digit
    ((if ((Z.abs_N z =? 0) || ((100 <=? Z.abs_N z) && (Z.abs_N z <? 10 ^ 22)))%N
      then N_text (Z.abs_N z / 1000000) ++
           "."%char :: strip_zeros (fixed_digits 6 (Z.abs_N z mod 1000000))
      else mantissa_text (significant (Z.abs_N z)) ++
           exponent_text (Z.of_nat (length (N_text (Z.abs_N z))) - 7)) ++ rest) = true).
  { destruct ((Z.abs_N z =? 0) || _)%N; rewrite <- app_assoc;
      [apply N_text_at_digit | apply mantissa_text_at_digit]. }
  destruct (z <? 0).
  - rewrite <- app_assoc. cbn [app]. now apply minus_start.
  - cbn [app]. now apply at_digit_start.
Qed.

Lemma scan_number_float (z : Z) (rest : text) :
  delimited rest = true ->
  float_exact (FFin z) = true ->
  scan_number (float_repr (FFin z) ++ rest) = Some (PyFloat (FFin z), rest)
  /\ number_start (float_repr (FFin z) ++ rest) = true.
Proof.
  intros Hd Hex. unfold float_repr.
  set (a := Z.abs_N z).
  assert (Hz : (if z <? 0 then - Z.of_N a else Z.of_N a) = z).
  { unfold a. rewrite N2Z.inj_abs_N. destruct (Z.ltb_spec z 0); lia. }
  assert (Hneg : (z <? 0) = true -> a <> 0%N).
  { intros H. apply Z.ltb_lt in H. unfold a. lia. }
  set (body := if ((a =? 0) || ((100 <=? a) && (a <? 10 ^ 22)))%N
               then N_text (a / 1000000) ++
                    "."%char :: strip_zeros (fixed_digits 6 (a mod 1000000))
               else mantissa_text (significant a) ++
                    exponent_text (Z.of_nat (length (N_text a)) - 7)).
  assert (Hbody : scan_unsigned (z <? 0) (body ++ rest) = Some (PyFloat (FFin z), rest)
                  /\ at_digit (body ++ rest) = true).
  { unfold body. destruct ((a =? 0) || ((100 <=? a) && (a <? 10 ^ 22)))%N eqn:Hr.
    - rewrite <- app_assoc. cbn [app]. split; [|apply N_text_at_digit].
      rewrite scan_unsigned_float; [now rewrite Hz | exact Hd | exact Hneg | now rewrite Hz].
    - rewrite <- app_assoc. split; [|apply mantissa_text_at_digit].
      rewrite scan_unsigned_exponent; [now rewrite Hz | exact Hd | | now rewrite Hz].
      apply orb_false_iff in Hr as [Hr _]. now apply N.eqb_neq in Hr. }
  destruct Hbody as [Hscan Hstart].
  destruct (z <? 0) eqn:E.
  - rewrite <- app_assoc. cbn [app]. unfold scan_number.
    change (Ascii.eqb "-" "-") with true. cbv iota. split; [exact Hscan|].
    now apply minus_start.
  - cbn [app]. split; [|now apply at_digit_start].
    destruct (at_digit_not_minus _ Hstart) as (c & r & Hc & Hm).
    unfold scan_number. rewrite Hc in *. now rewrite Hm.
Qed.


(** *** Values *)

(** The fuel a value takes: one unit for the value and one for each item
    of a list or a dict, on top of the items' own. *)
Fixpoint size (v : pyval) : nat :=
  match v with
  | PyList l | PyTuple l => S (fold_right (fun x n => S (size x + n)) 0%nat l)
  | PyDict d => S (fold_right (fun kv n => S (size (snd kv) + n)) 0%nat d)
  | _ => 1%nat
  end.

Lemma skip_ws_skip (c : ascii) (r : text) : is_ws c = false -> skip_ws (c :: r) = c :: r.
Proof. intros H. simpl. now rewrite H. Qed.

Lemma parse_val_space (fuel : nat) (t : text) :
  parse_val fuel (" "%char :: t) = parse_val fuel t.
Proof. destruct fuel; reflexivity. Qed.

Lemma parse_elems_space (fuel : nat) (t : text) (acc : list pyval) :
  parse_elems fuel (" "%char :: t) acc = parse_elems fuel t acc.
Proof. destruct fuel; [reflexivity|]. cbn [parse_elems]. now rewrite parse_val_space. Qed.

Lemma parse_members_space (fuel : nat) (t : text) (acc : pydict) :
  parse_members fuel (" "%char :: t) acc = parse_members fuel t acc.
Proof. destruct fuel; reflexivity. Qed.

(** The first character of a value's text. *)
Definition opens_value (t : text) : Prop :=
  exists c r, t = c :: r /\ is_ws c = false /\ Ascii.eqb c "]" = false
              /\ Ascii.eqb c "}" = false.

Lemma number_start_opens (t : text) : number_start t = true -> opens_value t.
Proof.
  destruct t as [|c r]; [discriminate|]. simpl. intros H. exists c, r.
  split; [reflexivity|]. apply orb_true_iff in H as [H | H].
  - destruct c as [[] [] [] [] [] [] [] []]; try discriminate H; now repeat split.
  - apply andb_true_iff in H as [H _]. apply Ascii.eqb_eq in H. now subst c.
Qed.

Lemma json_string_opens (s rest : text) : opens_value (json_string s ++ rest).
Proof. eexists _, _. split; [reflexivity|]. now repeat split. Qed.

Lemma dumps_opens (v : pyval) (rest : text) : opens_value (dumps_text false v ++ rest).
Proof.
  destruct v as [ | [] | z | [ | [] | z] | s | l | l | d];
    try (eexists _, _; split; [reflexivity|]; now repeat split).
  - apply number_start_opens, int_text_start.
  - apply number_start_opens. exact (float_repr_start z rest).
Qed.

Lemma expect_closed (c : ascii) (t : text) :
  opens_value t -> (c = "]"%char \/ c = "}"%char) -> expect c (skip_ws t) = None.
Proof.
  intros (c' & r & -> & Hw & Hl & Hb) Hc. rewrite skip_ws_skip by exact Hw.
  simpl. destruct Hc as [-> | ->]; [now rewrite Hl | now rewrite Hb].
Qed.

(** What [parse_val] is to do on the text of a value. *)
Definition reads_back (v : pyval) : Prop :=
  forall fuel rest, (size v <= fuel)%nat -> delimited rest = true ->
    parse_val fuel (dumps_text false v ++ rest) = Some (v, rest).

Definition size_items (l : list pyval) : nat :=
  fold_right (fun x n => S (size x + n)) 0%nat l.

Lemma parse_elems_items (l : list pyval) :
  l <> [] -> Forall reads_back l ->
  forall fuel acc rest, (size_items l <= fuel)%nat ->
    parse_elems fuel (join item_sep (map (dumps_text false) l) ++ "]"%char :: rest) acc
    = Some (PyList (rev acc ++ l), rest).
Proof.
  induction l as [|v l IH]; [congruence|]. intros _ Hall fuel acc rest Hfuel.
  inversion Hall as [|? ? Hv Hl]; subst.
  destruct fuel as [|fuel]; [simpl in Hfuel; lia|].
  cbn [size_items fold_right] in Hfuel. fold (size_items l) in Hfuel.
  destruct l as [|v' l'].
  - cbn [map join parse_elems]. rewrite Hv by (try reflexivity; lia).
    cbn [skip_ws]. change (is_ws "]") with false. cbv iota.
    change (Ascii.eqb "]" ",") with false. change (Ascii.eqb "]" "]") with true.
    cbv iota. reflexivity.
  - change (join item_sep (map (dumps_text false) (v :: v' :: l')))
      with (dumps_text false v ++ item_sep ++
            join item_sep (map (dumps_text false) (v' :: l'))).
    rewrite <- !app_assoc. cbn [parse_elems].
    change (item_sep ++ ?x) with (","%char :: " "%char :: x).
    rewrite Hv by (try reflexivity; lia).
    cbn [skip_ws]. change (is_ws ",") with false. cbv iota.
    change (Ascii.eqb "," ",") with true. cbv iota.
    rewrite parse_elems_space, IH; [|discriminate|exact Hl|lia].
    cbn [rev]. now rewrite <- app_assoc.
Qed.


Definition member_text (kv : string * pyval) : text :=
  json_string (chars (fst kv)) ++ key_sep ++ dumps_text false (snd kv).

Definition size_members (d : pydict) : nat :=
  fold_right (fun kv n => S (size (snd kv) + n)) 0%nat d.

Lemma dumps_dict (d : pydict) :
  dumps_text false (PyDict d) =
  "{"%char :: join item_sep (map member_text d) ++ ["}"%char].
Proof. cbn [dumps_text]. now rewrite map_map. Qed.

Lemma dict_set_fresh (k : string) (v : pyval) (acc : pydict) :
  existsb (String.eqb k) (map fst acc) = false -> dict_set k v acc = acc ++ [(k, v)].
Proof.
  induction acc as [|[k' v'] acc IH]; [reflexivity|]. simpl. intros H.
  apply orb_false_iff in H as [Hk H]. rewrite Hk. now rewrite IH.
Qed.

Lemma keys_differ_middle (l1 l2 : list string) (k : string) :
  keys_differ (l1 ++ k :: l2) = true -> existsb (String.eqb k) l1 = false.
Proof.
  induction l1 as [|x l1 IH]; [reflexivity|]. simpl. intros H.
  apply andb_true_iff in H as [Hx H]. apply negb_true_iff in Hx.
  rewrite (IH H), orb_false_r.
  rewrite existsb_app in Hx. apply orb_false_iff in Hx as [_ Hx]. simpl in Hx.
  apply orb_false_iff in Hx as [Hx _]. now rewrite String.eqb_sym.
Qed.

Lemma member_text_shape (kv : string * pyval) (rest : text) :
  member_text kv ++ rest =
  dquote :: flat_map escape_char (chars (fst kv)) ++
    dquote :: ":"%char :: " "%char :: dumps_text false (snd kv) ++ rest.
Proof.
  unfold member_text, json_string. cbn [app]. now rewrite <- !app_assoc.
Qed.

Lemma parse_members_items (d : pydict) :
  d <> [] -> Forall (fun kv => reads_back (snd kv)) d ->
  forall fuel acc rest, (size_members d <= fuel)%nat ->
    keys_differ (map fst acc ++ map fst d) = true ->
    parse_members fuel (join item_sep (map member_text d) ++ "}"%char :: rest) acc
    = Some (PyDict (acc ++ d), rest).
Proof.
  induction d as [|[k v] d IH]; [congruence|]. intros _ Hall fuel acc rest Hfuel Hkeys.
  inversion Hall as [|? ? Hv Hd]; subst. simpl in Hv.
  destruct fuel as [|fuel]; [simpl in Hfuel; lia|].
  cbn [size_members fold_right snd] in Hfuel. fold (size_members d) in Hfuel.
  cbn [map fst] in Hkeys.
  pose proof (keys_differ_middle _ _ _ Hkeys) as Hfresh.
  destruct d as [|kv' d'].
  - cbn [map join]. rewrite member_text_shape. cbn [parse_members skip_ws fst snd].
    change (is_ws dquote) with false. cbv iota. cbn [expect].
    change (Ascii.eqb dquote dquote) with true. cbv iota.
    rewrite scan_string_body. cbn [skip_ws]. change (is_ws ":") with false. cbv iota.
    cbn [expect]. change (Ascii.eqb ":" ":") with true. cbv iota.
    rewrite parse_val_space, Hv by (try reflexivity; lia).
    cbn [skip_ws]. change (is_ws "}") with false. cbv iota.
    change (Ascii.eqb "}" ",") with false. change (Ascii.eqb "}" "}") with true.
    cbv iota. now rewrite str_chars, dict_set_fresh.
  - change (join item_sep (map member_text ((k, v) :: kv' :: d')))
      with (member_text (k, v) ++ item_sep ++ join item_sep (map member_text (kv' :: d'))).
    rewrite <- !app_assoc, member_text_shape. cbn [parse_members skip_ws fst snd].
    change (is_ws dquote) with false. cbv iota. cbn [expect].
    change (Ascii.eqb dquote dquote) with true. cbv iota.
    rewrite scan_string_body. cbn [skip_ws]. change (is_ws ":") with false. cbv iota.
    cbn [expect]. change (Ascii.eqb ":" ":") with true. cbv iota.
    change (item_sep ++ ?x) with (","%char :: " "%char :: x).
    rewrite parse_val_space, Hv by (try reflexivity; lia).
    cbn [skip_ws]. change (is_ws ",") with false. cbv iota.
    change (Ascii.eqb "," ",") with true. cbv iota.
    rewrite parse_members_space, str_chars, dict_set_fresh by exact Hfresh.
    rewrite IH; [now rewrite <- app_assoc | discriminate | exact Hd | lia |].
    rewrite map_app, <- app_assoc. exact Hkeys.
Qed.



Lemma dumps_join_opens (l : list pyval) (rest : text) :
  l <> [] -> opens_value (join item_sep (map (dumps_text false) l) ++ rest).
Proof.
  destruct l as [|x [|y l]]; [congruence | intros _; apply dumps_opens |].
  intros _.
  change (join item_sep (map (dumps_text false) (x :: y :: l)))
    with (dumps_text false x ++ item_sep ++ join item_sep (map (dumps_text false) (y :: l))).
  rewrite <- app_assoc. apply dumps_opens.
Qed.

Lemma members_join_opens (d : pydict) (rest : text) :
  d <> [] -> opens_value (join item_sep (map member_text d) ++ rest).
Proof.
  destruct d as [|x [|y d]]; [congruence | |]; intros _.
  - cbn [map join]. unfold member_text. rewrite <- app_assoc. apply json_string_opens.
  - change (join item_sep (map member_text (x :: y :: d)))
      with (member_text x ++ item_sep ++ join item_sep (map member_text (y :: d))).
    unfold member_text at 1. rewrite <- !app_assoc. apply json_string_opens.
Qed.

Lemma forallb_Forall {A : Type} (f : A -> bool) (l : list A) :
  forallb f l = true -> Forall (fun x => f x = true) l.
Proof.
  induction l as [|x l IH]; simpl; intros H; constructor;
    apply andb_true_iff in H as [H1 H2]; auto.
Qed.

(** [parse_val] reads back what [dumps_text] wrote, for every value that
    JSON carries over. *)
Lemma native_reads_back (v : pyval) :
  json_native v = true -> floats_exact v = true -> reads_back v.
Proof.
  induction v as [ | b | z | f | s | l IH | l IH | d IH] using pyval_nested_ind;
    intros Hn Hx fuel rest Hfuel Hd;
    (destruct fuel as [|fuel]; [simpl in Hfuel; lia|]).
  - reflexivity.
  - destruct b; reflexivity.
  - rewrite parse_val_number by apply int_text_start. now apply scan_number_int.
  - destruct f as [ | [] | z]; [discriminate | reflexivity | reflexivity |].
    destruct (scan_number_float z rest Hd Hx) as [Hs Hst].
    cbn [dumps_text json_float]. now rewrite parse_val_number.
  - cbn [dumps_text]. unfold json_string. cbn [app parse_val skip_ws].
    change (is_ws dquote) with false. cbv iota.
    change (Ascii.eqb dquote dquote) with true. cbv iota.
    rewrite <- app_assoc. cbn [app]. now rewrite scan_string_body, str_chars.
  - cbn [json_native] in Hn. apply forallb_Forall in Hn.
    cbn [floats_exact] in Hx. apply forallb_Forall in Hx.
    assert (Hall : Forall reads_back l).
    { clear -IH Hn Hx. induction l as [|x l IHl]; constructor;
        inversion IH; inversion Hn; inversion Hx; subst; auto. }
    cbn [dumps_text app parse_val skip_ws].
    change (is_ws "[") with false. cbv iota.
    change (Ascii.eqb "[" dquote) with false. change (Ascii.eqb "[" "[") with true.
    cbv iota. rewrite <- app_assoc. cbn [app].
    destruct l as [|x l].
    + reflexivity.
    + rewrite expect_closed; [|apply dumps_join_opens; discriminate | now left].
      cbn [size] in Hfuel.
      rewrite parse_elems_items; [reflexivity | discriminate | exact Hall |].
      unfold size_items. lia.
  - discriminate.
  - cbn [json_native] in Hn. apply andb_true_iff in Hn as [Hk Hn].
    apply forallb_Forall in Hn.
    cbn [floats_exact] in Hx. apply forallb_Forall in Hx.
    assert (Hall : Forall (fun kv => reads_back (snd kv)) d).
    { clear -IH Hn Hx. induction d as [|x d IHd]; constructor;
        inversion IH; inversion Hn; inversion Hx; subst; auto. }
    rewrite dumps_dict. cbn [app parse_val skip_ws].
    change (is_ws "{") with false. cbv iota.
    change (Ascii.eqb "{" dquote) with false. change (Ascii.eqb "{" "[") with false.
    change (Ascii.eqb "{" "{") with true. cbv iota. rewrite <- app_assoc. cbn [app].
    destruct d as [|kv d].
    + reflexivity.
    + rewrite expect_closed; [|apply members_join_opens; discriminate | now right].
      cbn [size] in Hfuel.
      rewrite parse_members_items; [reflexivity | discriminate | exact Hall | | exact Hk].
      unfold size_members. lia.
Qed.


(** The text of a value is at least as long as the fuel the value takes. *)
Lemma join_items_length (f : pyval -> text) (l : list pyval) :
  Forall (fun v => (size v <= length (f v))%nat) l ->
  (size_items l <= S (length (join item_sep (map f l))))%nat.
Proof.
  induction l as [|x l IH]; intros Hall; [simpl; lia|].
  inversion Hall as [|? ? Hx Hl]; subst. specialize (IH Hl).
  cbn [size_items fold_right] in *. fold (size_items l) in *.
  destruct l as [|y l]; [simpl in *; lia|].
  change (join item_sep (map f (x :: y :: l)))
    with (f x ++ item_sep ++ join item_sep (map f (y :: l))).
  rewrite !length_app. change (length item_sep) with 2%nat. lia.
Qed.

Lemma join_members_length (d : pydict) :
  Forall (fun kv => (size (snd kv) <= length (dumps_text false (snd kv)))%nat) d ->
  (size_members d <= S (length (join item_sep (map member_text d))))%nat.
Proof.
  induction d as [|x d IH]; intros Hall; [simpl; lia|].
  inversion Hall as [|? ? Hx Hd]; subst. specialize (IH Hd).
  cbn [size_members fold_right] in *. fold (size_members d) in *.
  assert (Hm : (size (snd x) <= length (member_text x))%nat).
  { unfold member_text. rewrite !length_app. lia. }
  destruct d as [|y d]; [simpl in *; lia|].
  change (join item_sep (map member_text (x :: y :: d)))
    with (member_text x ++ item_sep ++ join item_sep (map member_text (y :: d))).
  rewrite !length_app. change (length item_sep) with 2%nat. lia.
Qed.

Lemma N_text_length (n : N) : (1 <= length (N_text n))%nat.
Proof.
  destruct (to_uint_normal n) as [Hnil _].
  destruct (uint_text_head _ Hnil) as (c & r & Hc & _).
  unfold N_text. rewrite Hc. simpl. lia.
Qed.

Lemma size_length (v : pyval) : (size v <= length (dumps_text false v))%nat.
Proof.
  induction v as [ | b | z | f | s | l IH | l IH | d IH] using pyval_nested_ind.
  - simpl. lia.
  - destruct b; simpl; lia.
  - cbn [size dumps_text]. unfold int_text. pose proof (N_text_length (Z.abs_N z)).
    destruct (z <? 0); simpl; lia.
  - destruct f as [ | [] | z]; try (simpl; lia).
    cbn [size dumps_text json_float]. pose proof (float_repr_start z []) as H.
    rewrite app_nil_r in H. destruct (float_repr (FFin z)); [discriminate H | simpl; lia].
  - cbn [size dumps_text]. unfold json_string. simpl. lia.
  - cbn [size dumps_text]. fold (size_items l).
    pose proof (join_items_length (dumps_text false) l IH).
    cbn [length]. rewrite length_app. simpl. lia.
  - cbn [size dumps_text]. fold (size_items l).
    pose proof (join_items_length (dumps_text false) l IH).
    cbn [length]. rewrite length_app. simpl. lia.
  - rewrite dumps_dict. cbn [size]. fold (size_members d).
    pose proof (join_members_length d IH).
    cbn [length]. rewrite length_app. simpl. lia.
Qed.

(** [json.loads(json.dumps(v))] is [v], for every value that JSON carries
    over. *)
Lemma json_loads_dumps (v : pyval) :
  json_native v = true -> floats_exact v = true ->
  json_loads (json_dumps false v) = Some v.
Proof.
  intros Hn Hx. unfold json_loads, json_dumps. rewrite chars_str.
  rewrite <- (app_nil_r (dumps_text false v)) at 2.
  rewrite (native_reads_back v Hn Hx); [reflexivity | | reflexivity].
  pose proof (size_length v). lia.
Qed.



End JsonText.

(** ** Tampering that is found

    What a block hashes is the JSON text of its fields with the keys
    sorted. Two values with the same such text are equal as Python has
    it, so a change of value changes the text. *)

Section SortedText.


















End SortedText.

Section TamperingFound.
Import Core.
#[local] Opaque Sha256.hexdigest.









(** *** One field written over *)










End TamperingFound.

(** ** The wire encoding of an envelope *)

Section Envelopes.
Import Protocol.

Lemma type_of_name_name (t : MessageType) : type_of_name (type_name t) = Some t.
Proof. destruct t; reflexivity. Qed.





(** So it does on a timestamp that is not a number. *)
Example from_json_to_json_nan :
  let m := mkMessage "msg-1" EVENT "agent1" "agent2" [] FNan None in
  from_json (to_json m) = Some m /\ message_eq m m = false.
Proof. split; vm_compute; reflexivity. Qed.

End Envelopes.

(** ** More of the ledger *)

Section LedgerCoverage.
Import Core.
#[local] Opaque Sha256.hexdigest calculate_hash.

(** The block the search tries at nonce [n]. *)
Definition attempt (draft : Block) (n : Z) : Block :=
  let b := with_nonce draft n in
  with_hash b (calculate_hash b).

Lemma iter_bump_attempt (k : nat) (draft : Block) :
  nonce draft = 0 -> hash draft = calculate_hash draft ->
  Nat.iter k bump draft = attempt draft (Z.of_nat k).
Proof.
  intros Hn Hh. induction k as [|k IH].
  - destruct draft as [i t txs p n h]. simpl in *. subst n.
    unfold attempt. cbn. f_equal. exact Hh.
  - change (Nat.iter (S k) bump draft) with (bump (Nat.iter k bump draft)).
    rewrite IH. unfold bump, attempt.
    cbn [with_nonce with_hash index timestamp transactions previous_hash nonce hash].
    replace (Z.of_nat k + 1) with (Z.of_nat (S k)) by lia. reflexivity.
Qed.

Lemma search_least (fuel : nat) (d : Z) (b b' : Block) :
  search fuel d b = Some b' ->
  exists k, b' = Nat.iter k bump b /\ meets_target d b' = true
            /\ forall j, (j < k)%nat -> meets_target d (Nat.iter j bump b) = false.
Proof.
  revert b. induction fuel as [|fuel IH]; intros b; simpl;
    destruct (meets_target d b) eqn:Hb; intros H; try discriminate.
  - inversion H; subst. exists 0%nat. split; [reflexivity|]. split; [exact Hb|]. lia.
  - inversion H; subst. exists 0%nat. split; [reflexivity|]. split; [exact Hb|]. lia.
  - destruct (IH _ H) as (k & -> & Hm & Hl). exists (S k).
    rewrite <- iter_bump_shift. split; [reflexivity|]. split; [exact Hm|].
    intros [|j] Hj; [exact Hb|]. rewrite <- iter_bump_shift. apply Hl. lia.
Qed.

Lemma new_block_fresh i ts txs prev :
  nonce (new_block i ts txs prev) = 0
  /\ hash (new_block i ts txs prev) = calculate_hash (new_block i ts txs prev).
Proof. split; reflexivity. Qed.

(** What [mine_block] does when it returns a block, in one place. *)
Lemma mine_block_done (fuel : nat) (miner : string) (now : pyfloat)
    (st st' : BlockchainManager) (b : Block) :
  mine_block fuel miner now st = Done (Some b, st') ->
  exists latest,
    pending_transactions st <> []
    /\ get_latest_block st = Some latest
    /\ search fuel (difficulty st) (draft_block now latest st) = Some b
    /\ st' = seal miner b st.
Proof.
  unfold mine_block. destruct (pending_transactions st) as [|tx txs] eqn:Hp; [discriminate|].
  destruct (get_latest_block st) as [latest|]; [|discriminate].
  destruct (search fuel _ _) as [b'|] eqn:Hs; [|discriminate].
  intros H; inversion H; subst. exists latest. repeat split; auto.
Qed.

Lemma mine_block_empty (fuel : nat) (miner : string) (now : pyfloat)
    (st st' : BlockchainManager) (res : option Block) :
  mine_block fuel miner now st = Done (res, st') ->
  res = None -> st' = st.
Proof.
  unfold mine_block. destruct (pending_transactions st) as [|tx txs] eqn:Hp.
  - intros H _. now inversion H.
  - destruct (get_latest_block st); [|discriminate].
    destruct (search fuel _ _); [|discriminate]. intros H ->. inversion H.
Qed.

(** X1. The block [mine_block] returns carries the least nonce from 0 on
    whose hash meets the target: every smaller nonce was tried on the
    same draft and missed. *)
Theorem mine_block_least_nonce (fuel : nat) (miner : string) (now : pyfloat)
    (st st' : BlockchainManager) (b : Block) :
  mine_block fuel miner now st = Done (Some b, st') ->
  exists latest,
    get_latest_block st = Some latest
    /\ 0 <= nonce b
    /\ b = attempt (draft_block now latest st) (nonce b)
    /\ meets_target (difficulty st) b = true
    /\ forall n, 0 <= n < nonce b ->
         meets_target (difficulty st) (attempt (draft_block now latest st) n) = false.
Proof.
  intros Hm. destruct (mine_block_done _ _ _ _ _ _ Hm) as (latest & _ & Hl & Hs & _).
  exists latest. split; [exact Hl|].
  destruct (search_least _ _ _ _ Hs) as (k & Hk & Ht & Hleast).
  destruct (new_block_fresh (Z.of_nat (length (chain st))) now (pending_transactions st)
              (hash latest)) as [Hn Hh].
  fold (draft_block now latest st) in Hn, Hh.
  assert (Hnonce : nonce b = Z.of_nat k).
  { rewrite Hk, iter_bump_attempt by assumption. reflexivity. }
  rewrite Hnonce. split; [lia|]. split; [|split; [exact Ht|]].
  - rewrite Hk. now apply iter_bump_attempt.
  - intros n Hn'. rewrite <- (Z2Nat.id n) by lia.
    rewrite <- iter_bump_attempt by assumption. apply Hleast. lia.
Qed.

Lemma mine_block_least_nonce_mined :
  exists b st',
    mine_block 3 "m1" (FFin 1700000014750000) one_recorded = Done (Some b, st')
    /\ nonce b = 3
    /\ exists latest,
         get_latest_block one_recorded = Some latest
         /\ 0 <= nonce b
         /\ b = attempt (draft_block (FFin 1700000014750000) latest one_recorded) (nonce b)
         /\ meets_target (difficulty one_recorded) b = true
         /\ forall n, 0 <= n < nonce b ->
              meets_target (difficulty one_recorded)
                (attempt (draft_block (FFin 1700000014750000) latest one_recorded) n) = false.
Proof.
  assert (H : exists b st',
    mine_block 3 "m1" (FFin 1700000014750000) one_recorded = Done (Some b, st')
    /\ nonce b = 3).
  { eexists. eexists. split; vm_compute; reflexivity. }
  destruct H as (b & st' & Hm & Hn). exists b, st'. split; [exact Hm|]. split; [exact Hn|].
  exact (mine_block_least_nonce _ _ _ _ _ _ Hm).
Defined.


(** *** What every chain keeps *)

Definition is_record (tx : pydict) : Prop :=
  exists data new_id t, tx = record_of data new_id t.

Definition is_reward (st : BlockchainManager) (tx : pydict) : Prop :=
  exists miner, tx = reward_of miner st.

Record shaped (st : BlockchainManager) : Prop := mkShaped {
  shaped_index : forall i b, chain st !! i = Some b -> index b = Z.of_nat i;
  shaped_mined : forall i b, (1 <= i)%nat -> chain st !! i = Some b ->
    meets_target (difficulty st) b = true /\ hash b = calculate_hash b
    /\ transactions b <> [];
  shaped_reward : forall i b, (2 <= i)%nat -> chain st !! i = Some b ->
    exists miner, head (transactions b) = Some (reward_of miner st);
  shaped_pool : (2 <= length (chain st))%nat ->
    exists miner, head (pending_transactions st) = Some (reward_of miner st);
  shaped_made : forall tx,
    (In tx (pending_transactions st)
     \/ exists i b, chain st !! i = Some b /\ In tx (transactions b)) ->
    is_record tx \/ is_reward st tx;
  shaped_genesis : exists g, chain st !! 0%nat = Some g /\ transactions g = []
}.

Lemma iter_bump_timestamp (n : nat) (b : Block) :
  timestamp (Nat.iter n bump b) = timestamp b.
Proof. induction n as [|n IH]; [reflexivity|]. exact IH. Qed.

Lemma head_snoc {A : Type} (l : list A) (x y : A) :
  head l = Some x -> head (l ++ [y]) = Some x.
Proof. destruct l; [discriminate|]. auto. Qed.

Lemma lookup_snoc {A : Type} (l : list A) (x y : A) (i : nat) :
  (l ++ [x]) !! i = Some y ->
  l !! i = Some y \/ (i = length l /\ y = x).
Proof.
  intros H. apply lookup_app_Some in H as [H | [Hl H]]; [now left|].
  right. destruct (i - length l)%nat as [|k] eqn:Hk; simpl in H; [|destruct k; discriminate].
  inversion H. split; [lia | reflexivity].
Qed.

Lemma reachable_shaped (st : BlockchainManager) : reachable st -> shaped st.
Proof.
  induction 1 as [d now | st data new_id now _ IH | st fuel miner now res st' _ IH Hm].
  - constructor.
    + intros [|[|i]] b H; try discriminate. now inversion H.
    + intros [|[|i]] b Hi H; try discriminate. lia.
    + intros [|[|i]] b Hi H; try discriminate; lia.
    + simpl. lia.
    + intros tx [[] | (i & b & H & Hin)]. destruct i as [|[|i]]; try discriminate.
      inversion H; subst. destruct Hin.
    + eexists. split; reflexivity.
  - destruct IH as [Hi Hmd Hr Hp Hmk Hg]. constructor; simpl; auto.
    + intros Hl. destruct (Hp Hl) as (m & Hm). exists m. now apply head_snoc.
    + intros tx [Hin | Hin].
      * apply in_app_or in Hin as [Hin | [<- | []]]; [apply Hmk; now left|].
        left. now exists data, new_id, now.
      * apply Hmk. now right.
  - destruct res as [b|]; [|now rewrite (mine_block_empty _ _ _ _ _ _ Hm eq_refl)].
    destruct (mine_block_done _ _ _ _ _ _ Hm) as (latest & Hne & Hl & Hs & ->).
    destruct IH as [Hi Hmd Hr Hp Hmk Hg].
    destruct (search_sound _ _ _ _ Hs) as (k & Hk & Ht).
    destruct (iter_bump_fields k (draft_block now latest st)) as (Hbi & Hbt & _ & Hbh).
    rewrite <- Hk in Hbi, Hbt, Hbh. specialize (Hbh eq_refl).
    cbn [draft_block new_block with_hash index transactions] in Hbi, Hbt.
    assert (Hlen : (1 <= length (chain st))%nat).
    { destruct Hg as (g & Hg & _). apply lookup_lt_Some in Hg. lia. }
    constructor; cbn [seal with_pending with_chain chain pending_transactions difficulty].
    + intros i b' H. apply lookup_snoc in H as [H | [-> ->]]; [exact (Hi i b' H) | exact Hbi].
    + intros i b' Hi1 H. apply lookup_snoc in H as [H | [-> ->]]; [exact (Hmd i b' Hi1 H)|].
      split; [exact Ht|]. split; [exact Hbh|]. now rewrite Hbt.
    + intros i b' Hi2 H. apply lookup_snoc in H as [H | [-> ->]]; [exact (Hr i b' Hi2 H)|].
      rewrite Hbt. apply Hp. exact Hi2.
    + intros _. now exists miner.
    + intros tx [[<- | []] | (i & b' & H & Hin)]; [right; now exists miner|].
      apply lookup_snoc in H as [H | [-> ->]].
      * apply Hmk. right. now exists i, b'.
      * rewrite Hbt in Hin. apply Hmk. now left.
    + destruct Hg as (g & Hg & Hgt). exists g. split; [|exact Hgt].
      now apply lookup_app_l_Some.
Qed.

(** A third block: the reward for the second, mined on its own (nonce 0
    at difficulty 1). *)
Definition two_mined : BlockchainManager :=
  state_after (mine_block 0 "m2" (FFin 1700000020000000) one_mined) one_mined.

Lemma two_mined_reachable : reachable two_mined.
Proof.
  apply (reach_mine one_mined 0 "m2" (FFin 1700000020000000)
           (get_latest_block two_mined)).
  - exact one_mined_reachable.
  - vm_compute. reflexivity.
Qed.

Lemma two_mined_length : length (chain two_mined) = 3%nat.
Proof. vm_compute. reflexivity. Qed.

(** X2. In a chain built by the constructor, [record_transaction] and
    [mine_block], the block at position [i] has index [i]. *)
Theorem chain_indexes (st : BlockchainManager) :
  reachable st ->
  forall i b, chain st !! i = Some b -> index b = Z.of_nat i.
Proof. intros Hr. exact (shaped_index st (reachable_shaped st Hr)). Qed.

Lemma chain_indexes_mined :
  reachable two_mined
  /\ length (chain two_mined) = 3%nat
  /\ forall i b, chain two_mined !! i = Some b -> index b = Z.of_nat i.
Proof.
  split; [exact two_mined_reachable|]. split; [exact two_mined_length|].
  exact (chain_indexes two_mined two_mined_reachable).
Defined.

(** X3. Every block past the genesis block of such a chain was mined:
    it stores the hash of its own fields, that hash meets the manager's
    target, and it holds at least one transaction. *)
Theorem mined_blocks_meet_target (st : BlockchainManager) :
  reachable st ->
  forall i b, (1 <= i)%nat -> chain st !! i = Some b ->
    meets_target (difficulty st) b = true /\ hash b = calculate_hash b
    /\ transactions b <> [].
Proof. intros Hr. exact (shaped_mined st (reachable_shaped st Hr)). Qed.

Lemma mined_blocks_meet_target_mined :
  reachable two_mined
  /\ length (chain two_mined) = 3%nat
  /\ forall i b, (1 <= i)%nat -> chain two_mined !! i = Some b ->
       meets_target (difficulty two_mined) b = true /\ hash b = calculate_hash b
       /\ transactions b <> [].
Proof.
  split; [exact two_mined_reachable|]. split; [exact two_mined_length|].
  exact (mined_blocks_meet_target two_mined two_mined_reachable).
Defined.

(** X4. The reward for a block is paid in the next one: once a block has
    been mined the pool is never empty again, its first entry is a
    reward record, and so is the first transaction of every block from
    index 2 on. *)
Theorem reward_opens_next_block (st : BlockchainManager) :
  reachable st ->
  ((2 <= length (chain st))%nat ->
   exists miner, head (pending_transactions st) = Some (reward_of miner st))
  /\ forall i b, (2 <= i)%nat -> chain st !! i = Some b ->
       exists miner, head (transactions b) = Some (reward_of miner st).
Proof.
  intros Hr. destruct (reachable_shaped st Hr) as [_ _ Hrw Hp _ _]. split; assumption.
Qed.

Lemma reward_opens_next_block_mined :
  reachable two_mined
  /\ length (chain two_mined) = 3%nat
  /\ pending_transactions two_mined = [reward_of "m2" two_mined]
  /\ ((2 <= length (chain two_mined))%nat ->
      exists miner, head (pending_transactions two_mined) = Some (reward_of miner two_mined))
  /\ forall i b, (2 <= i)%nat -> chain two_mined !! i = Some b ->
       exists miner, head (transactions b) = Some (reward_of miner two_mined).
Proof.
  split; [exact two_mined_reachable|]. split; [exact two_mined_length|].
  split; [vm_compute; reflexivity|].
  exact (reward_opens_next_block two_mined two_mined_reachable).
Defined.

(** *** Looking a transaction up *)

Definition entries (transaction_id : option string) (b : Block) :
  list (Z * pyfloat * pydict) :=
  map (fun tx => (index b, timestamp b, tx))
      (filter (fun tx => id_matches transaction_id tx = true) (transactions b)).

Lemma get_transaction_history_snoc (transaction_id : option string)
    (st : BlockchainManager) (b : Block) :
  get_transaction_history transaction_id (with_chain st (chain st ++ [b])) =
  get_transaction_history transaction_id st ++ entries transaction_id b.
Proof.
  unfold get_transaction_history. cbn [with_chain chain].
  rewrite flat_map_app. cbn [flat_map]. now rewrite app_nil_r.
Qed.

(** Mining moves the pending records that match into the history, under
    the index and the time of the new block. *)
Lemma get_transaction_history_mined (fuel : nat) (miner : string) (now : pyfloat)
    (st st' : BlockchainManager) (b : Block) (transaction_id : option string) :
  mine_block fuel miner now st = Done (Some b, st') ->
  get_transaction_history transaction_id st' =
  get_transaction_history transaction_id st
  ++ map (fun tx => (Z.of_nat (length (chain st)), now, tx))
         (filter (fun tx => id_matches transaction_id tx = true) (pending_transactions st)).
Proof.
  intros Hm. destruct (mine_block_done _ _ _ _ _ _ Hm) as (latest & _ & _ & Hs & ->).
  destruct (search_sound _ _ _ _ Hs) as (k & Hk & _).
  destruct (iter_bump_fields k (draft_block now latest st)) as (Hbi & Hbt & _ & _).
  pose proof (iter_bump_timestamp k (draft_block now latest st)) as Hbs.
  rewrite <- Hk in Hbi, Hbt, Hbs.
  cbn [draft_block new_block with_hash index transactions timestamp] in Hbi, Hbt, Hbs.
  unfold seal.
  change (get_transaction_history transaction_id
            (with_pending (with_chain st (chain st ++ [b])) [reward_of miner st]))
    with (get_transaction_history transaction_id (with_chain st (chain st ++ [b]))).
  rewrite get_transaction_history_snoc. unfold entries. now rewrite Hbi, Hbt, Hbs.
Qed.

(** X5. A transaction recorded under an id that nothing in the chain or
    the pool carries, and then mined, is found under that id exactly
    once: with the index of the new block (the length of the chain
    before), the time of the mining and the record as it was made. *)
Theorem recorded_then_mined_is_found (st st' : BlockchainManager) (data : pydict)
    (new_id : string) (t1 t2 : pyfloat) (fuel : nat) (miner : string) (b : Block) :
  get_transaction_history (Some new_id) st = [] ->
  Forall (fun tx => id_matches (Some new_id) tx = false) (pending_transactions st) ->
  mine_block fuel miner t2 (fst (record_transaction data new_id t1 st)) = Done (Some b, st') ->
  get_transaction_history (Some new_id) st' =
    [(Z.of_nat (length (chain st)), t2, record_of data new_id t1)].
Proof.
  intros Hh Hp Hm. rewrite (get_transaction_history_mined _ _ _ _ _ _ _ Hm).
  cbn [record_transaction fst with_pending chain pending_transactions].
  change (get_transaction_history (Some new_id)
            (with_pending st (pending_transactions st ++ [record_of data new_id t1])))
    with (get_transaction_history (Some new_id) st).
  rewrite Hh, filter_app. cbn [app].
  assert (Hnone : filter (fun tx => id_matches (Some new_id) tx = true)
                         (pending_transactions st) = []).
  { clear -Hp. induction Hp as [|tx txs Htx _ IH]; [reflexivity|].
    rewrite filter_cons_False; [exact IH | congruence]. }
  rewrite Hnone. cbn [app].
  assert (Hid : id_matches (Some new_id) (record_of data new_id t1) = true).
  { destruct new_id as [|a s]; [reflexivity|]. exact (String.eqb_refl (String a s)). }
  rewrite filter_cons_True by exact Hid. reflexivity.
Qed.

Lemma recorded_then_mined_is_found_once :
  let st := init 1 (FFin 1700000000000000) in
  get_transaction_history (Some "tx-1") st = []
  /\ Forall (fun tx => id_matches (Some "tx-1") tx = false) (pending_transactions st)
  /\ exists b st',
       mine_block 3 "m1" (FFin 1700000014750000)
         (fst (record_transaction [("amount", PyInt 10)] "tx-1" (FFin 1700000001000000) st))
       = Done (Some b, st')
       /\ get_transaction_history (Some "tx-1") st' =
            [(Z.of_nat (length (chain st)), FFin 1700000014750000,
              record_of [("amount", PyInt 10)] "tx-1" (FFin 1700000001000000))].
Proof.
  cbv zeta.
  assert (H1 : get_transaction_history (Some "tx-1") (init 1 (FFin 1700000000000000)) = [])
    by reflexivity.
  assert (H2 : Forall (fun tx => id_matches (Some "tx-1") tx = false)
                      (pending_transactions (init 1 (FFin 1700000000000000))))
    by constructor.
  assert (H3 : exists b st',
    mine_block 3 "m1" (FFin 1700000014750000)
      (fst (record_transaction [("amount", PyInt 10)] "tx-1" (FFin 1700000001000000)
              (init 1 (FFin 1700000000000000)))) = Done (Some b, st')).
  { eexists. eexists. vm_compute. reflexivity. }
  destruct H3 as (b & st' & Hm).
  split; [exact H1|]. split; [exact H2|]. exists b, st'. split; [exact Hm|].
  exact (recorded_then_mined_is_found _ _ _ _ _ _ _ _ _ H1 H2 Hm).
Defined.

(** *** What [is_chain_valid] does not look at *)

Lemma hash_stored i t txs p n h : hash (mkBlock i t txs p n h) = h.
Proof. reflexivity. Qed.


(** X6. The first block is never checked: whatever is written over it,
    index, time and transactions, a chain that was built by the manager
    is still found valid as long as the hash the block stores is left
    alone. *)
Theorem genesis_rewrite_undetected (st : BlockchainManager) (g g' : Block)
    (rest : list Block) :
  reachable st -> chain st = g :: rest -> hash g' = hash g ->
  is_chain_valid (with_chain st (g' :: rest)) = true.
Proof.
  intros Hr Hc Hh. destruct (reachable_well_linked st Hr) as (g0 & rest0 & Hc0 & Hl).
  rewrite Hc in Hc0. inversion Hc0; subst g0 rest0.
  rewrite is_chain_valid_links. cbn [with_chain chain].
  now rewrite (links_ok_hash g' g rest Hh).
Qed.

Lemma genesis_rewrite_undetected_mined :
  let g := new_block 0 (FFin 1700000000000000) [] "0" in
  let g' := mkBlock 7 (FFin 0) [[("amount", PyInt 1000000)]] "f" 9 (hash g) in
  exists rest,
    reachable one_mined /\ chain one_mined = g :: rest /\ hash g' = hash g
    /\ index g' <> index g
    /\ is_chain_valid (with_chain one_mined (g' :: rest)) = true.
Proof.
  cbv zeta.
  assert (H : exists rest,
    chain one_mined = new_block 0 (FFin 1700000000000000) [] "0" :: rest).
  { eexists. vm_compute. reflexivity. }
  destruct H as (rest & Hc). exists rest.
  split; [exact one_mined_reachable|]. split; [exact Hc|].
  split; [apply hash_stored|]. split; [discriminate|].
  exact (genesis_rewrite_undetected one_mined _ _ rest one_mined_reachable Hc
           (hash_stored _ _ _ _ _ _)).
Defined.

(** [block.transactions = txs; block.hash = block.calculate_hash()]:
    a block written over and hashed again, with no search. *)
Definition forge (txs : list pydict) (b : Block) : Block :=
  let b' := with_transactions b txs in
  with_hash b' (calculate_hash b').

(** X7. Nor is the target checked, or anything that comes after the last
    block: the last block of a chain can be written over and hashed
    again, with no mining, and the chain is still found valid. *)
Theorem forged_last_block_accepted (st : BlockchainManager) (c : list Block)
    (b : Block) (txs : list pydict) :
  reachable st -> chain st = c ++ [b] ->
  is_chain_valid (with_chain st (c ++ [forge txs b])) = true.
Proof.
  intros Hr Hc. destruct (reachable_well_linked st Hr) as (g & rest & Hc0 & Hl).
  rewrite is_chain_valid_links. cbn [with_chain chain].
  rewrite Hc in Hc0. destruct c as [|g1 c].
  - reflexivity.
  - cbn [app] in *. inversion Hc0 as [[Hg Hrest]]. subst g1. rewrite <- Hrest in Hl.
    rewrite links_ok_snoc in *. apply andb_true_iff in Hl as [Hl1 Hl2].
    rewrite Hl1. cbn [andb]. unfold link_ok in *.
    apply andb_true_iff in Hl2 as [_ Hp].
    unfold forge. cbn [with_hash with_transactions hash previous_hash].
    rewrite calculate_hash_with_hash, String.eqb_refl. exact Hp.
Qed.

Lemma forged_last_block_accepted_mined :
  exists c b,
    reachable one_mined /\ chain one_mined = c ++ [b]
    /\ transactions (forge [[("amount", PyInt 1000000)]] b) <> transactions b
    /\ is_chain_valid (with_chain one_mined (c ++ [forge [[("amount", PyInt 1000000)]] b]))
       = true.
Proof.
  assert (H : exists g b, chain one_mined = [g] ++ [b]
                          /\ transactions b =
                             [record_of [("amount", PyInt 10)] "tx-1" (FFin 1700000001000000)]).
  { eexists. eexists. split; vm_compute; reflexivity. }
  destruct H as (g & b & Hc & Ht). exists [g], b.
  split; [exact one_mined_reachable|]. split; [exact Hc|].
  split; [cbn [forge with_hash with_transactions transactions]; rewrite Ht; discriminate|].
  exact (forged_last_block_accepted one_mined [g] b _ one_mined_reachable Hc).
Defined.

End LedgerCoverage.

(** ** The chain validator on the manager's blocks *)

Section ChainValidatorFacts.
Import Core Validation.

(** The six attributes of a block by name, as [validate_block] and
    [validate_chain] read them. *)
Definition block_dict (b : Block) : pydict :=
  [("index", PyInt (index b));
   ("timestamp", PyFloat (timestamp b));
   ("transactions", PyList (map PyDict (transactions b)));
   ("previous_hash", PyStr (previous_hash b));
   ("nonce", PyInt (nonce b));
   ("hash", PyStr (hash b))].

(** The validator hashes what [Block.calculate_hash] hashes. *)
Lemma validate_block_hash_dict (d : Z) (b : Block) :
  validate_block_hash d (block_dict b) =
  String.eqb (hash b) (calculate_hash b) && meets_target d b.
Proof. reflexivity. Qed.

#[local] Opaque Sha256.hexdigest calculate_hash.

Definition transaction_ok (now : pyfloat) (tx : pydict) : bool :=
  match validate_transaction now (PyDict tx) with
  | Some true => true
  | _ => false
  end.

Lemma validate_all_dicts (now : pyfloat) (txs : list pydict) :
  validate_all now (map PyDict txs) = Some (forallb (transaction_ok now) txs).
Proof.
  induction txs as [|tx txs IH]; [reflexivity|].
  cbn [map validate_all forallb]. unfold transaction_ok at 1.
  destruct (validate_transaction_dict now tx) as [[] ->]; [exact IH | reflexivity].
Qed.

Lemma validate_block_against_str (d : Z) (now : pyfloat) (block : pydict) (h : string) :
  validate_block_against d now block (PyStr h) = validate_block d now block h.
Proof. reflexivity. Qed.

(** [validate_block] on the attributes of a block, transaction by
    transaction. *)
Lemma validate_block_dict (d : Z) (now : pyfloat) (b : Block) (prev : string) :
  validate_block d now (block_dict b) prev =
  Some (String.eqb (previous_hash b) prev
        && (String.eqb (hash b) (calculate_hash b) && meets_target d b)
        && forallb (transaction_ok now) (transactions b)).
Proof.
  unfold validate_block.
  change (validate_block_structure (block_dict b)) with true.
  change (item "previous_hash" (block_dict b)) with (PyStr (previous_hash b)).
  change (item "transactions" (block_dict b)) with (PyList (map PyDict (transactions b))).
  rewrite validate_block_hash_dict. cbn [negb py_eq].
  destruct (String.eqb (previous_hash b) prev); [|reflexivity].
  destruct (String.eqb (hash b) (calculate_hash b) && meets_target d b); [|reflexivity].
  cbn [negb andb]. apply validate_all_dicts.
Qed.

(** What [validate_transaction] asks of a record: the four fields, and
    a timestamp that is a number and not after the clock. *)
Lemma transaction_ok_fields (now : pyfloat) (tx : pydict) :
  transaction_ok now tx =
  forallb (fun field => dict_mem field tx) ["id"; "timestamp"; "type"; "data"]
  && match dict_get "timestamp" tx with
     | Some (PyInt z) => negb (float_ltb now (FFin (z * micro)))
     | Some (PyBool t) => negb (float_ltb now (FFin (if t then micro else 0)))
     | Some (PyFloat x) => negb (float_ltb now x)
     | _ => false
     end.
Proof.
  unfold transaction_ok, validate_transaction, check_required_fields, transaction_fields.
  destruct (forallb (fun field => dict_mem field tx) ["id"; "timestamp"; "type"; "data"])
    eqn:Hf; cbn [negb andb]; [|reflexivity].
  cbn [forallb] in Hf. apply andb_true_iff in Hf as [_ Hf].
  apply andb_true_iff in Hf as [Hts _]. unfold dict_mem in Hts.
  destruct (dict_get "timestamp" tx) as [ts|]; [|discriminate].
  destruct ts as [ | t | z | x | | | | ]; cbn [num_of]; try reflexivity;
    destruct (float_ltb now _); reflexivity.
Qed.

(** X8. On the attributes of a block, [validate_block] always returns,
    and returns true exactly when the block names the expected
    predecessor, stores the hash of its fields, meets the validator's
    target, and every transaction has the fields id, timestamp, type
    and data, with a timestamp that is an [int], a [bool] or a [float]
    and is not greater than the clock. *)
Theorem validate_block_of_block (d : Z) (now : pyfloat) (b : Block) (prev : string) :
  validate_block d now (block_dict b) prev =
  Some (String.eqb (previous_hash b) prev
        && (String.eqb (hash b) (calculate_hash b) && String.prefix (zeros d) (hash b))
        && forallb (fun tx =>
             forallb (fun field => dict_mem field tx) ["id"; "timestamp"; "type"; "data"]
             && match dict_get "timestamp" tx with
                | Some (PyInt z) => negb (float_ltb now (FFin (z * micro)))
                | Some (PyBool t) => negb (float_ltb now (FFin (if t then micro else 0)))
                | Some (PyFloat x) => negb (float_ltb now x)
                | _ => false
                end)
             (transactions b)).
Proof.
  rewrite validate_block_dict. unfold meets_target. do 2 f_equal.
  induction (transactions b) as [|tx txs IH]; [reflexivity|].
  cbn [forallb]. now rewrite transaction_ok_fields, IH.
Qed.

Lemma validate_pairs_cons (d : Z) (now : pyfloat) (p cur : pydict) (rest : list pydict) :
  validate_pairs d now p (cur :: rest) =
  match dict_get "hash" p with
  | None => None
  | Some previous_hash =>
      match validate_block_against d now cur previous_hash with
      | Some true =>
          match validate_block_sequence cur p with
          | Some true => validate_pairs d now cur rest
          | r => r
          end
      | r => r
      end
  end.
Proof. reflexivity. Qed.

Lemma transaction_ok_made (now : pyfloat) (st : BlockchainManager) (tx : pydict) :
  is_record tx \/ is_reward st tx -> transaction_ok now tx = false.
Proof. intros [(data & i & t & ->) | (miner & ->)]; reflexivity. Qed.

(** X9. The chain validator and the manager do not agree: a chain built
    by the constructor, [record_transaction] and [mine_block] that holds
    a mined block is refused by [validate_chain], whatever the
    validator's target and clock, since the first mined block holds
    records that lack a field the validator requires. *)
Theorem validate_chain_refuses_mined (st : BlockchainManager) (d : Z) (now : pyfloat) :
  reachable st -> (2 <= length (chain st))%nat ->
  validate_chain d now (map block_dict (chain st)) = Some false.
Proof.
  intros Hr Hlen. destruct (reachable_shaped st Hr) as [_ Hmd _ _ Hmk _].
  destruct (chain st) as [|g [|b1 rest]] eqn:Hc; simpl in Hlen; try lia.
  cbn [map validate_chain]. rewrite validate_pairs_cons.
  change (dict_get "hash" (block_dict g)) with (Some (PyStr (hash g))). cbv beta iota.
  rewrite validate_block_against_str, validate_block_dict.
  destruct (Hmd 1%nat b1 (le_n 1) eq_refl) as (_ & _ & Hne).
  assert (Hbad : forallb (transaction_ok now) (transactions b1) = false).
  { destruct (transactions b1) as [|tx txs] eqn:Ht; [congruence|].
    cbn [forallb]. rewrite (transaction_ok_made now st tx); [reflexivity|].
    apply Hmk. right. exists 1%nat, b1. split; [reflexivity|]. rewrite Ht. now left. }
  rewrite Hbad, andb_false_r. reflexivity.
Qed.

Lemma validate_chain_refuses_mined_one :
  reachable one_mined /\ (2 <= length (chain one_mined))%nat
  /\ is_chain_valid one_mined = true
  /\ validate_chain 1 (FFin 1800000000000000) (map block_dict (chain one_mined)) = Some false.
Proof.
  assert (Hlen : (2 <= length (chain one_mined))%nat).
  { assert (H : length (chain one_mined) = 2%nat) by (vm_compute; reflexivity).
    rewrite H. constructor. }
  split; [exact one_mined_reachable|]. split; [exact Hlen|].
  split; [vm_compute; reflexivity|].
  exact (validate_chain_refuses_mined one_mined 1 (FFin 1800000000000000)
           one_mined_reachable Hlen).
Defined.

(** X10. [validate_chain] reads three things of the first block, its
    hash, index and timestamp: two chains whose first blocks hold the
    same values under these three keys and that are the same from the
    second block on get the same verdict, whatever else the first block
    holds or lacks. A chain of one block is accepted whatever the block
    is. *)
Theorem validate_chain_first_block (d : Z) (now : pyfloat) (g g' : pydict)
    (rest : list pydict) :
  dict_get "hash" g' = dict_get "hash" g ->
  dict_get "index" g' = dict_get "index" g ->
  dict_get "timestamp" g' = dict_get "timestamp" g ->
  validate_chain d now (g' :: rest) = validate_chain d now (g :: rest)
  /\ validate_chain d now [g'] = Some true.
Proof.
  intros Hh Hi Ht. split; [|reflexivity].
  destruct rest as [|b rest]; [reflexivity|].
  cbn [validate_chain]. rewrite !validate_pairs_cons.
  unfold validate_block_sequence, num_item.
  now rewrite Hh, Hi, Ht.
Qed.

(** Two blocks as dicts, the second with one update record, hashed with
    no target to meet. *)
Definition first_dict : pydict :=
  block_dict (new_block 0 (FFin 1700000000000000) [] "0").

Definition second_dict : pydict :=
  block_dict (new_block 1 (FFin 1700000010000000)
                [update_of [("amount", PyInt 10)] "tx-1" (FFin 1700000001000000)]
                (hash (new_block 0 (FFin 1700000000000000) [] "0"))).

(** The three keys of the first, and nothing else. *)
Definition bare_dict : pydict :=
  [("timestamp", item "timestamp" first_dict); ("index", item "index" first_dict);
   ("hash", item "hash" first_dict)].

Lemma validate_chain_first_block_bare :
  dict_get "hash" bare_dict = dict_get "hash" first_dict
  /\ dict_get "index" bare_dict = dict_get "index" first_dict
  /\ dict_get "timestamp" bare_dict = dict_get "timestamp" first_dict
  /\ validate_block_structure bare_dict = false
  /\ validate_chain 0 (FFin 1800000000000000) [first_dict; second_dict] = Some true
  /\ validate_chain 0 (FFin 1800000000000000) [bare_dict; second_dict]
     = validate_chain 0 (FFin 1800000000000000) [first_dict; second_dict]
  /\ validate_chain 0 (FFin 1800000000000000) [bare_dict] = Some true.
Proof.
  assert (H1 : dict_get "hash" bare_dict = dict_get "hash" first_dict)
    by (vm_compute; reflexivity).
  assert (H2 : dict_get "index" bare_dict = dict_get "index" first_dict)
    by (vm_compute; reflexivity).
  assert (H3 : dict_get "timestamp" bare_dict = dict_get "timestamp" first_dict)
    by (vm_compute; reflexivity).
  split; [exact H1|]. split; [exact H2|]. split; [exact H3|].
  split; [vm_compute; reflexivity|]. split; [vm_compute; reflexivity|].
  exact (validate_chain_first_block 0 (FFin 1800000000000000) first_dict bare_dict
           [second_dict] H1 H2 H3).
Defined.

(** *** What an accepted chain is *)

Lemma float_ltb_trans (x y z : pyfloat) :
  float_ltb x y = true -> float_ltb y z = true -> float_ltb x z = true.
Proof.
  destruct x as [|[]|a], y as [|[]|b], z as [|[]|c]; simpl; try congruence.
  intros H1 H2. apply Z.ltb_lt in H1, H2. apply Z.ltb_lt. lia.
Qed.

Lemma float_leb_false (x y : pyfloat) :
  x <> FNan -> y <> FNan -> float_leb x y = false -> float_ltb y x = true.
Proof.
  unfold float_leb. destruct x as [|[]|a], y as [|[]|b]; simpl; try congruence.
  intros _ _ H. apply orb_false_iff in H as [H1 H2].
  apply Z.ltb_ge in H1. apply Z.eqb_neq in H2. apply Z.ltb_lt. lia.
Qed.

Definition timestamp_is_number (b : pydict) : Prop :=
  num_item "timestamp" b <> Some FNan.

Lemma validate_pairs_increasing (d : Z) (now : pyfloat) (p : pydict) (rest : list pydict) :
  validate_pairs d now p rest = Some true ->
  timestamp_is_number p -> Forall timestamp_is_number rest ->
  forall j bj, rest !! j = Some bj ->
    exists tp tj, num_item "timestamp" p = Some tp /\ num_item "timestamp" bj = Some tj
                  /\ float_ltb tp tj = true.
Proof.
  revert p. induction rest as [|cur rest IH]; intros p Hv Hp Hall j bj Hj; [discriminate|].
  rewrite validate_pairs_cons in Hv.
  destruct (dict_get "hash" p) as [ph|]; [|discriminate].
  destruct (validate_block_against d now cur ph) as [[]|]; try discriminate.
  destruct (validate_block_sequence cur p) as [[]|] eqn:Hs; try discriminate.
  inversion Hall as [|? ? Hcur Hrest]; subst.
  assert (Hstep : exists tp tc, num_item "timestamp" p = Some tp
                                /\ num_item "timestamp" cur = Some tc
                                /\ float_ltb tp tc = true).
  { unfold validate_block_sequence in Hs.
    destruct (dict_get "index" cur); [|discriminate].
    destruct (dict_get "index" p) as [pi|]; [|discriminate].
    destruct (index_succ pi); [|discriminate].
    destruct (negb _); [discriminate|].
    destruct (num_item "timestamp" cur) as [tc|] eqn:Hc; [|discriminate].
    destruct (num_item "timestamp" p) as [tp|] eqn:Hpt; [|discriminate].
    destruct (float_leb tc tp) eqn:Hle; [discriminate|].
    exists tp, tc. split; [reflexivity|]. split; [reflexivity|].
    apply float_leb_false; [| |exact Hle].
    - intros ->. now apply Hcur.
    - intros ->. now apply Hp. }
  destruct j as [|j].
  - inversion Hj; subst. exact Hstep.
  - destruct Hstep as (tp & tc & Htp & Htc & Hlt).
    destruct (IH cur Hv Hcur Hrest j bj Hj) as (tc' & tj & Htc' & Htj & Hlt').
    rewrite Htc in Htc'. inversion Htc'; subst tc'.
    exists tp, tj. split; [exact Htp|]. split; [exact Htj|].
    exact (float_ltb_trans _ _ _ Hlt Hlt').
Qed.

(** X11. In a chain that [validate_chain] accepts and whose timestamps
    are numbers, they rise strictly along the chain: every block is
    later than every block before it. *)
Theorem validate_chain_increasing (d : Z) (now : pyfloat) (chain : list pydict) :
  validate_chain d now chain = Some true ->
  Forall timestamp_is_number chain ->
  forall i j bi bj, (i < j)%nat -> chain !! i = Some bi -> chain !! j = Some bj ->
    exists ti tj, num_item "timestamp" bi = Some ti /\ num_item "timestamp" bj = Some tj
                  /\ float_ltb ti tj = true.
Proof.
  induction chain as [|g rest IH]; intros Hv Hall i j bi bj Hij Hi Hj; [discriminate|].
  inversion Hall as [|? ? Hg Hrest]; subst.
  destruct j as [|j]; [lia|]. cbn [validate_chain] in Hv.
  destruct i as [|i].
  - inversion Hi; subst. exact (validate_pairs_increasing d now bi rest Hv Hg Hrest j bj Hj).
  - apply (IH) with (i := i) (j := j); try assumption; [|lia].
    destruct rest as [|cur rest']; [reflexivity|].
    rewrite validate_pairs_cons in Hv. cbn [validate_chain].
    destruct (dict_get "hash" g); [|discriminate].
    destruct (validate_block_against d now cur p) as [[]|]; try discriminate.
    destruct (validate_block_sequence cur g) as [[]|]; try discriminate.
    exact Hv.
Qed.

Lemma validate_chain_increasing_two :
  validate_chain 0 (FFin 1800000000000000) [first_dict; second_dict] = Some true
  /\ Forall timestamp_is_number [first_dict; second_dict]
  /\ forall i j bi bj, (i < j)%nat -> [first_dict; second_dict] !! i = Some bi ->
       [first_dict; second_dict] !! j = Some bj ->
       exists ti tj, num_item "timestamp" bi = Some ti /\ num_item "timestamp" bj = Some tj
                     /\ float_ltb ti tj = true.
Proof.
  assert (H1 : validate_chain 0 (FFin 1800000000000000) [first_dict; second_dict] = Some true)
    by (vm_compute; reflexivity).
  assert (H2 : Forall timestamp_is_number [first_dict; second_dict]).
  { repeat constructor; discriminate. }
  split; [exact H1|]. split; [exact H2|].
  exact (validate_chain_increasing 0 (FFin 1800000000000000) _ H1 H2).
Defined.

End ChainValidatorFacts.

(** ** Contracts *)

Section ContractFacts.
Import Validation Contracts.

Lemma validate_transition_cases (sc : SmartContract) (s : ContractState) :
  validate_transition sc s = true ->
  match state (contract sc), s with
  | PENDING, ACTIVE | PENDING, CANCELLED
  | ACTIVE, COMPLETED | ACTIVE, DISPUTED
  | DISPUTED, COMPLETED | DISPUTED, CANCELLED => True
  | _, _ => False
  end.
Proof.
  unfold validate_transition.
  destruct (state (contract sc)), s; intros H; try exact I;
    vm_compute in H; discriminate H.
Qed.

Lemma state_name_inj (s s' : ContractState) : state_name s = state_name s' -> s = s'.
Proof. destruct s, s'; intros H; try reflexivity; discriminate H. Qed.


(** X12. The state change that [update_state] logs names the new state
    twice: the state is set before the event is built, so the old state
    of the event is never the state the contract was in. *)
Theorem update_state_logs_new_state (now : Z) (s : ContractState) (metadata : pydict)
    (sc sc' : SmartContract) :
  update_state now s metadata sc = (true, sc') ->
  events sc' = events sc ++ [StateChange now (state_name s) (state_name s) metadata]
  /\ state (contract sc') = s
  /\ state_name s <> state_name (state (contract sc)).
Proof.
  unfold update_state. destruct (validate_transition sc s) eqn:Hv; [|discriminate].
  cbn [negb]. intros H. inversion H; subst. cbn [events contract with_state state].
  split; [reflexivity|]. split; [reflexivity|].
  intros E. apply state_name_inj in E. apply validate_transition_cases in Hv.
  rewrite <- E in Hv. destruct s; exact Hv.
Qed.

(** The contract of [examples/blockchain_integration.py], an hour long. *)
Definition example_contract : ServiceContract :=
  mkContract "contract_001" "provider_001" "consumer_001" "data_processing"
    [("max_time", PyInt 3600);
     ("max_resources", PyDict [("cpu", PyInt 4); ("memory", PyStr "8G")]);
     ("expected_output", PyStr "processed_data")]
    1700000000000000 (Some 1700003600000000) PENDING (FFin 10000000) "pending".

Lemma update_state_logs_new_state_example :
  let sc := new_smart example_contract in
  let sc' := snd (update_state 1700000001000000 ACTIVE [] sc) in
  update_state 1700000001000000 ACTIVE [] sc = (true, sc')
  /\ events sc' = events sc ++ [StateChange 1700000001000000 "ACTIVE" "ACTIVE" []]
  /\ state (contract sc') = ACTIVE
  /\ state_name ACTIVE <> state_name (state (contract sc)).
Proof.
  cbv zeta.
  assert (H : update_state 1700000001000000 ACTIVE [] (new_smart example_contract)
              = (true, snd (update_state 1700000001000000 ACTIVE [] (new_smart example_contract))))
    by (vm_compute; reflexivity).
  split; [exact H|].
  exact (update_state_logs_new_state _ _ _ _ _ H).
Defined.

(** The calls of [update_state] one after the other. *)
Definition apply_updates (calls : list (Z * ContractState * pydict)) (sc : SmartContract) :
  SmartContract :=
  fold_left (fun sc call => snd (update_state (fst (fst call)) (snd (fst call)) (snd call) sc))
            calls sc.

(** The transitions a contract in this state can still make. *)
Definition transitions_left (s : ContractState) : nat :=
  match s with
  | PENDING => 3
  | ACTIVE => 2
  | DISPUTED => 1
  | COMPLETED | CANCELLED => 0
  end.

Lemma update_state_left (now : Z) (s : ContractState) (metadata : pydict) (sc : SmartContract) :
  let sc' := snd (update_state now s metadata sc) in
  (length (events sc') + transitions_left (state (contract sc'))
   <= length (events sc) + transitions_left (state (contract sc)))%nat
  /\ (length (events sc) <= length (events sc'))%nat.
Proof.
  cbv zeta. unfold update_state. destruct (validate_transition sc s) eqn:Hv; cbn [negb snd].
  - apply validate_transition_cases in Hv.
    cbn [events contract with_state state]. rewrite length_app. cbn [length].
    destruct (state (contract sc)), s; try contradiction; simpl; lia.
  - lia.
Qed.

(** X13. Whatever calls of [update_state] are made, in whatever order, a
    contract changes state at most three times, twice from the active
    state on, once from the disputed state, never again once completed
    or cancelled: the log grows by no more than the transitions that
    are left. *)
Theorem update_state_at_most_three (calls : list (Z * ContractState * pydict))
    (sc : SmartContract) :
  (length (events sc) <= length (events (apply_updates calls sc))
   <= length (events sc) + transitions_left (state (contract sc)))%nat
  /\ (transitions_left (state (contract (apply_updates calls sc)))
      <= transitions_left (state (contract sc)))%nat.
Proof.
  revert sc. induction calls as [|[[now s] md] calls IH]; intros sc; [simpl; lia|].
  cbn [apply_updates fold_left fst snd].
  fold (apply_updates calls (snd (update_state now s md sc))).
  pose proof (update_state_left now s md sc) as H. cbv zeta in H.
  specialize (IH (snd (update_state now s md sc))). lia.
Qed.

(** X14. The two checks of a completed contract disagree when there is
    no end time: a contract that [verify_completion] accepts is in a
    state that [validate_contract_state] accepts exactly when it has an
    end time. *)
Theorem verify_completion_needs_end_time (now : Z) (sc : SmartContract) :
  verify_completion now sc = true ->
  validate_contract_state now (contract sc) =
  match end_time (contract sc) with Some _ => true | None => false end.
Proof.
  unfold verify_completion, validate_contract_state. intros H.
  apply andb_true_iff in H as [H He]. apply andb_true_iff in H as [Hs _].
  apply bool_decide_eq_true in Hs. rewrite Hs.
  rewrite bool_decide_eq_true_2 by reflexivity. cbn [andb].
  destruct (end_time (contract sc)) as [e|]; [|reflexivity].
  apply Z.leb_le in He. destruct (now <? e) eqn:Hlt; [apply Z.ltb_lt in Hlt; lia|].
  rewrite bool_decide_eq_false_2 by discriminate. reflexivity.
Qed.

(** The contract of [tests/test_blockchain]: no end time. *)
Definition open_contract : ServiceContract :=
  mkContract "contract_001" "provider_001" "consumer_001" "data_processing"
    [("cpu", PyInt 2); ("memory", PyStr "4G")]
    1700000000000000 None COMPLETED (FFin 10000000) "completed".

Lemma verify_completion_needs_end_time_open :
  verify_completion 1700000005000000 (new_smart open_contract) = true
  /\ validate_contract_state 1700000005000000 (contract (new_smart open_contract)) = false.
Proof.
  assert (H : verify_completion 1700000005000000 (new_smart open_contract) = true)
    by (vm_compute; reflexivity).
  split; [exact H|].
  exact (verify_completion_needs_end_time _ _ H).
Defined.



Lemma process_payment_accepts (now : Z) (amount : pyfloat) (metadata : pydict)
    (sc : SmartContract) :
  float_eqb amount (payment_amount (contract sc)) = true ->
  process_payment now amount metadata sc =
  (true, mkSmart (with_payment_status (contract sc) "completed")
                 (events sc ++ [Payment now amount metadata])).
Proof. intros Ha. unfold process_payment. now rewrite Ha. Qed.

(** X16. A payment of the agreed amount is accepted whatever state the
    contract is in and whether or not it was paid before: made twice, it
    is logged twice, and the state of the contract is not looked at. *)
Theorem process_payment_repeats (now1 now2 : Z) (amount : pyfloat) (md1 md2 : pydict)
    (sc : SmartContract) :
  float_eqb amount (payment_amount (contract sc)) = true ->
  let sc1 := snd (process_payment now1 amount md1 sc) in
  let sc2 := snd (process_payment now2 amount md2 sc1) in
  fst (process_payment now1 amount md1 sc) = true
  /\ fst (process_payment now2 amount md2 sc1) = true
  /\ events sc2 = events sc ++ [Payment now1 amount md1; Payment now2 amount md2]
  /\ state (contract sc2) = state (contract sc)
  /\ payment_status (contract sc2) = "completed".
Proof.
  intros Ha. cbv zeta. rewrite (process_payment_accepts now1 amount md1 sc Ha).
  cbn [fst snd]. rewrite process_payment_accepts by exact Ha.
  cbn [fst snd contract events]. split; [reflexivity|]. split; [reflexivity|].
  split; [now rewrite <- app_assoc|]. split; reflexivity.
Qed.

Definition cancelled_contract : ServiceContract :=
  with_state example_contract CANCELLED.

Lemma process_payment_repeats_cancelled :
  let sc := new_smart cancelled_contract in
  let sc1 := snd (process_payment 1700000002000000 (FFin 10000000) [] sc) in
  let sc2 := snd (process_payment 1700000003000000 (FFin 10000000) [] sc1) in
  float_eqb (FFin 10000000) (payment_amount (contract sc)) = true
  /\ fst (process_payment 1700000002000000 (FFin 10000000) [] sc) = true
  /\ fst (process_payment 1700000003000000 (FFin 10000000) [] sc1) = true
  /\ events sc2 = events sc ++ [Payment 1700000002000000 (FFin 10000000) [];
                                Payment 1700000003000000 (FFin 10000000) []]
  /\ state (contract sc2) = state (contract sc)
  /\ payment_status (contract sc2) = "completed".
Proof.
  cbv zeta.
  assert (H : float_eqb (FFin 10000000)
                (payment_amount (contract (new_smart cancelled_contract))) = true)
    by reflexivity.
  split; [exact H|].
  exact (process_payment_repeats 1700000002000000 1700000003000000 (FFin 10000000) [] []
           (new_smart cancelled_contract) H).
Defined.

Lemma update_state_accepts (now : Z) (s : ContractState) (metadata : pydict)
    (sc : SmartContract) :
  validate_transition sc s = true ->
  update_state now s metadata sc =
  (true, mkSmart (with_state (contract sc) s)
                 (events sc ++ [StateChange now (state_name s) (state_name s) metadata])).
Proof. intros Hv. unfold update_state. now rewrite Hv. Qed.

(** X17. The life of a contract as the example runs it: activated, paid
    and completed, a pending contract is verified complete at once when
    it has no end time, and otherwise not before its end time, however
    early the work was done. *)
Theorem completed_before_end_time (c : ServiceContract) (t1 t2 t3 now : Z)
    (md1 md2 md3 : pydict) :
  state c = PENDING ->
  payment_amount c <> FNan ->
  let sc1 := snd (update_state t1 ACTIVE md1 (new_smart c)) in
  let sc2 := snd (process_payment t2 (payment_amount c) md2 sc1) in
  let sc3 := snd (update_state t3 COMPLETED md3 sc2) in
  verify_completion now sc3 =
    match end_time c with Some e => e <=? now | None => true end
  /\ length (events sc3) = 3%nat.
Proof.
  intros Hs Ha. cbv zeta.
  assert (Heq : float_eqb (payment_amount c) (payment_amount c) = true).
  { destruct (payment_amount c) as [|[]|z]; try reflexivity; [congruence|].
    simpl. apply Z.eqb_refl. }
  rewrite (update_state_accepts t1 ACTIVE md1 (new_smart c))
    by (unfold validate_transition, new_smart; cbn [contract]; rewrite Hs;
        vm_compute; reflexivity).
  cbn [snd].
  rewrite process_payment_accepts by exact Heq.
  cbn [snd].
  rewrite update_state_accepts by (vm_compute; reflexivity).
  cbn [snd]. unfold verify_completion.
  cbn [contract events new_smart with_state with_payment_status state payment_status
       end_time app length].
  rewrite bool_decide_eq_true_2 by reflexivity. split; reflexivity.
Qed.

Lemma completed_before_end_time_example :
  let c := example_contract in
  let sc1 := snd (update_state 1700000001000000 ACTIVE [] (new_smart c)) in
  let sc2 := snd (process_payment 1700000003000000 (payment_amount c) [] sc1) in
  let sc3 := snd (update_state 1700000003000000 COMPLETED [] sc2) in
  state c = PENDING
  /\ payment_amount c <> FNan
  /\ verify_completion 1700000003000000 sc3 = false
  /\ (verify_completion 1700000003000000 sc3 =
        match end_time c with Some e => e <=? 1700000003000000 | None => true end
      /\ length (events sc3) = 3%nat).
Proof.
  cbv zeta.
  assert (H1 : state example_contract = PENDING) by reflexivity.
  assert (H2 : payment_amount example_contract <> FNan) by discriminate.
  split; [exact H1|]. split; [exact H2|]. split; [vm_compute; reflexivity|].
  exact (completed_before_end_time example_contract 1700000001000000 1700000003000000
           1700000003000000 1700000003000000 [] [] [] H1 H2).
Defined.

End ContractFacts.

(** ** The broker and its subscribers *)

Section BrokerFacts.
Import Protocol Messaging.

(** [publish] called on each envelope in turn. *)
Definition publish_all (ms : list Message) (b : MessageBroker) : MessageBroker :=
  fold_left (fun b m => publish m b) ms b.

Definition sent_by (agent : string) (m : Message) : bool := String.eqb (sender m) agent.

Lemma publish_history (m : Message) (b : MessageBroker) (agent : string) :
  default [] (message_history (publish m b) !! agent) =
  default [] (message_history b !! agent) ++ (if sent_by agent m then [m] else []).
Proof.
  unfold publish, sent_by. cbn [message_history].
  destruct (String.eqb (sender m) agent) eqn:He.
  - apply String.eqb_eq in He. subst agent. now rewrite lookup_insert_eq.
  - apply String.eqb_neq in He. rewrite lookup_insert_ne by exact He.
    now rewrite app_nil_r.
Qed.

Lemma publish_all_state (ms : list Message) (b : MessageBroker) (agent : string) :
  message_queue (publish_all ms b) = message_queue b ++ ms
  /\ default [] (message_history (publish_all ms b) !! agent) =
     default [] (message_history b !! agent) ++ List.filter (sent_by agent) ms.
Proof.
  revert b. induction ms as [|m ms IH]; intros b.
  - cbn. now rewrite !app_nil_r.
  - cbn [publish_all fold_left]. fold (publish_all ms (publish m b)).
    destruct (IH (publish m b)) as [Hq Hh]. rewrite Hq, Hh, publish_history.
    cbn [publish message_queue List.filter]. rewrite <- !app_assoc. split; [reflexivity|].
    destruct (sent_by agent m); reflexivity.
Qed.

(** X18. What was published is what is kept: after any run of
    [publish] on a new broker the queue holds the envelopes in the order
    they came, and the history of an agent, asked for with no bounds, is
    the envelopes that agent sent, in that order; an agent that sent
    nothing has an empty history. *)
Theorem history_is_what_was_sent (ms : list Message) (agent : string) :
  message_queue (publish_all ms new_broker) = ms
  /\ get_message_history agent None None (publish_all ms new_broker)
     = List.filter (sent_by agent) ms.
Proof.
  destruct (publish_all_state ms new_broker agent) as [Hq Hh]. split; [exact Hq|].
  unfold get_message_history. cbn [bound_set orb negb]. rewrite Hh.
  unfold new_broker. cbn [message_history]. now rewrite lookup_empty.
Qed.

End BrokerFacts.

Section SubscriberFacts.
Import Protocol Messaging.
Context {callback : Type} `{EqDecision callback}.

Implicit Types subs : list (string * list callback).

Lemma list_remove_absent (cb : callback) (cbs : list callback) :
  ~ In cb cbs -> list_remove cb cbs = None.
Proof.
  induction cbs as [|c cbs IH]; intros Hn; [reflexivity|].
  cbn [list_remove]. destruct (decide (c = cb)) as [->|_]; [exfalso; apply Hn; now left|].
  rewrite IH; [reflexivity|]. intros Hin. apply Hn. now right.
Qed.

Lemma list_remove_snoc (cb : callback) (cbs : list callback) :
  ~ In cb cbs -> list_remove cb (cbs ++ [cb]) = Some cbs.
Proof.
  induction cbs as [|c cbs IH]; intros Hn.
  - cbn. now rewrite decide_True.
  - cbn [app list_remove]. destruct (decide (c = cb)) as [->|_]; [exfalso; apply Hn; now left|].
    rewrite IH; [reflexivity|]. intros Hin. apply Hn. now right.
Qed.

(** X19. Unsubscribing a callback that is not subscribed under the
    topic is silent when nothing at all is subscribed under the topic,
    and raises [ValueError] when something else is. *)
Theorem unsubscribe_not_subscribed (topic : string) (cb : callback) subs :
  Forall (fun tc => fst tc = topic -> ~ In cb (snd tc)) subs ->
  unsubscribe topic cb subs =
  if existsb (String.eqb topic) (map fst subs) then Raised "ValueError" else Done subs.
Proof.
  induction 1 as [|[t cbs] subs Hhd _ IH]; [reflexivity|].
  cbn [unsubscribe map fst existsb]. rewrite (String.eqb_sym topic t).
  destruct (String.eqb t topic) eqn:He.
  - apply String.eqb_eq in He. cbn [orb]. now rewrite (list_remove_absent cb cbs (Hhd He)).
  - cbn [orb]. rewrite IH. now destruct (existsb _ _).
Qed.

(** X20. Subscribing a callback and unsubscribing it again leaves the
    subscribers as they were, a topic that was new being deleted again,
    as long as the callback was not subscribed under the topic before
    ([remove] takes the first occurrence, not the one just added). *)
Theorem unsubscribe_subscribe (topic : string) (cb : callback) subs :
  Forall (fun tc => fst tc = topic -> ~ In cb (snd tc) /\ snd tc <> []) subs ->
  unsubscribe topic cb (subscribe topic cb subs) = Done subs.
Proof.
  induction 1 as [|[t cbs] subs Hhd _ IH].
  - cbn. rewrite String.eqb_refl. cbn. now rewrite decide_True.
  - cbn [subscribe]. destruct (String.eqb t topic) eqn:He.
    + cbn [unsubscribe]. rewrite He. apply String.eqb_eq in He.
      destruct (Hhd He) as [Hn Hne]. cbn [snd] in *. rewrite (list_remove_snoc cb cbs Hn).
      destruct cbs; [congruence | reflexivity].
    + cbn [unsubscribe]. rewrite He, IH. reflexivity.
Qed.

Lemma notified_cons (t : string) (cbs : list callback) subs (m : Message) :
  notified ((t, cbs) :: subs) m =
  (if String.eqb t (recipient m) || String.eqb t "*" then cbs else []) ++ notified subs m.
Proof. reflexivity. Qed.

(** X21. A subscription adds one call, and one only, for every envelope
    sent to the topic, or for every envelope when the topic is "*", and
    changes nothing else: the callbacks an envelope is given to are the
    ones from before and the new one. Nothing is told apart, so a
    callback subscribed twice is called twice. *)
Theorem subscribe_adds_one_call (topic : string) (cb : callback) subs (m : Message) :
  Permutation (notified (subscribe topic cb subs) m)
              ((if String.eqb topic (recipient m) || String.eqb topic "*" then [cb] else [])
               ++ notified subs m).
Proof.
  induction subs as [|[t cbs] subs IH].
  - cbn [subscribe]. rewrite notified_cons. cbn [notified flat_map].
    rewrite !app_nil_r. reflexivity.
  - cbn [subscribe]. destruct (String.eqb t topic) eqn:He.
    + apply String.eqb_eq in He. subst t. rewrite !notified_cons.
      destruct (String.eqb topic (recipient m) || String.eqb topic "*"); [|reflexivity].
      rewrite <- app_assoc. apply Permutation_app_swap_app.
    + rewrite !notified_cons. rewrite IH. apply Permutation_app_swap_app.
Qed.

End SubscriberFacts.

Lemma unsubscribe_not_subscribed_other :
  Forall (fun tc : string * list nat => fst tc = "agent1" -> ~ In 2%nat (snd tc))
         [("agent1", [1%nat]); ("*", [2%nat])]
  /\ Messaging.unsubscribe "agent1" 2%nat [("agent1", [1%nat]); ("*", [2%nat])] =
     if existsb (String.eqb "agent1") (map fst [("agent1", [1%nat]); ("*", [2%nat])])
     then Raised "ValueError" else Done [("agent1", [1%nat]); ("*", [2%nat])].
Proof.
  assert (H : Forall (fun tc : string * list nat => fst tc = "agent1" -> ~ In 2%nat (snd tc))
                     [("agent1", [1%nat]); ("*", [2%nat])]).
  { repeat constructor; simpl; [intros _ [E | []]; discriminate E | discriminate]. }
  split; [exact H|].
  exact (unsubscribe_not_subscribed "agent1" 2%nat _ H).
Defined.

Lemma unsubscribe_subscribe_second :
  Forall (fun tc : string * list nat =>
            fst tc = "agent1" -> ~ In 2%nat (snd tc) /\ snd tc <> [])
         [("agent1", [1%nat]); ("*", [2%nat])]
  /\ Messaging.subscribe "agent1" 2%nat [("agent1", [1%nat]); ("*", [2%nat])]
     = [("agent1", [1%nat; 2%nat]); ("*", [2%nat])]
  /\ Messaging.unsubscribe "agent1" 2%nat
       (Messaging.subscribe "agent1" 2%nat [("agent1", [1%nat]); ("*", [2%nat])])
     = Done [("agent1", [1%nat]); ("*", [2%nat])].
Proof.
  assert (H : Forall (fun tc : string * list nat =>
                        fst tc = "agent1" -> ~ In 2%nat (snd tc) /\ snd tc <> [])
                     [("agent1", [1%nat]); ("*", [2%nat])]).
  { repeat constructor; simpl; try discriminate. intros [E | []]; discriminate E. }
  split; [exact H|]. split; [reflexivity|].
  exact (unsubscribe_subscribe "agent1" 2%nat _ H).
Defined.

(** ** The dispatch loop and the request handler *)

Section DispatchFacts.
Import Protocol Messaging.

(** The turns of [_process_queue] one after the other, each with the id
    and the time its reply would take; a turn on an empty queue waits. *)
Definition process_many (turns : list (string * pyfloat)) (b : MessageBroker) :
  MessageBroker :=
  fold_left (fun b turn => match process_one (fst turn) (snd turn) b with
                           | Some (_, b') => b'
                           | None => b
                           end)
            turns b.

(** An envelope the protocol handler answers in kind. *)
Definition echoed (m : Message) : bool :=
  bool_decide (type m = HEARTBEAT) || bool_decide (type m = ERROR).

Lemma process_one_echoed (new_id : string) (now : pyfloat) (b : MessageBroker) :
  existsb echoed (message_queue b) = true ->
  exists m b', process_one new_id now b = Some (m, b')
               /\ existsb echoed (message_queue b') = true
               /\ (length (message_queue b) <= length (message_queue b') + 1)%nat.
Proof.
  unfold process_one. destruct (message_queue b) as [|m q] eqn:Hq; [discriminate|].
  cbn [existsb]. intros He.
  destruct (Protocol.handle_message new_id now m) as [r|] eqn:Hr.
  - exists m. eexists. split; [reflexivity|]. cbn [publish message_queue].
    rewrite existsb_app, length_app. cbn [existsb length]. split; [|lia].
    destruct (echoed m) eqn:Hm.
    + unfold echoed in Hm. unfold Protocol.handle_message in Hr.
      destruct (type m) eqn:Ht; try discriminate Hm;
        cbn in Hr; inversion Hr; subst r; cbn; now rewrite orb_true_r.
    + cbn [orb] in He. now rewrite He.
  - exists m. eexists. split; [reflexivity|]. cbn [message_queue]. split; [|cbn; lia].
    destruct (echoed m) eqn:Hm; [|exact He].
    unfold echoed in Hm. unfold Protocol.handle_message in Hr.
    destruct (type m); try discriminate Hm; discriminate Hr.
Qed.

(** X22. A heartbeat or an error in the queue never leaves it: the
    protocol handler answers each with one of the same kind, the answer
    is published, and is answered in turn. After any number of turns of
    the dispatch loop the queue still holds such an envelope, so it is
    never empty again. *)
Theorem process_queue_never_drains (turns : list (string * pyfloat)) (b : MessageBroker) :
  existsb echoed (message_queue b) = true ->
  existsb echoed (message_queue (process_many turns b)) = true
  /\ message_queue (process_many turns b) <> [].
Proof.
  intros He.
  assert (H : existsb echoed (message_queue (process_many turns b)) = true).
  { revert b He. induction turns as [|[i n] turns IH]; intros b He; [exact He|].
    cbn [process_many fold_left fst snd].
    destruct (process_one_echoed i n b He) as (m & b' & -> & He' & _).
    apply IH. exact He'. }
  split; [exact H|]. intros E. rewrite E in H. discriminate H.
Qed.

Lemma process_queue_never_drains_hello :
  let hello := Networking.hello_message "msg-1" (FFin 1700000000000000) "node1"
                 "localhost" 8000 in
  let b := publish hello new_broker in
  let turns := [("msg-2", FFin 1700000001000000); ("msg-3", FFin 1700000002000000);
                ("msg-4", FFin 1700000003000000)] in
  existsb echoed (message_queue b) = true
  /\ map id (message_queue (process_many turns b)) = ["msg-4"]
  /\ existsb echoed (message_queue (process_many turns b)) = true
  /\ message_queue (process_many turns b) <> [].
Proof.
  cbv zeta.
  assert (H : existsb echoed
                (message_queue
                   (publish (Networking.hello_message "msg-1" (FFin 1700000000000000) "node1"
                               "localhost" 8000) new_broker)) = true)
    by (vm_compute; reflexivity).
  split; [exact H|]. split; [vm_compute; reflexivity|].
  exact (process_queue_never_drains _ _ H).
Defined.

Lemma resolve_resolved (m : Message) (h : MessageHandler) (k : string) (r : Message) :
  pending_requests h !! k = Some (Resolved r) ->
  pending_requests (resolve m h) !! k = Some (Resolved r).
Proof.
  intros Hk. unfold resolve.
  destruct (correlation_id m) as [cid|]; [|exact Hk].
  destruct (pending_requests h !! cid) as [f|] eqn:Hf; [|exact Hk].
  destruct (negb (done f)) eqn:Hd; [|exact Hk].
  cbn [pending_requests]. destruct (decide (cid = k)) as [->|Hne].
  - rewrite Hk in Hf. inversion Hf; subst f. discriminate Hd.
  - now rewrite lookup_insert_ne.
Qed.

Lemma deliver_cons (e : string * pyfloat * Message) (es : list (string * pyfloat * Message))
    (h : MessageHandler) (b : MessageBroker) :
  deliver (e :: es) (h, b) =
  deliver es (Messaging.handle_message (fst (fst e)) (snd (fst e)) (snd e) h b).
Proof. reflexivity. Qed.

Lemma deliver_resolved (incoming : list (string * pyfloat * Message))
    (h : MessageHandler) (b : MessageBroker) (k : string) (r : Message) :
  pending_requests h !! k = Some (Resolved r) ->
  pending_requests (fst (deliver incoming (h, b))) !! k = Some (Resolved r).
Proof.
  revert h b. induction incoming as [|e es IH]; intros h b Hk; [exact Hk|].
  rewrite deliver_cons.
  destruct (Messaging.handle_message (fst (fst e)) (snd (fst e)) (snd e) h b)
    as [h' b'] eqn:Hh.
  apply IH.
  assert (h' = resolve (snd e) h) as ->.
  { rewrite <- (handle_message_pending (fst (fst e)) (snd (fst e)) (snd e) h b).
    now rewrite Hh. }
  now apply resolve_resolved.
Qed.

Lemma deliver_app (es es' : list (string * pyfloat * Message))
    (hb : MessageHandler * MessageBroker) :
  deliver (es ++ es') hb = deliver es' (deliver es hb).
Proof. unfold deliver. apply fold_left_app. Qed.

(** X23. The first reply wins: of the envelopes that reach a handler
    during the wait of [send_request], the first that carries the id of
    the request is what [send_request] returns, whatever comes before
    it under other ids and whatever comes after it, replies under the
    same id included; the slot is gone afterwards. *)
Theorem send_request_first_reply (new_id : string) (now : pyfloat) (to : string)
    (content : pydict) (h : MessageHandler) (b : MessageBroker)
    (before after : list (string * pyfloat * Message)) (reply : string * pyfloat * Message) :
  Forall (fun e => correlation_id (snd e) <> Some new_id) before ->
  correlation_id (snd reply) = Some new_id ->
  let '(message, h1, b1) := send_request_begin new_id now to content h b in
  let '(h2, b2) := deliver (before ++ reply :: after) (h1, b1) in
  let '(result, h3) := send_request_end message h2 in
  result = Some (snd reply) /\ pending_requests h3 !! new_id = None.
Proof.
  intros Hb Hr. unfold send_request_begin. cbn [id create].
  set (h1 := mkHandler (agent_id h) (<[new_id:=Waiting]> (pending_requests h))).
  set (m := create new_id now REQUEST (agent_id h) to content None).
  destruct (deliver (before ++ reply :: after) (h1, publish m b)) as [h2 b2] eqn:Hd.
  assert (Hres : pending_requests h2 !! new_id = Some (Resolved (snd reply))).
  { replace h2 with (fst (deliver (before ++ reply :: after) (h1, publish m b)))
      by now rewrite Hd.
    rewrite deliver_app.
    destruct (deliver before (h1, publish m b)) as [ha ba] eqn:Ha.
    assert (Hw : pending_requests ha !! new_id = Some Waiting).
    { replace ha with (fst (deliver before (h1, publish m b))) by now rewrite Ha.
      rewrite deliver_other by exact Hb. apply lookup_insert_eq. }
    rewrite deliver_cons.
    destruct (Messaging.handle_message (fst (fst reply)) (snd (fst reply)) (snd reply) ha ba)
      as [hr br] eqn:Hh.
    apply deliver_resolved.
    assert (hr = resolve (snd reply) ha) as ->.
    { rewrite <- (handle_message_pending (fst (fst reply)) (snd (fst reply)) (snd reply) ha ba).
      now rewrite Hh. }
    unfold resolve. rewrite Hr, Hw. cbn [done negb pending_requests].
    apply lookup_insert_eq. }
  unfold send_request_end. cbn [id m create]. rewrite Hres.
  split; [reflexivity|]. cbn [pending_requests]. apply lookup_delete_eq.
Qed.

Definition first_reply : Message :=
  mkMessage "msg-7" RESPONSE "agent2" "agent1" [("status", PyStr "processed")]
            (FFin 1700000002000000) (Some "msg-1").

Definition second_reply : Message :=
  mkMessage "msg-8" RESPONSE "agent3" "agent1" [("status", PyStr "late")]
            (FFin 1700000003000000) (Some "msg-1").

Definition stray_event : Message :=
  mkMessage "msg-5" EVENT "agent3" "agent1" [] (FFin 1700000001000000) None.

Lemma send_request_first_reply_of_two :
  Forall (fun e : string * pyfloat * Message => correlation_id (snd e) <> Some "msg-1")
         [("msg-6", FFin 1700000001500000, stray_event)]
  /\ correlation_id (snd ("msg-9", FFin 1700000002500000, first_reply)) = Some "msg-1"
  /\ let '(message, h1, b1) :=
       send_request_begin "msg-1" (FFin 1700000000000000) "agent2" [("action", PyStr "test")]
                          (new_handler "agent1") new_broker in
     let '(h2, b2) :=
       deliver ([("msg-6", FFin 1700000001500000, stray_event)]
                ++ ("msg-9", FFin 1700000002500000, first_reply)
                   :: [("msg-10", FFin 1700000003500000, second_reply)]) (h1, b1) in
     let '(result, h3) := send_request_end message h2 in
     result = Some (snd ("msg-9", FFin 1700000002500000, first_reply))
     /\ pending_requests h3 !! "msg-1" = None.
Proof.
  assert (H1 : Forall (fun e : string * pyfloat * Message =>
                         correlation_id (snd e) <> Some "msg-1")
                      [("msg-6", FFin 1700000001500000, stray_event)]).
  { repeat constructor. discriminate. }
  assert (H2 : correlation_id (snd ("msg-9", FFin 1700000002500000, first_reply))
               = Some "msg-1") by reflexivity.
  split; [exact H1|]. split; [exact H2|].
  exact (send_request_first_reply "msg-1" (FFin 1700000000000000) "agent2"
           [("action", PyStr "test")] (new_handler "agent1") new_broker
           [("msg-6", FFin 1700000001500000, stray_event)]
           [("msg-10", FFin 1700000003500000, second_reply)]
           ("msg-9", FFin 1700000002500000, first_reply) H1 H2).
Defined.

(** X24. The broker answers every request itself, in the name of the
    agent the request is for and whether or not there is such an agent:
    the turn of the dispatch loop that takes the request off the queue
    puts an acknowledgement under the request's id in its place, and a
    handler that is given this acknowledgement during its wait returns
    it from [send_request]. *)
Theorem send_request_acknowledged (new_id ack_id other_id : string) (now later later' : pyfloat)
    (to : string) (body : pydict) (h : MessageHandler) (b : MessageBroker) :
  message_queue b = [] ->
  let '(message, h1, b1) := send_request_begin new_id now to body h b in
  let ack := Protocol.handle_request ack_id later message in
  exists b2,
    process_one ack_id later b1 = Some (message, b2)
    /\ message_queue b2 = [ack]
    /\ sender ack = to /\ recipient ack = agent_id h
    /\ content ack = [("status", PyStr "received")]
    /\ fst (send_request_end message
              (fst (Messaging.handle_message other_id later' ack h1 b2))) = Some ack.
Proof.
  intros Hq. unfold send_request_begin. cbn [id create]. cbv zeta.
  eexists. split.
  - unfold process_one, publish at 1. cbn [message_queue]. rewrite Hq. cbn [app].
    reflexivity.
  - cbn [publish message_queue app]. split; [reflexivity|].
    split; [reflexivity|]. split; [reflexivity|]. split; [reflexivity|].
    rewrite handle_message_pending. unfold resolve, send_request_end.
    cbn [Protocol.handle_request create correlation_id id pending_requests].
    rewrite lookup_insert_eq. cbn [done negb pending_requests].
    now rewrite lookup_insert_eq.
Qed.

Lemma send_request_acknowledged_ghost :
  message_queue new_broker = []
  /\ let '(message, h1, b1) :=
       send_request_begin "msg-1" (FFin 1700000000000000) "ghost_agent"
                          [("action", PyStr "test")] (new_handler "agent1") new_broker in
     let ack := Protocol.handle_request "msg-2" (FFin 1700000000100000) message in
     exists b2,
       process_one "msg-2" (FFin 1700000000100000) b1 = Some (message, b2)
       /\ message_queue b2 = [ack]
       /\ sender ack = "ghost_agent" /\ recipient ack = agent_id (new_handler "agent1")
       /\ content ack = [("status", PyStr "received")]
       /\ fst (send_request_end message
                 (fst (Messaging.handle_message "msg-3" (FFin 1700000000200000) ack h1 b2)))
          = Some ack.
Proof.
  split; [reflexivity|].
  exact (send_request_acknowledged "msg-1" "msg-2" "msg-3" (FFin 1700000000000000)
           (FFin 1700000000100000) (FFin 1700000000200000) "ghost_agent"
           [("action", PyStr "test")] (new_handler "agent1") new_broker eq_refl).
Defined.

End DispatchFacts.

(** ** Frames on the wire *)

Section WireFacts.
Import Protocol Networking.

(** A text of ASCII characters: what [json.dumps] writes. *)
Definition plain (t : text) : Prop := Forall (fun c => (code c < 128)%N) t.

Lemma plain_bool (t : text) :
  forallb (fun c => (code c <? 128)%N) t = true -> plain t.
Proof.
  intros H. apply List.Forall_forall. intros c Hc.
  apply N.ltb_lt. revert c Hc. now apply forallb_forall.
Qed.

Lemma plain_app (t u : text) : plain t -> plain u -> plain (t ++ u).
Proof. intros Ht Hu. apply Forall_app. now split. Qed.

Lemma plain_digit (c : ascii) : is_digit c = true -> (code c < 128)%N.
Proof.
  unfold is_digit. intros H. apply andb_true_iff in H as [_ H]. apply N.leb_le in H. lia.
Qed.

Lemma uint_text_plain (u : Decimal.uint) : plain (uint_text u).
Proof.
  induction u; cbn [uint_text]; [constructor | ..];
    (constructor; [reflexivity | assumption]).
Qed.

Lemma int_text_plain (z : Z) : plain (int_text z).
Proof.
  unfold int_text, N_text. destruct (z <? 0).
  - constructor; [reflexivity | apply uint_text_plain].
  - apply uint_text_plain.
Qed.

Lemma strip_zeros_plain (t : text) : plain t -> plain (strip_zeros t).
Proof.
  intros Ht. destruct (strip_zeros_spec t) as (n & Hn & _).
  rewrite Hn in Ht. apply Forall_app in Ht as [Ht _]. exact Ht.
Qed.

Lemma digits_plain (t : text) : Forall (fun c => is_digit c = true) t -> plain t.
Proof. intros H. eapply Forall_impl; [exact H|]. intros c. apply plain_digit. Qed.

Lemma mantissa_text_plain (ds : text) : plain ds -> plain (mantissa_text ds).
Proof.
  intros H. destruct ds as [|d [|r rs]]; [exact H | exact H |].
  cbn [mantissa_text]. pose proof (List.Forall_inv H) as Hd.
  pose proof (List.Forall_inv_tail H) as Hr.
  constructor; [exact Hd|]. constructor; [reflexivity | exact Hr].
Qed.

Lemma exponent_text_plain (e : Z) : plain (exponent_text e).
Proof.
  destruct (exponent_text_shape e) as (u & _ & _ & ->).
  constructor; [reflexivity|]. constructor; [destruct (e <? 0); reflexivity|].
  apply uint_text_plain.
Qed.

Lemma json_float_plain (f : pyfloat) : plain (json_float f).
Proof.
  destruct f as [ | [] | z]; try (apply plain_bool; reflexivity).
  cbn [json_float float_repr]. apply plain_app.
  - destruct (z <? 0); [apply plain_bool; reflexivity | constructor].
  - destruct ((Z.abs_N z =? 0) || _)%N.
    + apply plain_app; [apply uint_text_plain|].
      constructor; [reflexivity|]. apply strip_zeros_plain.
      apply digits_plain, fixed_digits_digits.
    + apply plain_app; [|apply exponent_text_plain].
      apply mantissa_text_plain.
      destruct (significant_spec (Z.abs_N z)) as (t & _ & _ & Hd & _).
      now apply digits_plain.
Qed.

Lemma escape_char_plain (c : ascii) : plain (escape_char c).
Proof.
  apply plain_bool. destruct c as [[] [] [] [] [] [] [] []]; reflexivity.
Qed.

Lemma json_string_plain (s : text) : plain (json_string s).
Proof.
  unfold json_string. constructor; [reflexivity|]. apply plain_app.
  - induction s as [|c s IH]; [constructor|]. cbn [flat_map].
    apply plain_app; [apply escape_char_plain | exact IH].
  - apply plain_bool. reflexivity.
Qed.

Lemma join_plain (sep : text) (parts : list text) :
  plain sep -> Forall plain parts -> plain (join sep parts).
Proof.
  intros Hs. induction 1 as [|p parts Hp Hps IH]; [constructor|].
  cbn [join]. destruct parts as [|q parts]; [exact Hp|].
  apply plain_app; [exact Hp|]. apply plain_app; [exact Hs | exact IH].
Qed.

Lemma sort_items_all (Q : string * text -> Prop) (l : list (string * text)) :
  Forall Q l -> Forall Q (sort_items l).
Proof.
  induction 1 as [|kv l Hkv _ IH]; [constructor|].
  cbn [sort_items fold_right]. fold (sort_items l).
  induction IH as [|kv' l' Hkv' Hl' IH']; cbn [insert_item].
  - now constructor.
  - destruct (String.leb (fst kv) (fst kv')); repeat constructor; assumption.
Qed.

Lemma dumps_text_plain (sort_keys : bool) (v : pyval) : plain (dumps_text sort_keys v).
Proof.
  induction v as [ | b | z | f | s | l IH | l IH | d IH] using pyval_nested_ind.
  - apply plain_bool. reflexivity.
  - destruct b; apply plain_bool; reflexivity.
  - apply int_text_plain.
  - apply json_float_plain.
  - apply json_string_plain.
  - cbn [dumps_text]. constructor; [reflexivity|]. apply plain_app.
    + apply join_plain; [apply plain_bool; reflexivity|].
      induction IH; constructor; assumption.
    + apply plain_bool. reflexivity.
  - cbn [dumps_text]. constructor; [reflexivity|]. apply plain_app.
    + apply join_plain; [apply plain_bool; reflexivity|].
      induction IH; constructor; assumption.
    + apply plain_bool. reflexivity.
  - cbn [dumps_text]. constructor; [reflexivity|]. apply plain_app.
    + apply join_plain; [apply plain_bool; reflexivity|].
      assert (Hitems : Forall (fun kt : string * text => plain (snd kt))
                (map (fun kv => (fst kv, dumps_text sort_keys (snd kv))) d)).
      { induction IH; constructor; assumption. }
      assert (Hsorted : Forall (fun kt : string * text => plain (snd kt))
                (if sort_keys
                 then sort_items (map (fun kv => (fst kv, dumps_text sort_keys (snd kv))) d)
                 else map (fun kv => (fst kv, dumps_text sort_keys (snd kv))) d)).
      { destruct sort_keys; [apply sort_items_all|]; exact Hitems. }
      clear -Hsorted. induction Hsorted as [|kt items Hkt _ IHi]; constructor; [|exact IHi].
      apply plain_app; [apply json_string_plain|].
      apply plain_app; [apply plain_bool; reflexivity | exact Hkt].
    + apply plain_bool. reflexivity.
Qed.

(** On such a text [encode] writes one byte for a character and
    [decode] reads it back. *)
Lemma encode_plain (t : text) : plain t -> encode (str t) = map code t.
Proof.
  unfold encode. rewrite chars_str.
  induction 1 as [|c t Hc _ IH]; [reflexivity|].
  cbn [flat_map map]. rewrite IH. unfold encode_char.
  apply N.ltb_lt in Hc. now rewrite Hc.
Qed.

Lemma decode_plain (t : text) : plain t -> decode (map code t) = Some (str t).
Proof.
  unfold decode. intros Ht.
  assert (H : decode_bytes (map code t) = Some t).
  { induction Ht as [|c t Hc _ IH]; [reflexivity|].
    cbn [map decode_bytes]. apply N.ltb_lt in Hc. rewrite Hc, IH.
    cbn [option_map]. unfold code. now rewrite ascii_N_embedding. }
  now rewrite H.
Qed.

Lemma be_bytes_4 (n : N) :
  Sha256.be_bytes 4 n =
  [N.land (N.shiftr n 24) 0xFF; N.land (N.shiftr n 16) 0xFF;
   N.land (N.shiftr n 8) 0xFF; N.land (N.shiftr n 0) 0xFF]%N.
Proof. reflexivity. Qed.

Lemma low_byte (x : N) : N.land x 0xFF = (x mod 256)%N.
Proof. change 0xFF%N with (N.ones 8). now rewrite N.land_ones. Qed.

(** [int.from_bytes(n.to_bytes(4, 'big'), 'big')] is [n]. *)
Lemma from_bytes_be_bytes (n : N) :
  (n < 2 ^ 32)%N -> from_bytes (Sha256.be_bytes 4 n) = n.
Proof.
  intros Hn. rewrite be_bytes_4. unfold from_bytes. cbn [fold_left].
  rewrite !low_byte, !N.shiftr_div_pow2.
  change (2 ^ 32)%N with 4294967296%N in Hn.
  change (2 ^ 24)%N with 16777216%N. change (2 ^ 16)%N with 65536%N.
  change (2 ^ 8)%N with 256%N. change (2 ^ 0)%N with 1%N.
  rewrite N.div_1_r.
  pose proof (N.div_mod n 256). pose proof (N.mod_lt n 256).
  pose proof (N.div_mod (n / 256) 256). pose proof (N.mod_lt (n / 256) 256).
  pose proof (N.div_mod (n / 256 / 256) 256). pose proof (N.mod_lt (n / 256 / 256) 256).
  replace (n / 65536)%N with (n / 256 / 256)%N by (now rewrite N.Div0.div_div).
  replace (n / 16777216)%N with (n / 256 / 256 / 256)%N
    by (now rewrite !N.Div0.div_div).
  assert (Hsmall : (n / 256 / 256 / 256 < 256)%N).
  { rewrite !N.Div0.div_div. apply N.Div0.div_lt_upper_bound. lia. }
  rewrite (N.mod_small (n / 256 / 256 / 256) 256) by exact Hsmall.
  revert H H0 H1 H2 H3 H4 Hsmall.
  generalize (n mod 256)%N ((n / 256) mod 256)%N ((n / 256 / 256) mod 256)%N
             (n / 256 / 256 / 256)%N (n / 256 / 256)%N (n / 256)%N.
  intros. lia.
Qed.

Lemma be_bytes_length (n : N) : length (Sha256.be_bytes 4 n) = 4%nat.
Proof. reflexivity. Qed.

(** What [_send_message] writes, when it writes. *)
Lemma send_message_frame (m : Message) (frame : bytes) :
  send_message m = Done frame ->
  let data := map code (chars (to_json m)) in
  (N.of_nat (length data) < 2 ^ 32)%N
  /\ frame = Sha256.be_bytes 4 (N.of_nat (length data)) ++ data.
Proof.
  unfold send_message, to_json, json_dumps. cbv zeta.
  rewrite encode_plain by apply dumps_text_plain. rewrite chars_str.
  destruct (N.ltb_spec (N.of_nat (length (map code (dumps_text false
    (PyDict [("id", PyStr (id m)); ("type", PyStr (type_name (type m)));
             ("sender", PyStr (sender m)); ("recipient", PyStr (recipient m));
             ("content", PyDict (content m)); ("timestamp", PyFloat (timestamp m));
             ("correlation_id", opt_str (correlation_id m))]))))) (2 ^ 32)%N) as [Hlt|Hge];
    [|discriminate].
  intros H. inversion H. split; [exact Hlt | reflexivity].
Qed.

Lemma readexactly_app (data rest : bytes) :
  readexactly (N.of_nat (length data)) (data ++ rest) = Some (data, rest).
Proof.
  unfold readexactly. rewrite length_app, Nat2N.id.
  destruct (N.ltb_spec (N.of_nat (length data + length rest)) (N.of_nat (length data)));
    [lia|].
  now rewrite take_app_length, drop_app_length.
Qed.

Lemma from_json_reads_back (m : Message) :
  json_native (PyDict (content m)) = true -> floats_exact (PyDict (content m)) = true ->
  timestamp m <> FNan -> float_exact (timestamp m) = true ->
  from_json (to_json m) = Some m.
Proof.
  intros Hc Hcx Ht Htx. unfold from_json, to_json.
  rewrite json_loads_dumps.
  - destruct m as [i t s r c ts cid]. cbn. rewrite type_of_name_name.
    destruct cid; reflexivity.
  - cbn [json_native map fst snd forallb keys_differ] in *. rewrite Hc.
    destruct (timestamp m); [congruence | |]; destruct (correlation_id m); reflexivity.
  - cbn [floats_exact forallb snd] in *. rewrite Hcx, Htx.
    destruct (correlation_id m); reflexivity.
Qed.

(** An envelope that JSON carries over and the embedding holds: no
    tuple, no not-a-number, keys that differ, floats that [float_exact]
    accepts (strings hold code points below 256 as they are). *)
Definition carried (m : Message) : Prop :=
  json_native (PyDict (content m)) = true
  /\ floats_exact (PyDict (content m)) = true
  /\ timestamp m <> FNan
  /\ float_exact (timestamp m) = true.

Lemma receive_message_frame (m : Message) (frame rest : bytes) :
  carried m -> send_message m = Done frame ->
  receive_message (frame ++ rest) = Got m rest.
Proof.
  intros (Hc & Hcx & Ht & Htx) Hs. destruct (send_message_frame m frame Hs) as [Hlen ->].
  unfold receive_message. rewrite <- app_assoc.
  change 4%N with (N.of_nat (length (Sha256.be_bytes 4
    (N.of_nat (length (map code (chars (to_json m)))))))) at 1.
  rewrite readexactly_app, from_bytes_be_bytes by exact Hlen.
  rewrite readexactly_app.
  unfold to_json at 1, json_dumps. rewrite chars_str.
  rewrite decode_plain by apply dumps_text_plain.
  fold (json_dumps false (PyDict [("id", PyStr (id m)); ("type", PyStr (type_name (type m)));
             ("sender", PyStr (sender m)); ("recipient", PyStr (recipient m));
             ("content", PyDict (content m)); ("timestamp", PyFloat (timestamp m));
             ("correlation_id", opt_str (correlation_id m))])).
  fold (to_json m). now rewrite from_json_reads_back.
Qed.

(** X25. Frames delimit themselves: the stream written by
    [_send_message] for one envelope after the other is read back by the
    loop of [_handle_peer_messages] as the same envelopes, each published
    in turn; the loop stops at the end of the stream. The envelopes are
    the [carried] ones: values JSON carries over, strings of code points
    below 256, floats that [float_exact] accepts. *)
Theorem handle_peer_messages_frames (ms : list Message) (fs : list bytes)
    (b : Messaging.MessageBroker) :
  Forall carried ms ->
  Forall2 (fun m f => send_message m = Done f) ms fs ->
  handle_peer_messages (concat fs) b = publish_all ms b.
Proof.
  intros Hc Hs. unfold handle_peer_messages.
  assert (Hturns : (length ms <= length (concat fs))%nat).
  { clear Hc. induction Hs as [|m f ms fs Hf _ IH]; [simpl; lia|].
    cbn [concat length]. rewrite length_app.
    destruct (send_message_frame m f Hf) as [_ ->]. rewrite length_app, be_bytes_length. lia. }
  revert Hturns. generalize (length (concat fs)). intros turns Hturns.
  revert b turns Hturns Hc. induction Hs as [|m f ms fs Hf _ IH]; intros b turns Hturns Hc.
  - destruct turns; reflexivity.
  - destruct turns as [|turns]; [simpl in Hturns; lia|].
    inversion Hc as [|? ? Hm Hms]; subst.
    cbn [concat publish_frames]. rewrite (receive_message_frame m f (concat fs) Hm Hf).
    cbn [publish_all fold_left]. apply IH; [simpl in Hturns; lia | exact Hms].
Qed.

Definition ping : Message :=
  mkMessage "msg-1" REQUEST "agent1" "agent2"
    [("action", PyStr "ping"); ("tries", PyInt 2)] (FFin 1700000000500000) None.

Definition pong : Message :=
  mkMessage "msg-2" RESPONSE "agent2" "agent1"
    [("status", PyStr "processed")] (FFin 1700000000750000) (Some "msg-1").

Definition frame_of (m : Message) : bytes :=
  match send_message m with Done f => f | _ => [] end.

Lemma handle_peer_messages_frames_two :
  Forall carried [ping; pong]
  /\ Forall2 (fun m f => send_message m = Done f) [ping; pong] [frame_of ping; frame_of pong]
  /\ firstn 4 (frame_of pong) = [0; 0; 0; 169]%N
  /\ handle_peer_messages (concat [frame_of ping; frame_of pong]) Messaging.new_broker
     = publish_all [ping; pong] Messaging.new_broker.
Proof.
  assert (H1 : Forall carried [ping; pong]).
  { repeat constructor; try discriminate; vm_compute; reflexivity. }
  assert (H2 : Forall2 (fun m f => send_message m = Done f) [ping; pong]
                       [frame_of ping; frame_of pong]).
  { repeat constructor; vm_compute; reflexivity. }
  split; [exact H1|]. split; [exact H2|]. split; [vm_compute; reflexivity|].
  exact (handle_peer_messages_frames _ _ Messaging.new_broker H1 H2).
Defined.

(** X26. A frame that is cut short gives no envelope and no wrong one:
    on every proper prefix of what [_send_message] wrote,
    [_receive_message] ends in [IncompleteReadError]. *)
Theorem receive_message_truncated (m : Message) (frame : bytes) (k : nat) :
  send_message m = Done frame -> (k < length frame)%nat ->
  receive_message (firstn k frame) = Incomplete.
Proof.
  intros Hs Hk. destruct (send_message_frame m frame Hs) as [Hlen ->].
  set (data := map code (chars (to_json m))) in *.
  rewrite length_app, be_bytes_length in Hk.
  unfold receive_message.
  destruct (Nat.lt_ge_cases k 4) as [Hk4|Hk4].
  - unfold readexactly at 1. rewrite length_take, length_app, be_bytes_length.
    destruct (N.ltb_spec (N.of_nat (k `min` (4 + length data))) 4); [reflexivity | lia].
  - rewrite take_app_ge by (rewrite be_bytes_length; exact Hk4). rewrite be_bytes_length.
    change 4%N with (N.of_nat (length (Sha256.be_bytes 4 (N.of_nat (length data))))) at 1.
    rewrite readexactly_app, from_bytes_be_bytes by exact Hlen.
    unfold readexactly. rewrite length_take.
    destruct (N.ltb_spec (N.of_nat ((k - 4) `min` length data)) (N.of_nat (length data)));
      [reflexivity | lia].
Qed.

Lemma receive_message_truncated_ping :
  send_message ping = Done (frame_of ping)
  /\ (20 < length (frame_of ping))%nat
  /\ receive_message (firstn 20 (frame_of ping)) = Incomplete.
Proof.
  assert (H1 : send_message ping = Done (frame_of ping)) by (vm_compute; reflexivity).
  assert (H2 : (20 < length (frame_of ping))%nat).
  { assert (H : length (frame_of ping) = 175%nat) by (vm_compute; reflexivity).
    rewrite H. lia. }
  split; [exact H1|]. split; [exact H2|].
  exact (receive_message_truncated ping (frame_of ping) 20 H1 H2).
Defined.

(** X27. The two ends of a connection agree: what [_send_hello_message]
    writes is accepted by [_handle_connection] as the first envelope,
    the peer is kept under the id of the node that sent it, and the
    stream goes on after the frame. The clock is a float that
    [float_exact] accepts, not not-a-number; ids and host are strings of
    code points below 256. *)
Theorem hello_is_accepted (new_id : string) (now : pyfloat) (node_id host : string)
    (port : Z) (frame rest : bytes) :
  now <> FNan -> float_exact now = true ->
  send_message (hello_message new_id now node_id host port) = Done frame ->
  handle_connection (frame ++ rest) = Some (node_id, rest).
Proof.
  intros Hn Hx Hs. unfold handle_connection.
  rewrite (receive_message_frame (hello_message new_id now node_id host port) frame rest);
    [reflexivity | | exact Hs].
  split; [reflexivity|]. split; [reflexivity|]. split; [exact Hn | exact Hx].
Qed.

Lemma hello_is_accepted_node1 :
  let hello := hello_message "msg-1" (FFin 1700000000000000) "node1" "localhost" 8000 in
  FFin 1700000000000000 <> FNan
  /\ float_exact (FFin 1700000000000000) = true
  /\ send_message hello = Done (frame_of hello)
  /\ handle_connection (frame_of hello ++ frame_of ping) = Some ("node1", frame_of ping).
Proof.
  cbv zeta.
  assert (H1 : FFin 1700000000000000 <> FNan) by discriminate.
  assert (Hx : float_exact (FFin 1700000000000000) = true) by (vm_compute; reflexivity).
  assert (H2 : send_message (hello_message "msg-1" (FFin 1700000000000000) "node1"
                               "localhost" 8000)
               = Done (frame_of (hello_message "msg-1" (FFin 1700000000000000) "node1"
                                   "localhost" 8000))) by (vm_compute; reflexivity).
  split; [exact H1|]. split; [exact Hx|]. split; [exact H2|].
  exact (hello_is_accepted "msg-1" (FFin 1700000000000000) "node1" "localhost" 8000 _
           (frame_of ping) H1 Hx H2).
Defined.

End WireFacts.
